(** * Icon and preview generators: a Rocq model of the two scripts

    The repository holds two variants of one script:
    - [public/ico4x4.py], the conservative variant, which skips outputs that
      already exist (module [Conservative] below);
    - [public/images/preview/ico4x4.py], the replace variant, which always
      overwrites and also writes the three previews (module [Replace]).

    Both are sequences of Pillow calls around existence checks.  The model
    has three layers: the Python run-time the calls live in (a store of
    image objects, the script directory, the console), the part of Pillow
    the scripts call (module [PIL]), and the scripts themselves, transcribed
    statement by statement. *)

From Stdlib Require Import ZArith List String Ascii Lia Permutation.
From stdpp Require Import base gmap sets list strings pretty.

Local Open Scope Z_scope.

(** ** Rasters

    A decoded raster in one of the modes a PNG or WEBP file decodes to:
    bilevel ("1"), 8-bit grey, 16-bit grey ("I;16"), grey with alpha,
    palette, RGB and RGBA.  Band values are kept as [Z].  The constructor
    fixes the mode, so a pixel always has the bands of its image.

    A raster without an alpha band can carry [info["transparency"]], the
    colour key of PNG's tRNS chunk: a sample value for the grey modes, a
    colour for RGB, and for a palette either the index of its one
    transparent entry or the alpha bytes of its entries.  [convert] leaves
    the sample value of a bilevel or 16-bit raster on the RGB raster it
    returns, so an RGB raster can also carry a grey key. *)

Inductive mode := Bilevel | L | I16 | LA | P | RGB | RGBA.

#[global] Instance mode_eq_dec : EqDecision mode.
Proof. solve_decision. Defined.

Definition rgb : Type := Z * Z * Z.
Definition rgba : Type := Z * Z * Z * Z.

Inductive colour_key := GreyKey (k : Z) | ColourKey (c : rgb).

Inductive palette_key := IndexKey (i : Z) | AlphaBytes (alphas : list Z).

Inductive raster :=
| Bands1 (key : option Z) (px : list Z)
| BandsL (key : option Z) (px : list Z)
| BandsI16 (key : option Z) (px : list Z)
| BandsLA (px : list (Z * Z))
| BandsP (palette : list rgb) (trns : option palette_key) (px : list Z)
| BandsRGB (key : option colour_key) (px : list rgb)
| BandsRGBA (px : list rgba).

(** [PIL.Image.Image]: the fields the scripts observe. *)
Record Image := mkImage { im_size : Z * Z; im_data : raster }.

Definition raster_mode (d : raster) : mode :=
  match d with
  | Bands1 _ _ => Bilevel
  | BandsL _ _ => L
  | BandsI16 _ _ => I16
  | BandsLA _ => LA
  | BandsP _ _ _ => P
  | BandsRGB _ _ => RGB
  | BandsRGBA _ => RGBA
  end.

Definition im_mode (im : Image) : mode := raster_mode (im_data im).
Definition im_width (im : Image) : Z := fst (im_size im).
Definition im_height (im : Image) : Z := snd (im_size im).

#[global] Instance colour_key_eq_dec : EqDecision colour_key.
Proof. solve_decision. Defined.
#[global] Instance palette_key_eq_dec : EqDecision palette_key.
Proof. solve_decision. Defined.
#[global] Instance raster_eq_dec : EqDecision raster.
Proof. solve_decision. Defined.
#[global] Instance Image_eq_dec : EqDecision Image.
Proof. solve_decision. Defined.

(** *** Mode conversion, as [Image.convert] computes it per pixel *)

(** Palette lookup: Pillow's palette has 256 entries, the ones a file does
    not define are black; the alpha of entry [i] is 0 at the transparent
    index, or comes from the tRNS bytes and is 255 where they end. *)
Definition palette_rgb (pal : list rgb) (i : Z) : rgb :=
  nth (Z.to_nat i) pal (0, 0, 0).

Definition palette_alpha (trns : option palette_key) (i : Z) : Z :=
  match trns with
  | Some (IndexKey t) => if i =? t then 0 else 255
  | Some (AlphaBytes alphas) => nth (Z.to_nat i) alphas 255
  | None => 255
  end.

Definition rgb_of_rgba (p : rgba) : rgb := let '(r, g, b, _) := p in (r, g, b).
Definition alpha_of (p : rgba) : Z := let '(_, _, _, a) := p in a.
Definition opaque (c : rgb) : rgba := let '(r, g, b) := c in (r, g, b, 255).
Definition with_alpha (c : rgb) (a : Z) : rgba := let '(r, g, b) := c in (r, g, b, a).
Definition grey (l : Z) : rgb := (l, l, l).

(** A bilevel sample is black or white; a 16-bit sample above 255 is
    narrowed to 255 ([I16L_L] and [I16_RGB] of Pillow's [Convert.c]);
    [putpixel] clips a value to a byte; the key is compared by its low
    byte ([rgbT2a]). *)
Definition bit (v : Z) : Z := if v =? 0 then 0 else 255.
Definition narrow16 (v : Z) : Z := if 255 <? v then 255 else v.
Definition clip8 (v : Z) : Z := Z.max 0 (Z.min 255 v).
Definition low_byte (k : Z) : Z := Z.land k 255.

(** [convert_transparent]: the converted pixel is opaque unless it is the
    key colour.  Called with a sample value [k] on an RGB raster, the key
    colour is [(k, 0, 0)]. *)
Definition keyed_grey (key : option Z) (l : Z) : rgba :=
  with_alpha (grey l)
    match key with
    | Some k => if l =? low_byte k then 0 else 255
    | None => 255
    end.

Definition key_colour (key : colour_key) : rgb :=
  match key with
  | GreyKey k => (low_byte k, 0, 0)
  | ColourKey (r, g, b) => (low_byte r, low_byte g, low_byte b)
  end.

Definition keyed_rgb (key : option colour_key) (c : rgb) : rgba :=
  with_alpha c
    match key with
    | Some k => if decide (c = key_colour k) then 0 else 255
    | None => 255
    end.

(** The pixels of [im.convert("RGBA")]. *)
Definition rgba_pixels (d : raster) : list rgba :=
  match d with
  | Bands1 key px => map (fun v => keyed_grey key (bit v)) px
  | BandsL key px => map (keyed_grey key) px
  | BandsI16 key px => map (fun v => keyed_grey key (narrow16 v)) px
  | BandsLA px => map (fun '(l, a) => with_alpha (grey l) a) px
  | BandsP pal trns px =>
      map (fun i => with_alpha (palette_rgb pal i) (palette_alpha trns i)) px
  | BandsRGB key px => map (keyed_rgb key) px
  | BandsRGBA px => px
  end.

(** The pixels of [im.convert("RGB")]: the alpha band, where there is one,
    is dropped and the colour bands are kept as stored. *)
Definition rgb_pixels (d : raster) : list rgb := map rgb_of_rgba (rgba_pixels d).

(** The colour key of [im.convert("RGB")]: the key of an RGB raster stays;
    a grey key becomes the grey colour, the transparent index of a palette
    its colour; the sample value of a bilevel or 16-bit raster is carried
    over as it is; alpha bytes and alpha bands leave no key. *)
Definition rgb_key (d : raster) : option colour_key :=
  match d with
  | Bands1 key _ | BandsI16 key _ => GreyKey <$> key
  | BandsL key _ => (fun k => ColourKey (grey (clip8 k))) <$> key
  | BandsP pal (Some (IndexKey t)) _ => Some (ColourKey (palette_rgb pal (clip8 t)))
  | BandsRGB key _ => key
  | _ => None
  end.

(** *** Compositing, as [Image.paste] with a mask computes it

    [DIV255] and [BLEND] are the macros of Pillow's [ImagingUtils.h]. *)
Definition DIV255 (a : Z) : Z :=
  let tmp := a + 128 in Z.shiftr (Z.shiftr tmp 8 + tmp) 8.

Definition BLEND (mask in1 in2 : Z) : Z := DIV255 (in1 * (255 - mask) + in2 * mask).

Definition paste_pixel (out inp : rgba) (mask : Z) : rgba :=
  let '(r0, g0, b0, a0) := out in
  let '(r, g, b, a) := inp in
  (BLEND mask r0 r, BLEND mask g0 g, BLEND mask b0 b, BLEND mask a0 a).

(** Paste [src] over [out] at (0, 0) with [src]'s own alpha as the mask,
    where both rasters have the same size: pixel by pixel, and what [out]
    has beyond [src] stays. *)
Fixpoint paste_pixels (out src : list rgba) : list rgba :=
  match out, src with
  | o :: out', s :: src' => paste_pixel o s (alpha_of s) :: paste_pixels out' src'
  | _, _ => out
  end.

Definition white : rgba := (255, 255, 255, 255).

(** ** Files

    A file is what an encoder wrote: the format, the frames handed to the
    encoder and the quality it was given.  [Partial] is what a save that
    failed left of a file that existed: the file was truncated when it was
    opened and holds whatever the encoder wrote before it raised, no
    image.  Anything else in the directory is [Junk]. *)
Inductive format := PNG | JPEG | WEBP | ICO.

#[global] Instance format_eq_dec : EqDecision format.
Proof. solve_decision. Defined.

Inductive file :=
| Encoded (fmt : format) (frames : list Image) (quality : option Z)
| Junk (bytes : string)
| Partial.

#[global] Instance file_eq_dec : EqDecision file.
Proof. solve_decision. Defined.

(** ** Numeric kernels and the machine

    Pillow's resampling filters and its lossy codecs compute in floating
    point; they are taken as parameters, one per pixel layout, so that a
    resized raster keeps the mode of its source by construction.
    [lanczos_*] is [resize(..., LANCZOS)] from a raster of the first size to
    the second (bilevel and palette rasters are resampled with NEAREST, as
    Pillow does for them); [thumbnail] is the [copy()] + [thumbnail()] step
    of the ICO encoder; [lossy] is what a JPEG or WEBP file written at a
    quality decodes to.

    [grants] tells the targets [resize] can allocate: beyond them it raises
    MemoryError.  Which targets these are depends on the machine and on
    limits inside the library; every machine grants an icon, a target of at
    most 256x256.  Only [resize] takes a size chosen by its caller; every
    other operation allocates a raster of the size of one it holds. *)
Class Numerics := {
  lanczos_L : Z * Z -> list Z -> Z * Z -> list Z;
  lanczos_I16 : Z * Z -> list Z -> Z * Z -> list Z;
  lanczos_LA : Z * Z -> list (Z * Z) -> Z * Z -> list (Z * Z);
  nearest_P : Z * Z -> list Z -> Z * Z -> list Z;
  lanczos_RGB : Z * Z -> list rgb -> Z * Z -> list rgb;
  lanczos_RGBA : Z * Z -> list rgba -> Z * Z -> list rgba;
  thumbnail : Image -> Z * Z -> Image;
  lossy : format -> option Z -> Image -> Image;
  grants : Z * Z -> bool;
  grants_icon : forall w h, 1 <= w <= 256 -> 1 <= h <= 256 -> grants (w, h) = true
}.

(** The resampled raster; the colour key, part of [info], is carried over
    ([Image._new]). *)
Definition resample `{Numerics} (im : Image) (size : Z * Z) : Image :=
  let from := im_size im in
  mkImage size
    match im_data im with
    | Bands1 key px => Bands1 key (nearest_P from px size)
    | BandsL key px => BandsL key (lanczos_L from px size)
    | BandsI16 key px => BandsI16 key (lanczos_I16 from px size)
    | BandsLA px => BandsLA (lanczos_LA from px size)
    | BandsP pal trns px => BandsP pal trns (nearest_P from px size)
    | BandsRGB key px => BandsRGB key (lanczos_RGB from px size)
    | BandsRGBA px => BandsRGBA (lanczos_RGBA from px size)
    end.

(** ** The Python run-time

    A run owns a store of image objects (an object is its index in [heap];
    objects are never freed during a run), the script directory as a map
    from entry names to files, and the console.  [os.path.join(SCRIPT_DIR,
    name)] is the entry [name]; [locked] holds the entries the process may
    not write. *)
Inductive exn_class :=
| FileNotFoundError | UnidentifiedImageError | PermissionError
| ValueError | OSError | ReferenceError
| OverflowError | MemoryError | TypeError.

Record exn := Exception { class_of : exn_class; str : string }.

Inductive result (A : Type) :=
| Return (a : A)
| Raise (e : exn).
Arguments Return {A} a.
Arguments Raise {A} e.

Record world := mkWorld {
  heap : list Image;
  files : gmap string file;
  locked : gset string;
  stdout : list string
}.

Definition M (A : Type) : Type := world -> result A * world.

Definition ret {A} (a : A) : M A := fun w => (Return a, w).

Definition bind {A B} (m : M A) (k : A -> M B) : M B :=
  fun w =>
    match m w with
    | (Return a, w') => k a w'
    | (Raise e, w') => (Raise e, w')
    end.

Definition raise {A} (c : exn_class) (msg : string) : M A :=
  fun w => (Raise (Exception c msg), w).

(** [try: body / except Exception as e: handler(e)]; what the body did to
    the world before it raised stays done. *)
Definition try_except {A} (body : M A) (handler : exn -> M A) : M A :=
  fun w =>
    match body w with
    | (Return a, w') => (Return a, w')
    | (Raise e, w') => handler e w'
    end.

#[global] Instance M_ret : MRet M := @ret.
#[global] Instance M_bind : MBind M := fun A B k m => bind m k.

Definition print (line : string) : M unit :=
  fun w => (Return tt, mkWorld (heap w) (files w) (locked w) (stdout w ++ [line])).

(** [for x in xs: body(x)] *)
Fixpoint for_each {A} (xs : list A) (body : A -> M unit) : M unit :=
  match xs with
  | [] => ret tt
  | x :: xs' => body x;; for_each xs' body
  end.

Definition ref := nat.

Definition alloc (im : Image) : M ref :=
  fun w => (Return (length (heap w)),
            mkWorld (heap w ++ [im]) (files w) (locked w) (stdout w)).

(** Reading an object; the scripts only hold references they were given by
    [alloc], so the error branch is never taken in a run. *)
Definition deref (r : ref) : M Image :=
  fun w =>
    match heap w !! r with
    | Some im => (Return im, w)
    | None => (Raise (Exception ReferenceError "no such object"), w)
    end.

Definition assign (r : ref) (im : Image) : M unit :=
  fun w => (Return tt, mkWorld (<[r := im]> (heap w)) (files w) (locked w) (stdout w)).

Definition put_file (path : string) (f : file) : M unit :=
  fun w => (Return tt, mkWorld (heap w) (<[path := f]> (files w)) (locked w) (stdout w)).

Definition remove_file (path : string) : M unit :=
  fun w => (Return tt, mkWorld (heap w) (delete path (files w)) (locked w) (stdout w)).

(** ** The operating-system calls *)
Module os.

Definition path_exists (path : string) : M bool :=
  fun w => (Return (bool_decide (is_Some (files w !! path))), w).

(** [os.listdir]: the entry names, in the arbitrary order of the
    directory. *)
Definition listdir : M (list string) :=
  fun w => (Return (elements (dom (files w))), w).

End os.

(** ** String helpers: [str.lower], [str.endswith], [os.path.splitext] *)

Definition lower_ascii (c : ascii) : ascii :=
  let n := nat_of_ascii c in
  if ((65 <=? n) && (n <=? 90))%nat then ascii_of_nat (n + 32) else c.

Fixpoint lower (s : string) : string :=
  match s with
  | EmptyString => EmptyString
  | String c s' => String (lower_ascii c) (lower s')
  end.

Definition endswith (s suffix : string) : bool :=
  let n := String.length s in
  let k := String.length suffix in
  if (k <=? n)%nat then String.eqb (substring (n - k) k s) suffix else false.

(** [p.rfind(c)]: the index of the last [c] in [p], or -1. *)
Fixpoint rfind_from (c : ascii) (p : string) (i : Z) (last : Z) : Z :=
  match p with
  | EmptyString => last
  | String d p' => rfind_from c p' (i + 1) (if Ascii.eqb d c then i else last)
  end.

Definition rfind (c : ascii) (p : string) : Z := rfind_from c p 0 (-1).

(** The loop of [genericpath._splitext]: is there a character other than
    the extension separator in [p[i : i + n]]? *)
Fixpoint has_non_dot (p : string) (i : nat) (n : nat) : bool :=
  match n with
  | O => false
  | S n' =>
      match String.get i p with
      | Some c => if Ascii.eqb c "." then has_non_dot p (S i) n' else true
      | None => true
      end
  end.

Definition splitext (p : string) : string * string :=
  let sepIndex := rfind "/" p in
  let dotIndex := rfind "." p in
  if (sepIndex <? dotIndex)
     && has_non_dot p (Z.to_nat (sepIndex + 1)) (Z.to_nat (dotIndex - (sepIndex + 1)))
  then (substring 0 (Z.to_nat dotIndex) p,
        substring (Z.to_nat dotIndex) (String.length p - Z.to_nat dotIndex) p)
  else (p, EmptyString).

(** ** Pillow: the calls the scripts make *)
Module PIL.

(** Keyword arguments of [Image.save]. *)
Record save_options := SaveOptions {
  quality : option Z;
  sizes : option (list (Z * Z))
}.

Definition no_options : save_options := SaveOptions None None.

(** *** The ICO encoder ([IcoImagePlugin._save])

    The requested sizes are taken as [sorted(set(sizes))]; a size larger
    than the image being saved, or than 256, is skipped; a size equal to
    the image's is the image itself; any other is a thumbnail of it. *)
Definition size_ltb (a b : Z * Z) : bool :=
  (fst a <? fst b) || ((fst a =? fst b) && (snd a <? snd b)).

Fixpoint insert_size (x : Z * Z) (l : list (Z * Z)) : list (Z * Z) :=
  match l with
  | [] => [x]
  | y :: l' =>
      if decide (x = y) then l
      else if size_ltb x y then x :: l
      else y :: insert_size x l'
  end.

Definition sorted_set (l : list (Z * Z)) : list (Z * Z) := foldr insert_size [] l.

Definition default_ico_sizes : list (Z * Z) :=
  [(16, 16); (24, 24); (32, 32); (48, 48); (64, 64); (128, 128); (256, 256)].

Definition ico_skips (im : Image) (size : Z * Z) : bool :=
  (im_width im <? fst size) || (im_height im <? snd size)
  || (256 <? fst size) || (256 <? snd size).

Definition ico_frames `{Numerics} (im : Image) (requested : list (Z * Z)) : list Image :=
  flat_map
    (fun size =>
       if ico_skips im size then []
       else if decide (im_size im = size) then [im]
       else [thumbnail im size])
    (sorted_set requested).

(** *** Encoders

    PNG takes every mode and ignores [quality]; it writes the colour key
    as a tRNS chunk, unpacking the key of an RGB raster as a colour, which
    fails on a sample value.  JPEG has no alpha band and refuses a mode
    that carries one (or a palette, or 16-bit samples); WEBP stores RGB or
    RGBA and converts any other mode to the one that keeps its
    transparency; ICO stores its frames as PNG and refuses to write a file
    with no frame. *)
Definition has_transparency_data (im : Image) : bool :=
  match im_data im with
  | BandsLA _ | BandsRGBA _ | BandsP _ (Some _) _
  | Bands1 (Some _) _ | BandsL (Some _) _ | BandsI16 (Some _) _ | BandsRGB (Some _) _ => true
  | _ => false
  end.

Definition mode_name (m : mode) : string :=
  match m with
  | Bilevel => "1" | L => "L" | I16 => "I;16" | LA => "LA" | P => "P"
  | RGB => "RGB" | RGBA => "RGBA"
  end.

Definition as_rgb (im : Image) : Image :=
  mkImage (im_size im) (BandsRGB (rgb_key (im_data im)) (rgb_pixels (im_data im))).

Definition as_rgba (im : Image) : Image :=
  mkImage (im_size im) (BandsRGBA (rgba_pixels (im_data im))).

(** Can the PNG encoder write the colour key of the raster. *)
Definition png_writes (im : Image) : bool :=
  match im_data im with
  | BandsRGB (Some (GreyKey _)) _ => false
  | _ => true
  end.

Definition png_error : exn := Exception TypeError "cannot unpack non-iterable int object".

Definition encode `{Numerics} (fmt : format) (im : Image) (opts : save_options)
  : result file :=
  match fmt with
  | PNG => if png_writes im then Return (Encoded PNG [im] None) else Raise png_error
  | JPEG =>
      match im_mode im with
      | Bilevel | L | RGB => Return (Encoded JPEG [im] (quality opts))
      | m => Raise (Exception OSError ("cannot write mode " +:+ mode_name m +:+ " as JPEG"))
      end
  | WEBP =>
      match im_mode im with
      | RGB | RGBA => Return (Encoded WEBP [im] (quality opts))
      | _ =>
          Return (Encoded WEBP
                    [if has_transparency_data im then as_rgba im else as_rgb im]
                    (quality opts))
      end
  | ICO =>
      match ico_frames im (default default_ico_sizes (sizes opts)) with
      | [] => Raise (Exception ValueError "All sizes too large for image")
      | frames =>
          if forallb png_writes frames then Return (Encoded ICO frames None)
          else Raise png_error
      end
  end.

(** *** Decoder

    PNG is lossless, but for the tRNS bytes of a palette that make exactly
    one entry fully transparent and leave the others opaque, which are
    read as the index of that entry; an ICO file opens at its largest
    frame; JPEG and WEBP give back what their lossy coding left.  Pillow
    refuses a raster with an empty side. *)
Fixpoint simple_palette (alphas : list Z) (i : Z) : option Z :=
  match alphas with
  | [] => None
  | a :: rest =>
      if a =? 255 then simple_palette rest (i + 1)
      else if (a =? 0) && forallb (Z.eqb 255) rest then Some i
           else None
  end.

Definition png_read (im : Image) : Image :=
  match im_data im with
  | BandsP pal (Some (AlphaBytes alphas)) px =>
      match simple_palette alphas 0 with
      | Some i => mkImage (im_size im) (BandsP pal (Some (IndexKey i)) px)
      | None => im
      end
  | _ => im
  end.

Definition area (im : Image) : Z := im_width im * im_height im.

Definition largest (frames : list Image) : option Image :=
  foldl (fun best im =>
           match best with
           | Some b => if area b <? area im then Some im else Some b
           | None => Some im
           end) None frames.

Definition decoded `{Numerics} (f : file) : option Image :=
  match f with
  | Encoded PNG (im :: _) _ => Some (png_read im)
  | Encoded ICO frames _ => png_read <$> largest frames
  | Encoded fmt (im :: _) q => Some (lossy fmt q im)
  | _ => None
  end.

Definition decode `{Numerics} (f : file) : option Image :=
  match decoded f with
  | Some im => if (0 <? im_width im) && (0 <? im_height im) then Some im else None
  | None => None
  end.

(** [Image.open(path)] *)
Definition open `{Numerics} (path : string) : M ref :=
  fun w =>
    match files w !! path with
    | None =>
        raise FileNotFoundError
          ("[Errno 2] No such file or directory: '" +:+ path +:+ "'") w
    | Some f =>
        match decode f with
        | Some im => alloc im w
        | None =>
            raise UnidentifiedImageError
              ("cannot identify image file '" +:+ path +:+ "'") w
        end
    end.

(** [Image.new('RGBA', size, color)] *)
Definition new_RGBA (size : Z * Z) (color : rgba) : M ref :=
  alloc (mkImage size (BandsRGBA (repeat color (Z.to_nat (fst size * snd size))))).

(** [im.convert('RGB')] and [im.convert('RGBA')]: a new object, a copy
    when the mode is already the requested one. *)
Definition convert_RGB (r : ref) : M ref :=
  im ← deref r;
  if decide (im_mode im = RGB) then alloc im else alloc (as_rgb im).

Definition convert_RGBA (r : ref) : M ref :=
  im ← deref r;
  if decide (im_mode im = RGBA) then alloc im else alloc (as_rgba im).

(** [out.paste(src, (0, 0), mask)] for an RGBA [out] and a [src] of
    [out]'s size: [src] is converted to [out]'s mode, the mask is the
    alpha band of an LA or RGBA mask (the one band of a bilevel or L one),
    and [out] is changed in place. *)
Definition mask_band (d : raster) : option (list Z) :=
  match d with
  | Bands1 _ px => Some (map bit px)
  | BandsL _ px => Some px
  | BandsLA px => Some (map snd px)
  | BandsRGBA px => Some (map alpha_of px)
  | _ => None
  end.

Fixpoint paste_masked (out src : list rgba) (mask : list Z) : list rgba :=
  match out, src, mask with
  | o :: out', s :: src', m :: mask' => paste_pixel o s m :: paste_masked out' src' mask'
  | _, _, _ => out
  end.

Definition paste (out src mask : ref) : M unit :=
  o ← deref out;
  s ← deref src;
  m ← deref mask;
  match im_data o, mask_band (im_data m) with
  | BandsRGBA px, Some band =>
      assign out (mkImage (im_size o)
                    (BandsRGBA (paste_masked px (rgba_pixels (im_data s)) band)))
  | _, _ => raise ValueError "bad transparency mask"
  end.

(** [im.resize(size, Image.LANCZOS)]: a copy when the size is already the
    requested one; otherwise the sides are handed to C as [int]s, which
    raises OverflowError for a side that does not fit one (the width is
    read first); a side below 1 is refused; a target that cannot be
    allocated raises MemoryError, whose text is empty; any other target
    gives the resampled raster. *)
Definition c_int (x : Z) : bool := (- 2 ^ 31 <=? x) && (x <? 2 ^ 31).

(** The text of the OverflowError, where a C [long] has 64 bits. *)
Definition c_int_error (x : Z) : string :=
  if (x <? - 2 ^ 63) || (2 ^ 63 <=? x) then "Python int too large to convert to C long"
  else if x <? 0 then "signed integer is less than minimum"
       else "signed integer is greater than maximum".

Definition resize `{Numerics} (r : ref) (size : Z * Z) : M ref :=
  im ← deref r;
  if decide (im_size im = size) then alloc im
  else if negb (c_int (fst size)) then raise OverflowError (c_int_error (fst size))
  else if negb (c_int (snd size)) then raise OverflowError (c_int_error (snd size))
  else if (fst size <? 1) || (snd size <? 1)
       then raise ValueError "height and width must be > 0"
  else if negb (grants size) then raise MemoryError ""
  else alloc (resample im size).

(** [im.save(path, format=fmt, **opts)]: the file is opened for writing
    first (which fails on an entry the process may not write, leaving it
    as it was), then encoded; when the encoder raises, a file that [save]
    created is removed and one that existed is left as the encoder left
    it. *)
Definition write `{Numerics} (im : Image) (path : string) (fmt : format)
    (opts : save_options) : M unit :=
  fun w =>
    if decide (path ∈ locked w)
    then raise PermissionError ("[Errno 13] Permission denied: '" +:+ path +:+ "'") w
    else
      match encode fmt im opts with
      | Return f => put_file path f w
      | Raise e =>
          let created := bool_decide (files w !! path = None) in
          (Raise e, snd ((if created then remove_file path
                          else put_file path Partial) w))
      end.

Definition save `{Numerics} (r : ref) (path : string) (fmt : format)
    (opts : save_options) : M unit :=
  im ← deref r;
  write im path fmt opts.

End PIL.

(** [f.lower().endswith('.webp')] *)
Definition is_webp (f : string) : bool := endswith (lower f) ".webp".

(** [asyncio.gather] over coroutines that never suspend: each runs
    to completion, in the order of the list. *)
Definition gather (tasks : list (M unit)) : M unit := for_each tasks (fun t => t).

(** ** The conservative variant, [public/ico4x4.py] *)
Module Conservative.
Section Script.
Context `{Numerics}.

Definition flatten_image_to_white (img : ref) : M ref :=
  im ← deref img;
  if bool_decide (im_mode im = RGBA \/ im_mode im = LA)
  then
    background ← PIL.new_RGBA (im_size im) (255, 255, 255, 255);
    PIL.paste background img img;;
    PIL.convert_RGB background
  else PIL.convert_RGB img.

(** The body of the loop of [convert_all_webp_to_ico]. *)
Definition convert_one (file_name : string) : M unit :=
  let base_name := fst (splitext file_name) in
  let source_path := file_name in
  let ico_path := base_name +:+ ".ico" in
  found ← os.path_exists ico_path;
  if (found : bool)
  then print ("(SKIP) '" +:+ base_name +:+ ".ico' ya existe. Omitiendo conversión para '"
              +:+ file_name +:+ "'.")
  else
    try_except
      (img ← PIL.open source_path;
       img_rgb ← flatten_image_to_white img;
       img_64 ← PIL.resize img_rgb (64, 64);
       PIL.save img_64 ico_path ICO (PIL.SaveOptions None (Some [(64, 64)]));;
       print ("✅ Generado: " +:+ base_name +:+ ".ico (fuente: " +:+ file_name +:+ ")"))
      (fun e => print ("❌ Error convirtiendo '" +:+ file_name +:+ "' a .ico: " +:+ str e)).

(** [convert_all_webp_to_ico] after the directory has been listed. *)
Definition convert_listed (names : list string) : M unit :=
  let webp_files := List.filter is_webp names in
  match webp_files with
  | [] => print "No se encontraron archivos .webp en el directorio."
  | _ => for_each webp_files convert_one
  end.

Definition convert_all_webp_to_ico : M unit :=
  names ← os.listdir;
  convert_listed names.

Definition targets : list (string * (Z * Z)) :=
  [("favicon-16x16.png", (16, 16));
   ("favicon-32x32.png", (32, 32));
   ("apple-touch-icon.png", (180, 180))].

(** The body of the PNG loop of [generate_icons_from_logo]. *)
Definition generate_png (img_rgb : ref) (target : string * (Z * Z)) : M unit :=
  let '(filename, (w, h)) := target in
  let out_path := filename in
  found ← os.path_exists out_path;
  if (found : bool)
  then print ("(SKIP) '" +:+ filename +:+ "' ya existe. Omitiendo.")
  else
    try_except
      (resized ← PIL.resize img_rgb (w, h);
       PIL.save resized out_path PNG (PIL.SaveOptions (Some 95) None);;
       print ("✅ Generado: " +:+ filename +:+ " (" +:+ pretty w +:+ "x" +:+ pretty h +:+ ")"))
      (fun e => print ("❌ Error generando '" +:+ filename +:+ "': " +:+ str e)).

Definition icon_sizes : list Z := [16; 32; 48; 64].

(** [icon_list.append(...)] over [icon_sizes]. *)
Fixpoint resize_each (img : ref) (sides : list Z) : M (list ref) :=
  match sides with
  | [] => ret []
  | size :: sides' =>
      r ← PIL.resize img (size, size);
      rs ← resize_each img sides';
      ret (r :: rs)
  end.

(** [icon_list[0]]; an empty list raises IndexError, which the constant
    list of sizes rules out. *)
Definition first (icon_list : list ref) : M ref :=
  match icon_list with
  | r :: _ => ret r
  | [] => raise ValueError "list index out of range"
  end.

Definition generate_favicon_ico (img_rgb : ref) : M unit :=
  let ico_path := "favicon.ico"%string in
  found ← os.path_exists ico_path;
  if (found : bool)
  then print "(SKIP) 'favicon.ico' ya existe. Omitiendo."
  else
    try_except
      (icon_list ← resize_each img_rgb icon_sizes;
       icon0 ← first icon_list;
       PIL.save icon0 ico_path ICO
         (PIL.SaveOptions None (Some (map (fun size => (size, size)) icon_sizes)));;
       print "✅ Generado: favicon.ico (múltiples tamaños)")
      (fun e => print ("❌ Error generando 'favicon.ico': " +:+ str e)).

(** [generate_icons_from_logo] once the logo is open and flattened. *)
Definition generate_from (img_rgb : ref) : M unit :=
  for_each targets (generate_png img_rgb);;
  generate_favicon_ico img_rgb.

Definition generate_icons_from_logo : M unit :=
  let logo_path := "logo.png"%string in
  found ← os.path_exists logo_path;
  if negb found
  then print "❌ No se encontró 'logo.png' en el directorio."
  else
    opened ← try_except
               (img ← PIL.open logo_path;
                img_rgb ← flatten_image_to_white img;
                ret (Some img_rgb))
               (fun e => print ("❌ Error abriendo 'logo.png': " +:+ str e);;
                         ret None);
    match opened with
    | Some img_rgb => generate_from img_rgb
    | None => ret tt
    end.

(** [main]; [opcion] is what [input(...).strip()] returned, and the prompt
    of [input] is one more write to the console. *)
Definition main (opcion : string) : M unit :=
  print "¿Qué acción desea realizar?";;
  print "1) Convertir TODOS los archivos .webp a .ico (mismo nombre base).";;
  print "2) Generar favicon y apple-touch-icon a partir de 'logo.png'.";;
  print "Ingrese 1 o 2 y presione [Enter]: ";;
  if String.eqb opcion "1" then convert_all_webp_to_ico
  else if String.eqb opcion "2" then generate_icons_from_logo
  else print "Opción no válida. Saliendo...".

End Script.
End Conservative.

(** ** The replace variant, [public/images/preview/ico4x4.py] *)
Module Replace.

Definition LOGO_FILENAME : string := "logo.png".
Definition WEBP_TO_ICO_SIZE : Z := 64.
Definition FAVICON_16 : string := "favicon-16x16.png".
Definition FAVICON_16_SIZE : Z * Z := (16, 16).
Definition FAVICON_32 : string := "favicon-32x32.png".
Definition FAVICON_32_SIZE : Z * Z := (32, 32).
Definition APPLE_TOUCH_ICON : string := "apple-touch-icon.png".
Definition APPLE_TOUCH_ICON_SIZE : Z * Z := (180, 180).
Definition FAVICON_ICO : string := "favicon.ico".
Definition FAVICON_ICO_SIZES : list Z := [16; 32; 48; 64].
Definition PREVIEW_PNG : string := "preview.png".
Definition PREVIEW_JPG : string := "preview.jpg".
Definition PREVIEW_WEBP : string := "preview.webp".

Module ImageIOManager.
Section Methods.
Context `{Numerics}.

Definition load_image (path : string) : M ref :=
  found ← os.path_exists path;
  if String.eqb path "" || negb found
  then raise FileNotFoundError ("No se encontró el archivo: " +:+ path)
  else PIL.open path.

(** An image object is never falsy, so [if not img] never raises. *)
Definition save_image (img : ref) (path : string) (img_format : format)
    (kwargs : PIL.save_options) : M unit :=
  if String.eqb path ""
  then raise ValueError "Ruta de destino no válida."
  else PIL.save img path img_format kwargs.

End Methods.
End ImageIOManager.

Module ImageModeConverter.

Definition ensure_rgba (img : ref) : M ref :=
  im ← deref img;
  if negb (bool_decide (im_mode im = RGBA))
  then PIL.convert_RGBA img
  else ret img.

Definition ensure_rgb (img : ref) : M ref :=
  im ← deref img;
  if negb (bool_decide (im_mode im = RGB))
  then PIL.convert_RGB img
  else ret img.

End ImageModeConverter.

Module ImageResizer.

Definition resize `{Numerics} (img : ref) (size : Z * Z) : M ref :=
  PIL.resize img size.

End ImageResizer.

Module WebpToIcoConverter.
Section Methods.
Context `{Numerics}.
(** [self.ico_size] *)
Variable ico_size : Z.

Definition _convert_single_webp (file_name : string) : M unit :=
  let base_name := fst (splitext file_name) in
  let source_path := file_name in
  let ico_path := base_name +:+ ".ico" in
  try_except
    (img ← ImageIOManager.load_image source_path;
     img_rgba ← ImageModeConverter.ensure_rgba img;
     resized ← ImageResizer.resize img_rgba (ico_size, ico_size);
     ImageIOManager.save_image resized ico_path ICO
       (PIL.SaveOptions None (Some [(ico_size, ico_size)]));;
     print ("✅ Generado (reemplazado si existía): " +:+ base_name +:+ ".ico"))
    (fun e => print ("❌ Error convirtiendo '" +:+ file_name +:+ "' a .ico: " +:+ str e)).

(** [convert_all_webp_to_ico] after the directory has been listed. *)
Definition convert_listed (names : list string) : M unit :=
  let webp_files := List.filter is_webp names in
  match webp_files with
  | [] => print "No se encontraron archivos .webp en el directorio."
  | _ => gather (map _convert_single_webp webp_files)
  end.

Definition convert_all_webp_to_ico : M unit :=
  names ← os.listdir;
  convert_listed names.

End Methods.
End WebpToIcoConverter.

Module LogoAssetsGenerator.
Section Methods.
Context `{Numerics}.
(** [self.logo_filename]; [self.logo_path] is the same entry. *)
Variable logo_filename : string.

Definition icon_targets : list (string * (Z * Z)) :=
  [(FAVICON_16, FAVICON_16_SIZE);
   (FAVICON_32, FAVICON_32_SIZE);
   (APPLE_TOUCH_ICON, APPLE_TOUCH_ICON_SIZE)].

(** The body of the loop of [_generate_png_icons]. *)
Definition generate_png_icon (base_img : ref) (target : string * (Z * Z)) : M unit :=
  let '(filename, (w, h)) := target in
  let out_path := filename in
  try_except
    (img_rgba ← ImageModeConverter.ensure_rgba base_img;
     resized ← ImageResizer.resize img_rgba (w, h);
     ImageIOManager.save_image resized out_path PNG (PIL.SaveOptions (Some 95) None);;
     print ("✅ Generado (reemplazado si existía): " +:+ filename
            +:+ " (" +:+ pretty w +:+ "x" +:+ pretty h +:+ ")"))
    (fun e => print ("❌ Error generando '" +:+ filename +:+ "': " +:+ str e)).

Definition _generate_png_icons (base_img : ref) : M unit :=
  for_each icon_targets (generate_png_icon base_img).

(** [icon_list.append(resized)] over [FAVICON_ICO_SIZES]. *)
Fixpoint resize_each (img : ref) (sides : list Z) : M (list ref) :=
  match sides with
  | [] => ret []
  | size :: sides' =>
      resized ← ImageResizer.resize img (size, size);
      rest ← resize_each img sides';
      ret (resized :: rest)
  end.

(** [icon_list[0]] *)
Definition first (icon_list : list ref) : M ref :=
  match icon_list with
  | r :: _ => ret r
  | [] => raise ValueError "list index out of range"
  end.

Definition _generate_favicon_ico (base_img : ref) : M unit :=
  let ico_path := FAVICON_ICO in
  try_except
    (img_rgba ← ImageModeConverter.ensure_rgba base_img;
     icon_list ← resize_each img_rgba FAVICON_ICO_SIZES;
     icon0 ← first icon_list;
     ImageIOManager.save_image icon0 ico_path ICO
       (PIL.SaveOptions None (Some (map (fun s => (s, s)) FAVICON_ICO_SIZES)));;
     print ("✅ Generado (reemplazado si existía): " +:+ FAVICON_ICO))
    (fun e => print ("❌ Error generando '" +:+ FAVICON_ICO +:+ "': " +:+ str e)).

Definition _generate_preview_png (base_img : ref) : M unit :=
  let out_path := PREVIEW_PNG in
  try_except
    (img_rgba ← ImageModeConverter.ensure_rgba base_img;
     ImageIOManager.save_image img_rgba out_path PNG (PIL.SaveOptions (Some 95) None);;
     print ("✅ Generado (reemplazado): " +:+ PREVIEW_PNG))
    (fun e => print ("❌ Error generando '" +:+ PREVIEW_PNG +:+ "': " +:+ str e)).

Definition _generate_preview_jpg (base_img : ref) : M unit :=
  let out_path := PREVIEW_JPG in
  try_except
    (img_rgb ← ImageModeConverter.ensure_rgb base_img;
     ImageIOManager.save_image img_rgb out_path JPEG (PIL.SaveOptions (Some 95) None);;
     print ("✅ Generado (reemplazado): " +:+ PREVIEW_JPG))
    (fun e => print ("❌ Error generando '" +:+ PREVIEW_JPG +:+ "': " +:+ str e)).

Definition _generate_preview_webp (base_img : ref) : M unit :=
  let out_path := PREVIEW_WEBP in
  try_except
    (img_rgba ← ImageModeConverter.ensure_rgba base_img;
     ImageIOManager.save_image img_rgba out_path WEBP (PIL.SaveOptions (Some 95) None);;
     print ("✅ Generado (reemplazado): " +:+ PREVIEW_WEBP))
    (fun e => print ("❌ Error generando '" +:+ PREVIEW_WEBP +:+ "': " +:+ str e)).

Definition _generate_preview_images (base_img : ref) : M unit :=
  _generate_preview_png base_img;;
  _generate_preview_jpg base_img;;
  _generate_preview_webp base_img.

(** The sub-tasks [generate_all_assets] hands to [asyncio.gather]. *)
Definition tasks (img : ref) : list (M unit) :=
  [_generate_png_icons img; _generate_favicon_ico img; _generate_preview_images img].

Definition generate_all_assets : M unit :=
  let logo_path := logo_filename in
  found ← os.path_exists logo_path;
  if negb found
  then print ("❌ No se encontró '" +:+ logo_filename +:+ "' en el directorio.")
  else
    loaded ← try_except
               (img ← ImageIOManager.load_image logo_path;
                ret (Some img))
               (fun e => print ("❌ Error abriendo '" +:+ logo_filename +:+ "': " +:+ str e);;
                         ret None);
    match loaded with
    | Some img => gather (tasks img)
    | None => ret tt
    end.

End Methods.
End LogoAssetsGenerator.

(** [main]; [opcion] is what [input(...).strip()] returned, and the prompt
    of [input] is one more write to the console. *)
Definition main `{Numerics} (opcion : string) : M unit :=
  print "¿Qué acción desea realizar?";;
  print "1) Convertir TODOS los archivos .webp a .ico (mismo nombre base).";;
  print "2) Generar favicon, apple-touch-icon y previews a partir de 'logo.png'.";;
  print "Ingrese 1 o 2 y presione [Enter]: ";;
  if String.eqb opcion "1"
  then WebpToIcoConverter.convert_all_webp_to_ico WEBP_TO_ICO_SIZE
  else if String.eqb opcion "2"
       then LogoAssetsGenerator.generate_all_assets LOGO_FILENAME
       else print "Opción no válida. Saliendo...".

End Replace.

(** A run starts with an empty store and an empty console. *)
Definition boot (dir : gmap string file) (ro : gset string) : world :=
  mkWorld [] dir ro [].

Definition run (script : M unit) (dir : gmap string file) (ro : gset string) : result unit * world :=
  script (boot dir ro).

(** ** A concrete kernel

    Nearest-neighbour sampling, exact codecs and memory for sides up to
    65535: one instance of [Numerics], used to run the scripts on concrete
    directories. *)
Definition nearest {A} (from : Z * Z) (px : list A) (to : Z * Z) : list A :=
  let '(w0, h0) := from in
  let '(w, h) := to in
  flat_map
    (fun y =>
       flat_map
         (fun x => option_list (px !! Z.to_nat ((y * h0 / h) * w0 + x * w0 / w)))
         (seqZ 0 w))
    (seqZ 0 h).

Definition nearest_image (im : Image) (size : Z * Z) : Image :=
  mkImage size
    match im_data im with
    | Bands1 key px => Bands1 key (nearest (im_size im) px size)
    | BandsL key px => BandsL key (nearest (im_size im) px size)
    | BandsI16 key px => BandsI16 key (nearest (im_size im) px size)
    | BandsLA px => BandsLA (nearest (im_size im) px size)
    | BandsP pal trns px => BandsP pal trns (nearest (im_size im) px size)
    | BandsRGB key px => BandsRGB key (nearest (im_size im) px size)
    | BandsRGBA px => BandsRGBA (nearest (im_size im) px size)
    end.

Definition grants_65535 (size : Z * Z) : bool := (fst size <=? 65535) && (snd size <=? 65535).

#[global] Instance nearest_numerics : Numerics.
Proof.
  refine {|
    lanczos_L := nearest;
    lanczos_I16 := nearest;
    lanczos_LA := nearest;
    nearest_P := nearest;
    lanczos_RGB := nearest;
    lanczos_RGBA := nearest;
    thumbnail := nearest_image;
    lossy := fun _ _ im => im;
    grants := grants_65535;
    grants_icon := _
  |}.
  intros w h Hw Hh. unfold grants_65535. simpl.
  apply andb_true_iff. split; apply Z.leb_le; lia.
Defined.

(** ** What the scripts compute, as values

    The image operations above allocate objects; these are the rasters the
    objects hold. *)

(** The raster [ensure_rgba] returns. *)
Definition rgba_of (im : Image) : Image :=
  if decide (im_mode im = RGBA) then im else PIL.as_rgba im.

(** The raster [ensure_rgb] and [convert('RGB')] return. *)
Definition rgb_of (im : Image) : Image :=
  if decide (im_mode im = RGB) then im else PIL.as_rgb im.

(** The raster [resize] returns for a target with positive sides. *)
Definition resized `{Numerics} (im : Image) (size : Z * Z) : Image :=
  if decide (im_size im = size) then im else resample im size.

(** One pixel pasted over opaque white with its own alpha as the mask, the
    alpha band then dropped. *)
Definition composite_white (p : rgba) : rgb :=
  rgb_of_rgba (paste_pixel white p (alpha_of p)).

Definition pixel_count (im : Image) : nat := Z.to_nat (im_width im * im_height im).

(** The raster [flatten_image_to_white] returns. *)
Definition flattened (im : Image) : Image :=
  if bool_decide (im_mode im = RGBA \/ im_mode im = LA)
  then
    mkImage (im_size im)
      (BandsRGB None
         (map rgb_of_rgba
            (PIL.paste_masked (repeat white (pixel_count im))
               (rgba_pixels (im_data im))
               (default [] (PIL.mask_band (im_data im))))))
  else rgb_of im.

(** A raster whose pixel list has one entry per position. *)
Definition well_formed (im : Image) : Prop :=
  length (rgba_pixels (im_data im)) = pixel_count im.

(** ** The declared asset table

    The rows of the asset table of the replace variant's Mode B, in the
    order the run reaches them: the output name, the file a successful
    write leaves there, and the line that reports it. *)
Definition asset : Type := string * file * string.

Definition asset_name (a : asset) : string := fst (fst a).
Definition asset_file (a : asset) : file := snd (fst a).
Definition asset_line (a : asset) : string := snd a.

Definition png_icon `{Numerics} (logo : Image) (target : string * (Z * Z)) : asset :=
  let '(filename, (w, h)) := target in
  (filename,
   Encoded PNG [resized (rgba_of logo) (w, h)] None,
   "✅ Generado (reemplazado si existía): " +:+ filename
     +:+ " (" +:+ pretty w +:+ "x" +:+ pretty h +:+ ")").

Definition png_icon_assets `{Numerics} (logo : Image) : list asset :=
  map (png_icon logo) Replace.LogoAssetsGenerator.icon_targets.

(** The ICO row: the encoder is handed the first resized icon and the four
    requested sizes. *)
Definition favicon_asset `{Numerics} (logo : Image) : asset :=
  (Replace.FAVICON_ICO,
   Encoded ICO
     (PIL.ico_frames (resized (rgba_of logo) (16, 16))
        (map (fun s => (s, s)) Replace.FAVICON_ICO_SIZES))
     None,
   "✅ Generado (reemplazado si existía): " +:+ Replace.FAVICON_ICO).

Definition preview_assets (logo : Image) : list asset :=
  [(Replace.PREVIEW_PNG, Encoded PNG [rgba_of logo] None,
    "✅ Generado (reemplazado): " +:+ Replace.PREVIEW_PNG);
   (Replace.PREVIEW_JPG, Encoded JPEG [rgb_of logo] (Some 95),
    "✅ Generado (reemplazado): " +:+ Replace.PREVIEW_JPG);
   (Replace.PREVIEW_WEBP, Encoded WEBP [rgba_of logo] (Some 95),
    "✅ Generado (reemplazado): " +:+ Replace.PREVIEW_WEBP)].

Definition declared_assets `{Numerics} (logo : Image) : list asset :=
  png_icon_assets logo ++ [favicon_asset logo] ++ preview_assets logo.

Definition denied (path : string) : string :=
  "[Errno 13] Permission denied: '" +:+ path +:+ "'".

(** The line a failed write of an asset prints. *)
Definition failure_line (a : asset) : string :=
  "❌ Error generando '" +:+ asset_name a +:+ "': " +:+ denied (asset_name a).

(** The directory after the rows of a table have been attempted in order:
    a row whose entry may be written is written, any other leaves the
    directory as it was. *)
Definition attempt (ro : gset string) (dir : gmap string file) (a : asset) : gmap string file :=
  if decide (asset_name a ∈ ro) then dir else <[asset_name a := asset_file a]> dir.

Definition written (ro : gset string) (table : list asset) (dir : gmap string file)
  : gmap string file :=
  foldl (attempt ro) dir table.

Definition report_line (ro : gset string) (a : asset) : string :=
  if decide (asset_name a ∈ ro) then failure_line a else asset_line a.

Definition reported (ro : gset string) (table : list asset) : list string :=
  map (report_line ro) table.

(** ** Attempts

    [attempts r logo t table]: started in any world whose object [r] holds
    [logo], the task [t] returns normally, leaves the directory as the
    attempts of [table] leave it, prints the lines of [table], and only
    adds objects to the store. *)
Definition attempts (r : ref) (logo : Image) (t : M unit) (table : list asset) : Prop :=
  forall h fs ro out,
    h !! r = Some logo ->
    exists h',
      t (mkWorld h fs ro out)
      = (Return tt, mkWorld h' (written ro table fs) ro (out ++ reported ro table))
      /\ h `prefix_of` h'.

(** ** Concrete directories

    A one-pixel, fully transparent logo, and the directories of the
    scenarios. *)
Definition tiny_logo : Image := mkImage (1, 1) (BandsRGBA [(10, 20, 30, 0)]).

Definition logo_dir : gmap string file := {[ "logo.png"%string := Encoded PNG [tiny_logo] None ]}.

(** A single fully transparent black pixel. *)
Definition transparent_black : Image := mkImage (1, 1) (BandsRGBA [(0, 0, 0, 0)]).

(** ** The bulk conversion of the replace variant, one file at a time

    What a single conversion does is a function of the source entry and of
    the write permissions: it writes one entry and prints the line that
    reports it, or it leaves the directory unchanged and prints why. *)
Definition ico_path (file_name : string) : string := fst (splitext file_name) +:+ ".ico".

Inductive outcome :=
| Wrote (path : string) (f : file) (line : string)
| Spoiled (path : string) (line : string)
| Unchanged (line : string).

Definition outcome_line (o : outcome) : string :=
  match o with
  | Wrote _ _ line => line
  | Spoiled _ line => line
  | Unchanged line => line
  end.

(** A save whose encoder raised spoils the entry if there was one, and
    leaves none if there was none. *)
Definition apply_outcome (dir : gmap string file) (o : outcome) : gmap string file :=
  match o with
  | Wrote path f _ => <[path := f]> dir
  | Spoiled path _ =>
      match dir !! path with
      | Some _ => <[path := Partial]> dir
      | None => dir
      end
  | Unchanged _ => dir
  end.

(** The entry an outcome is about, and what it makes of it. *)
Definition outcome_path (o : outcome) : option string :=
  match o with
  | Wrote path _ _ | Spoiled path _ => Some path
  | Unchanged _ => None
  end.

Definition outcome_entry (o : outcome) (old : option file) : option file :=
  match o with
  | Wrote _ f _ => Some f
  | Spoiled _ _ => match old with Some _ => Some Partial | None => None end
  | Unchanged _ => old
  end.

(** The raster [resize] returns, or the error it raises. *)
Definition checked_resize `{Numerics} (im : Image) (size : Z * Z) : result Image :=
  if decide (im_size im = size) then Return im
  else if negb (PIL.c_int (fst size))
       then Raise (Exception OverflowError (PIL.c_int_error (fst size)))
  else if negb (PIL.c_int (snd size))
       then Raise (Exception OverflowError (PIL.c_int_error (snd size)))
  else if (fst size <? 1) || (snd size <? 1)
       then Raise (Exception ValueError "height and width must be > 0")
  else if negb (grants size) then Raise (Exception MemoryError "")
  else Return (resample im size).

Definition conversion `{Numerics} (ico_size : Z) (ro : gset string)
    (source : option file) (file_name : string) : outcome :=
  let failure msg := "❌ Error convirtiendo '" +:+ file_name +:+ "' a .ico: " +:+ msg in
  match source with
  | None => Unchanged (failure ("No se encontró el archivo: " +:+ file_name))
  | Some f =>
      match PIL.decode f with
      | None => Unchanged (failure ("cannot identify image file '" +:+ file_name +:+ "'"))
      | Some im =>
          match checked_resize (rgba_of im) (ico_size, ico_size) with
          | Raise e => Unchanged (failure (str e))
          | Return icon =>
              if decide (ico_path file_name ∈ ro)
              then Unchanged (failure (denied (ico_path file_name)))
              else
                match PIL.encode ICO icon
                        (PIL.SaveOptions None (Some [(ico_size, ico_size)])) with
                | Return f' =>
                    Wrote (ico_path file_name) f'
                      ("✅ Generado (reemplazado si existía): "
                       +:+ fst (splitext file_name) +:+ ".ico")
                | Raise e => Spoiled (ico_path file_name) (failure (str e))
                end
          end
      end
  end.

(** The conversions of a list of names, each reading its source in [dir]. *)
Definition conversions `{Numerics} (ico_size : Z) (ro : gset string)
    (dir : gmap string file) (names : list string) : list outcome :=
  map (fun name => conversion ico_size ro (dir !! name) name) names.

Definition converted `{Numerics} (ico_size : Z) (ro : gset string)
    (dir : gmap string file) (names : list string) : gmap string file :=
  foldl apply_outcome dir (conversions ico_size ro dir names).

(** The console after the bulk conversion of the listed .webp files. *)
Definition bulk_report `{Numerics} (ico_size : Z) (ro : gset string)
    (dir : gmap string file) (webp_files : list string) : list string :=
  match webp_files with
  | [] => ["No se encontraron archivos .webp en el directorio."%string]
  | _ => map outcome_line (conversions ico_size ro dir webp_files)
  end.

(** Two one-pixel rasters, a directory where two sources share a destination,
    and one where they do not. *)
Definition red_pixel : Image := mkImage (1, 1) (BandsRGB None [(255, 0, 0)]).
Definition blue_pixel : Image := mkImage (1, 1) (BandsRGB None [(0, 0, 255)]).

Definition clash_dir : gmap string file :=
  {[ "a.webp"%string := Encoded WEBP [red_pixel] None;
     "a.WEBP"%string := Encoded WEBP [blue_pixel] None ]}.

Definition pair_dir : gmap string file :=
  {[ "a.webp"%string := Encoded WEBP [red_pixel] None;
     "b.webp"%string := Encoded WEBP [blue_pixel] None ]}.

Definition first_pixel (entry : option file) : option rgba :=
  match entry with
  | Some (Encoded _ (im :: _) _) => head (rgba_pixels (im_data im))
  | _ => None
  end.


(** ** The bulk conversion of the conservative variant, one file at a time

    Here a conversion also reads the destination: an entry that exists is
    skipped.  A save whose encoder raises removes the file it created, so
    it leaves the directory as it was. *)
Definition skipping_conversion `{Numerics} (ro : gset string) (fs : gmap string file)
    (file_name : string) : outcome :=
  let base_name := fst (splitext file_name) in
  let failed msg :=
    Unchanged ("❌ Error convirtiendo '" +:+ file_name +:+ "' a .ico: " +:+ msg) in
  match fs !! ico_path file_name with
  | Some _ =>
      Unchanged ("(SKIP) '" +:+ base_name +:+ ".ico' ya existe. Omitiendo conversión para '"
                 +:+ file_name +:+ "'.")
  | None =>
      match fs !! file_name with
      | None => failed ("[Errno 2] No such file or directory: '" +:+ file_name +:+ "'")
      | Some f =>
          match PIL.decode f with
          | None => failed ("cannot identify image file '" +:+ file_name +:+ "'")
          | Some im =>
              if decide (ico_path file_name ∈ ro)
              then failed (denied (ico_path file_name))
              else
                match PIL.encode ICO (resized (flattened im) (64, 64))
                        (PIL.SaveOptions None (Some [(64, 64)])) with
                | Return f' =>
                    Wrote (ico_path file_name) f'
                      ("✅ Generado: " +:+ base_name +:+ ".ico (fuente: " +:+ file_name +:+ ")")
                | Raise e => failed (str e)
                end
          end
      end
  end.

(** The directory and the console after the listed files have been
    converted in order, each seeing what the ones before it wrote. *)
Definition skip_step `{Numerics} (ro : gset string) (st : gmap string file * list string)
    (file_name : string) : gmap string file * list string :=
  let o := skipping_conversion ro (fst st) file_name in
  (apply_outcome (fst st) o, snd st ++ [outcome_line o]).

Definition skip_converted `{Numerics} (ro : gset string) (st : gmap string file * list string)
    (names : list string) : gmap string file * list string :=
  foldl (skip_step ro) st names.

(** The directory of the skip scenario: two sources, and the icon of the
    first already there. *)
Definition skip_scenario (fa fb old : file) : gmap string file :=
  {[ "a.webp"%string := fa; "b.webp"%string := fb; "a.ico"%string := old ]}.

(** The scenario in a directory that also holds the script. *)
Definition scenario_dir : gmap string file :=
  <["ico4x4.py"%string := Junk "#!/usr/bin/env python3"]>
    (skip_scenario (Encoded WEBP [red_pixel] None) (Encoded WEBP [blue_pixel] None)
       (Junk "old")).


(** A directory where the logo sits beside a stale 16x16 icon. *)
Definition stale_icon_dir : gmap string file :=
  {[ "logo.png"%string := Encoded PNG [tiny_logo] None;
     "favicon-16x16.png"%string := Junk "old" ]}.

(** ** The conservative variant's Mode B, entry by entry *)

(** What a guarded save leaves: an entry that exists or may not be written
    is left alone, a missing one is created, unless the encoder refuses the
    image ([ok] is false). *)
Definition fill (ro : gset string) (ok : bool) (fs : gmap string file) (name : string)
    (f : file) : gmap string file :=
  match fs !! name with
  | Some _ => fs
  | None => if decide (name ∈ ro) then fs else if ok then <[name := f]> fs else fs
  end.

(** The files [generate_icons_from_logo] of the conservative variant can
    create from a logo. *)
Definition conservative_outputs `{Numerics} (logo : Image) : list (string * file) :=
  map (fun target : string * (Z * Z) =>
         (fst target, Encoded PNG [resized (flattened logo) (snd target)] None))
      Conservative.targets
  ++ [("favicon.ico"%string, Encoded ICO [resized (flattened logo) (16, 16)] None)].

(** ** Names *)

(** Does the character occur in the string; is the string made of extension
    separators only. *)
Fixpoint occurs (c : ascii) (s : string) : bool :=
  match s with
  | EmptyString => false
  | String d s' => Ascii.eqb d c || occurs c s'
  end.

Fixpoint all_dots (s : string) : bool :=
  match s with
  | EmptyString => true
  | String d s' => Ascii.eqb d "." && all_dots s'
  end.

(** * Properties *)

(** ** Stepping through the monad *)

Lemma bind_return {A B} (m : M A) (k : A -> M B) w a w' :
  m w = (Return a, w') -> (m ≫= k) w = k a w'.
Proof. intros E. unfold mbind, M_bind, bind. by rewrite E. Qed.

Lemma bind_raise {A B} (m : M A) (k : A -> M B) w e w' :
  m w = (Raise e, w') -> (m ≫= k) w = (Raise e, w').
Proof. intros E. unfold mbind, M_bind, bind. by rewrite E. Qed.

Ltac step E := rewrite (bind_return _ _ _ _ _ E).

Lemma deref_eq h fs ro out r im :
  h !! r = Some im -> deref r (mkWorld h fs ro out) = (Return im, mkWorld h fs ro out).
Proof. intros E. unfold deref. simpl. by rewrite E. Qed.

Lemma lookup_snoc (h : list Image) (im : Image) : (h ++ [im]) !! length h = Some im.
Proof. by rewrite list_lookup_middle. Qed.

(** ** Tables of attempts *)

Lemma attempt_lookup_ne ro fs a k :
  k <> asset_name a -> attempt ro fs a !! k = fs !! k.
Proof. intros Hk. unfold attempt. case_decide; [done|]. by rewrite lookup_insert_ne. Qed.

Lemma attempt_lookup_eq ro fs a :
  attempt ro fs a !! asset_name a
  = if decide (asset_name a ∈ ro) then fs !! asset_name a else Some (asset_file a).
Proof. unfold attempt. case_decide; [done|]. by rewrite lookup_insert_eq. Qed.

Lemma written_lookup_other ro table fs k :
  k ∉ map asset_name table -> written ro table fs !! k = fs !! k.
Proof.
  unfold written. revert fs. induction table as [|a table IH]; intros fs Hk; simpl; [done|].
  simpl in Hk. apply not_elem_of_cons in Hk as [Hk1 Hk2].
  rewrite IH by done. by apply attempt_lookup_ne.
Qed.

Lemma written_lookup ro table fs a :
  NoDup (map asset_name table) -> a ∈ table ->
  written ro table fs !! asset_name a
  = if decide (asset_name a ∈ ro) then fs !! asset_name a else Some (asset_file a).
Proof.
  unfold written. revert fs. induction table as [|b table IH]; intros fs Hnd Ha; simpl.
  - by apply elem_of_nil in Ha.
  - simpl in Hnd. apply NoDup_cons in Hnd as [Hb Hnd].
    apply elem_of_cons in Ha as [->|Ha].
    + fold (written ro table (attempt ro fs b)).
      rewrite written_lookup_other by done. apply attempt_lookup_eq.
    + rewrite IH by done.
      assert (asset_name a <> asset_name b) as Hne.
      { intros Heq. apply Hb. rewrite <- Heq. by apply list_elem_of_In, in_map, list_elem_of_In. }
      case_decide; [|done]. by apply attempt_lookup_ne.
Qed.

Lemma attempt_comm ro fs a b :
  asset_name a <> asset_name b ->
  attempt ro (attempt ro fs a) b = attempt ro (attempt ro fs b) a.
Proof.
  intros Hne. unfold attempt. repeat case_decide; try done.
  by apply insert_insert_ne.
Qed.

Lemma written_perm ro t1 t2 :
  t1 ≡ₚ t2 -> NoDup (map asset_name t1) ->
  forall fs, written ro t1 fs = written ro t2 fs.
Proof.
  unfold written. induction 1 as [|a l1 l2 Hp IH|a b l|l1 l2 l3 H12 IH12 H23 IH23];
    intros Hnd fs; simpl.
  - done.
  - simpl in Hnd. apply NoDup_cons in Hnd as [_ Hnd]. by apply IH.
  - simpl in Hnd. apply NoDup_cons in Hnd as [Hb _].
    rewrite (attempt_comm ro fs b a); [done|].
    intros Heq. apply Hb. rewrite Heq. by left.
  - rewrite IH12 by done. apply IH23.
    apply NoDup_ListNoDup. eapply Permutation_NoDup; [|by apply NoDup_ListNoDup].
    by apply Permutation_map.
Qed.

Ltac finish_attempt :=
  unfold attempt, report_line, failure_line, asset_name, asset_file, asset_line; simpl;
  case_decide; reflexivity.

(** ** Rasters and encoders *)

Lemma rgb_of_mode im : im_mode (rgb_of im) = RGB.
Proof. unfold rgb_of. by case_decide. Qed.

Lemma rgba_of_mode im : im_mode (rgba_of im) = RGBA.
Proof. unfold rgba_of. by case_decide. Qed.

Lemma resized_size `{Numerics} im s : im_size (resized im s) = s.
Proof. unfold resized. by case_decide. Qed.

Lemma resample_mode `{Numerics} im s : im_mode (resample im s) = im_mode im.
Proof. unfold resample, im_mode. simpl. by destruct (im_data im). Qed.

Lemma resized_mode `{Numerics} im s : im_mode (resized im s) = im_mode im.
Proof. unfold resized. case_decide; [done|]. apply resample_mode. Qed.

Lemma ico_frames_first `{Numerics} im :
  im_size im = (16, 16) ->
  PIL.ico_frames im (map (fun s => (s, s)) Replace.FAVICON_ICO_SIZES) = [im].
Proof.
  intros Hs. unfold PIL.ico_frames.
  change (PIL.sorted_set _) with [(16, 16); (32, 32); (48, 48); (64, 64)].
  unfold PIL.ico_skips, im_width, im_height. simpl. rewrite Hs. simpl.
  done.
Qed.

Lemma ico_frames_single `{Numerics} im s :
  im_size im = (s, s) -> s <= 256 ->
  PIL.ico_frames im [(s, s)] = [im].
Proof.
  intros Hs Hle. unfold PIL.ico_frames. simpl.
  unfold PIL.ico_skips, im_width, im_height. rewrite Hs. simpl.
  rewrite Z.ltb_irrefl. simpl.
  assert ((256 <? s) = false) as -> by (apply Z.ltb_ge; lia). simpl.
  by rewrite decide_True by done.
Qed.

(** The PNG encoder fails on one kind of raster only: an RGB one with a
    sample value for a key. *)
Lemma png_writes_mode im : im_mode im <> RGB -> PIL.png_writes im = true.
Proof. unfold im_mode, PIL.png_writes. by destruct (im_data im) as [| | | | |[[]|]|]. Qed.

Lemma png_writes_resized `{Numerics} im s :
  PIL.png_writes (resized im s) = PIL.png_writes im.
Proof.
  unfold resized. case_decide; [done|].
  unfold PIL.png_writes, resample. simpl. by destruct (im_data im).
Qed.

Lemma encode_PNG_ok `{Numerics} im opts :
  PIL.png_writes im = true -> PIL.encode PNG im opts = Return (Encoded PNG [im] None).
Proof. intros Hk. unfold PIL.encode. by rewrite Hk. Qed.

Lemma encode_PNG_refused `{Numerics} im opts :
  PIL.png_writes im = false -> PIL.encode PNG im opts = Raise PIL.png_error.
Proof. intros Hk. unfold PIL.encode. by rewrite Hk. Qed.

Lemma encode_ICO_one `{Numerics} im requested :
  PIL.ico_frames im requested = [im] ->
  PIL.encode ICO im (PIL.SaveOptions None (Some requested))
  = if PIL.png_writes im then Return (Encoded ICO [im] None) else Raise PIL.png_error.
Proof. intros Hf. unfold PIL.encode. simpl. rewrite Hf. simpl. by destruct (PIL.png_writes im). Qed.

Lemma encode_ICO_none `{Numerics} im requested :
  PIL.ico_frames im requested = [] ->
  PIL.encode ICO im (PIL.SaveOptions None (Some requested))
  = Raise (Exception ValueError "All sizes too large for image").
Proof. intros Hf. unfold PIL.encode. simpl. by rewrite Hf. Qed.

Section Specs.
Context `{Numerics}.
Implicit Types (h : list Image) (fs : gmap string file) (ro : gset string) (out : list string).

Lemma ensure_rgba_spec h fs ro out r im :
  h !! r = Some im ->
  exists r' h',
    Replace.ImageModeConverter.ensure_rgba r (mkWorld h fs ro out)
      = (Return r', mkWorld h' fs ro out)
    /\ h `prefix_of` h' /\ h' !! r' = Some (rgba_of im).
Proof.
  intros E. unfold Replace.ImageModeConverter.ensure_rgba, rgba_of.
  step (deref_eq _ fs ro out _ _ E).
  destruct (decide (im_mode im = RGBA)) as [Hm|Hm].
  - rewrite bool_decide_eq_true_2 by done. simpl.
    exists r, h. done.
  - rewrite bool_decide_eq_false_2 by done. simpl.
    unfold PIL.convert_RGBA.
    step (deref_eq _ fs ro out _ _ E).
    rewrite decide_False by done.
    exists (length h), (h ++ [PIL.as_rgba im]).
    split_and!; [done | by apply prefix_app_r | apply lookup_snoc].
Qed.

Lemma ensure_rgb_spec h fs ro out r im :
  h !! r = Some im ->
  exists r' h',
    Replace.ImageModeConverter.ensure_rgb r (mkWorld h fs ro out)
      = (Return r', mkWorld h' fs ro out)
    /\ h `prefix_of` h' /\ h' !! r' = Some (rgb_of im).
Proof.
  intros E. unfold Replace.ImageModeConverter.ensure_rgb, rgb_of.
  step (deref_eq _ fs ro out _ _ E).
  destruct (decide (im_mode im = RGB)) as [Hm|Hm].
  - rewrite bool_decide_eq_true_2 by done. simpl.
    exists r, h. done.
  - rewrite bool_decide_eq_false_2 by done. simpl.
    unfold PIL.convert_RGB.
    step (deref_eq _ fs ro out _ _ E).
    rewrite decide_False by done.
    exists (length h), (h ++ [PIL.as_rgb im]).
    split_and!; [done | by apply prefix_app_r | apply lookup_snoc].
Qed.

Lemma c_int_in x : - 2 ^ 31 <= x < 2 ^ 31 -> PIL.c_int x = true.
Proof.
  intros Hx. unfold PIL.c_int. apply andb_true_iff.
  split; [apply Z.leb_le | apply Z.ltb_lt]; lia.
Qed.

Lemma c_int_out x : x < - 2 ^ 31 \/ 2 ^ 31 <= x -> PIL.c_int x = false.
Proof.
  intros Hx. unfold PIL.c_int. apply andb_false_iff.
  destruct Hx; [left; apply Z.leb_gt | right; apply Z.ltb_ge]; lia.
Qed.

(** [resize] to a target that fits a C int, has no empty side and can be
    allocated. *)
Lemma resize_granted_spec h fs ro out r im size :
  h !! r = Some im ->
  0 < fst size < 2 ^ 31 -> 0 < snd size < 2 ^ 31 -> grants size = true ->
  Replace.ImageResizer.resize r size (mkWorld h fs ro out)
  = (Return (length h), mkWorld (h ++ [resized im size]) fs ro out).
Proof.
  intros E Hw Hh Hg. unfold Replace.ImageResizer.resize, PIL.resize, resized.
  step (deref_eq _ fs ro out _ _ E).
  destruct (decide (im_size im = size)); [done|].
  rewrite !c_int_in by lia. simpl.
  assert ((fst size <? 1) || (snd size <? 1) = false) as ->.
  { apply orb_false_iff. split; apply Z.ltb_ge; lia. }
  by rewrite Hg.
Qed.

(** [resize] to the size of an icon. *)
Lemma resize_ok_spec h fs ro out r im size :
  h !! r = Some im -> 1 <= fst size <= 256 -> 1 <= snd size <= 256 ->
  exists r' h',
    Replace.ImageResizer.resize r size (mkWorld h fs ro out)
      = (Return r', mkWorld h' fs ro out)
    /\ h `prefix_of` h' /\ h' !! r' = Some (resized im size).
Proof.
  intros E Hw Hh. exists (length h), (h ++ [resized im size]).
  split_and!; [| by apply prefix_app_r | apply lookup_snoc].
  apply resize_granted_spec; [done | lia | lia |].
  destruct size as [w hh]. by apply grants_icon.
Qed.

Lemma save_image_eq h fs ro out r im name fmt opts :
  h !! r = Some im -> name <> "" ->
  Replace.ImageIOManager.save_image r name fmt opts (mkWorld h fs ro out)
    = PIL.write im name fmt opts (mkWorld h fs ro out).
Proof.
  intros E Hn. unfold Replace.ImageIOManager.save_image.
  destruct (String.eqb_spec name "") as [->|_]; [done|].
  unfold PIL.save. by step (deref_eq _ fs ro out _ _ E).
Qed.

Lemma write_ok h fs ro out im name fmt opts f :
  PIL.encode fmt im opts = Return f -> name ∉ ro ->
  PIL.write im name fmt opts (mkWorld h fs ro out)
    = (Return tt, mkWorld h (<[name := f]> fs) ro out).
Proof.
  intros E Hn. unfold PIL.write. simpl. rewrite decide_False by done. by rewrite E.
Qed.

Lemma write_denied h fs ro out im name fmt opts :
  name ∈ ro ->
  PIL.write im name fmt opts (mkWorld h fs ro out)
    = (Raise (Exception PermissionError (denied name)), mkWorld h fs ro out).
Proof. intros Hn. unfold PIL.write. simpl. by rewrite decide_True by done. Qed.

(** A save whose encoder raises: the file it created is removed, the one
    that existed is spoiled. *)
Lemma write_refused h fs ro out im name fmt opts e :
  PIL.encode fmt im opts = Raise e -> name ∉ ro ->
  PIL.write im name fmt opts (mkWorld h fs ro out)
    = (Raise e,
       mkWorld h (match fs !! name with Some _ => <[name := Partial]> fs | None => fs end)
         ro out).
Proof.
  intros E Hn. unfold PIL.write. simpl. rewrite decide_False by done. rewrite E.
  destruct (fs !! name) eqn:Hf.
  - by rewrite bool_decide_eq_false_2 by done.
  - rewrite bool_decide_eq_true_2 by done. unfold remove_file. simpl.
    by rewrite delete_id.
Qed.

(** Save and report, the tail of every attempt. *)
Lemma save_report h fs ro out r im name fmt opts f ok :
  h !! r = Some im -> name <> "" -> PIL.encode fmt im opts = Return f ->
  (Replace.ImageIOManager.save_image r name fmt opts;; print ok) (mkWorld h fs ro out)
  = if decide (name ∈ ro)
    then (Raise (Exception PermissionError (denied name)), mkWorld h fs ro out)
    else (Return tt, mkWorld h (<[name := f]> fs) ro (out ++ [ok])).
Proof.
  intros Hr Hn He. destruct (decide (name ∈ ro)) as [Hi|Hi].
  - by rewrite (bind_raise _ _ _ _ _
        (eq_trans (save_image_eq _ _ _ _ _ _ _ _ _ Hr Hn) (write_denied _ _ _ _ _ _ _ _ Hi))).
  - by rewrite (bind_return _ _ _ _ _
        (eq_trans (save_image_eq _ _ _ _ _ _ _ _ _ Hr Hn) (write_ok _ _ _ _ _ _ _ _ _ He Hi))).
Qed.

(** *** Composition of attempts *)

Lemma attempts_one r logo t a :
  (forall h fs ro out, h !! r = Some logo ->
     exists h', t (mkWorld h fs ro out)
                = (Return tt, mkWorld h' (attempt ro fs a) ro (out ++ [report_line ro a]))
                /\ h `prefix_of` h') ->
  attempts r logo t [a].
Proof. intros Ht h fs ro out E. exact (Ht h fs ro out E). Qed.

Lemma attempts_nil r logo : attempts r logo (ret tt) [].
Proof.
  intros h fs ro out _. exists h. unfold ret, written, reported. simpl.
  by rewrite app_nil_r.
Qed.

Lemma attempts_seq r logo t1 t2 table1 table2 :
  attempts r logo t1 table1 -> attempts r logo t2 table2 ->
  attempts r logo (t1;; t2) (table1 ++ table2).
Proof.
  intros H1 H2 h fs ro out E.
  destruct (H1 h fs ro out E) as (h1 & E1 & P1).
  destruct (H2 h1 (written ro table1 fs) ro (out ++ reported ro table1)
              (prefix_lookup_Some _ _ _ _ E P1)) as (h2 & E2 & P2).
  exists h2. split; [|by etrans].
  step E1. rewrite E2. unfold written, reported.
  by rewrite foldl_app, map_app, app_assoc.
Qed.

Lemma attempts_for_each {A} r logo (body : A -> M unit) (row : A -> asset) (l : list A) :
  (forall x, x ∈ l -> attempts r logo (body x) [row x]) ->
  attempts r logo (for_each l body) (map row l).
Proof.
  induction l as [|x l IH]; intros Hb; simpl.
  - apply attempts_nil.
  - apply (attempts_seq r logo (body x) (for_each l body) [row x] (map row l)).
    + apply Hb. by left.
    + apply IH. intros y Hy. apply Hb. by right.
Qed.

(** *** The seven attempts of Mode B *)

Lemma png_icon_attempt r logo target :
  target ∈ Replace.LogoAssetsGenerator.icon_targets ->
  attempts r logo (Replace.LogoAssetsGenerator.generate_png_icon r target)
    [png_icon logo target].
Proof.
  intros Ht. apply attempts_one. intros h fs ro out E.
  assert (exists name w0 hh, target = (name, (w0, hh)) /\ name <> ""
                             /\ 1 <= w0 <= 256 /\ 1 <= hh <= 256)
    as (name & w0 & hh & -> & Hn & Hw & Hh).
  { unfold Replace.LogoAssetsGenerator.icon_targets in Ht.
    repeat (apply elem_of_cons in Ht as [->|Ht]); [| | |by apply elem_of_nil in Ht];
      eexists _, _, _; (split; [reflexivity|]); split_and!; done. }
  destruct (ensure_rgba_spec h fs ro out r logo E) as (r1 & h1 & E1 & P1 & L1).
  destruct (resize_ok_spec h1 fs ro out r1 _ (w0, hh) L1 Hw Hh) as (r2 & h2 & E2 & P2 & L2).
  exists h2. split; [|by etrans].
  unfold Replace.LogoAssetsGenerator.generate_png_icon, png_icon, try_except.
  step E1. step E2.
  erewrite save_report; [| exact L2 | exact Hn | apply encode_PNG_ok, png_writes_mode ].
  - finish_attempt.
  - by rewrite resized_mode, rgba_of_mode.
Qed.

Lemma png_icons_attempts r logo :
  attempts r logo (Replace.LogoAssetsGenerator._generate_png_icons r) (png_icon_assets logo).
Proof.
  apply attempts_for_each. intros target Ht. by apply png_icon_attempt.
Qed.

Lemma resize_each_spec h fs ro out r im sides :
  h !! r = Some im -> Forall (fun s => 1 <= s <= 256) sides ->
  exists rs h',
    Replace.LogoAssetsGenerator.resize_each r sides (mkWorld h fs ro out)
      = (Return rs, mkWorld h' fs ro out)
    /\ h `prefix_of` h'
    /\ Forall2 (fun r' s => h' !! r' = Some (resized im (s, s))) rs sides.
Proof.
  intros E Hs. revert h E. induction Hs as [|s sides Hs _ IH]; intros h E; simpl.
  - exists [], h. done.
  - destruct (resize_ok_spec h fs ro out r im (s, s) E Hs Hs) as (r1 & h1 & E1 & P1 & L1).
    destruct (IH h1 (prefix_lookup_Some _ _ _ _ E P1)) as (rs & h2 & E2 & P2 & L2).
    exists (r1 :: rs), h2. step E1. step E2. split_and!; [done | by etrans |].
    constructor; [|done]. by eapply prefix_lookup_Some.
Qed.

Lemma favicon_attempt r logo :
  attempts r logo (Replace.LogoAssetsGenerator._generate_favicon_ico r) [favicon_asset logo].
Proof.
  apply attempts_one. intros h fs ro out E.
  destruct (ensure_rgba_spec h fs ro out r logo E) as (r1 & h1 & E1 & P1 & L1).
  destruct (resize_each_spec h1 fs ro out r1 _ Replace.FAVICON_ICO_SIZES L1)
    as (rs & h2 & E2 & P2 & L2).
  { unfold Replace.FAVICON_ICO_SIZES. repeat constructor; lia. }
  unfold Replace.FAVICON_ICO_SIZES in L2.
  destruct rs as [|r16 rs]; [by inversion L2|].
  apply Forall2_cons in L2 as [L16 _].
  exists h2. split; [|by etrans].
  unfold Replace.LogoAssetsGenerator._generate_favicon_ico, favicon_asset, try_except.
  step E1. step E2. unfold Replace.LogoAssetsGenerator.first at 1.
  change ((ret r16 ≫= ?k) ?w) with (k r16 w). cbv beta.
  rewrite ico_frames_first by apply resized_size.
  erewrite save_report; [| exact L16 | done | ].
  - finish_attempt.
  - rewrite encode_ICO_one by (apply ico_frames_first, resized_size).
    rewrite png_writes_mode; [done|]. by rewrite resized_mode, rgba_of_mode.
Qed.

Lemma preview_png_attempt r logo :
  attempts r logo (Replace.LogoAssetsGenerator._generate_preview_png r)
    [(Replace.PREVIEW_PNG, Encoded PNG [rgba_of logo] None,
      "✅ Generado (reemplazado): " +:+ Replace.PREVIEW_PNG)].
Proof.
  apply attempts_one. intros h fs ro out E.
  destruct (ensure_rgba_spec h fs ro out r logo E) as (r1 & h1 & E1 & P1 & L1).
  exists h1. split; [|done].
  unfold Replace.LogoAssetsGenerator._generate_preview_png, try_except.
  step E1.
  erewrite save_report; [| exact L1 | done | apply encode_PNG_ok, png_writes_mode ].
  - finish_attempt.
  - by rewrite rgba_of_mode.
Qed.

Lemma preview_jpg_attempt r logo :
  attempts r logo (Replace.LogoAssetsGenerator._generate_preview_jpg r)
    [(Replace.PREVIEW_JPG, Encoded JPEG [rgb_of logo] (Some 95),
      "✅ Generado (reemplazado): " +:+ Replace.PREVIEW_JPG)].
Proof.
  apply attempts_one. intros h fs ro out E.
  destruct (ensure_rgb_spec h fs ro out r logo E) as (r1 & h1 & E1 & P1 & L1).
  exists h1. split; [|done].
  unfold Replace.LogoAssetsGenerator._generate_preview_jpg, try_except.
  step E1.
  erewrite save_report; [| exact L1 | done | unfold PIL.encode; by rewrite rgb_of_mode].
  finish_attempt.
Qed.

Lemma preview_webp_attempt r logo :
  attempts r logo (Replace.LogoAssetsGenerator._generate_preview_webp r)
    [(Replace.PREVIEW_WEBP, Encoded WEBP [rgba_of logo] (Some 95),
      "✅ Generado (reemplazado): " +:+ Replace.PREVIEW_WEBP)].
Proof.
  apply attempts_one. intros h fs ro out E.
  destruct (ensure_rgba_spec h fs ro out r logo E) as (r1 & h1 & E1 & P1 & L1).
  exists h1. split; [|done].
  unfold Replace.LogoAssetsGenerator._generate_preview_webp, try_except.
  step E1.
  erewrite save_report; [| exact L1 | done | unfold PIL.encode; by rewrite rgba_of_mode].
  finish_attempt.
Qed.

Lemma preview_images_attempts r logo :
  attempts r logo (Replace.LogoAssetsGenerator._generate_preview_images r)
    (preview_assets logo).
Proof.
  unfold Replace.LogoAssetsGenerator._generate_preview_images, preview_assets.
  apply (attempts_seq _ _ _ _ [_] [_; _]); [apply preview_png_attempt|].
  apply (attempts_seq _ _ _ _ [_] [_]); [apply preview_jpg_attempt|].
  apply preview_webp_attempt.
Qed.

Lemma gather_attempts r logo (ps : list (M unit * list asset)) :
  Forall (fun p => attempts r logo (fst p) (snd p)) ps ->
  attempts r logo (gather (map fst ps)) (concat (map snd ps)).
Proof.
  unfold gather. induction 1 as [|[t table] ps Ht _ IH]; simpl.
  - apply attempts_nil.
  - by apply attempts_seq.
Qed.

(** The three sub-tasks of Mode B with the rows each attempts. *)
Lemma tasks_attempts r logo :
  Forall (fun p => attempts r logo (fst p) (snd p))
    [(Replace.LogoAssetsGenerator._generate_png_icons r, png_icon_assets logo);
     (Replace.LogoAssetsGenerator._generate_favicon_ico r, [favicon_asset logo]);
     (Replace.LogoAssetsGenerator._generate_preview_images r, preview_assets logo)].
Proof.
  repeat constructor; simpl.
  - apply png_icons_attempts.
  - apply favicon_attempt.
  - apply preview_images_attempts.
Qed.

Lemma gather_tasks_attempts r logo :
  attempts r logo (gather (Replace.LogoAssetsGenerator.tasks r)) (declared_assets logo).
Proof. exact (gather_attempts r logo _ (tasks_attempts r logo)). Qed.

(** Mode B of the replace variant, run on a directory whose logo decodes:
    the run returns normally and is the attempt of the declared rows. *)
Lemma generate_all_assets_run logo_filename dir ro f logo :
  logo_filename <> "" ->
  dir !! logo_filename = Some f -> PIL.decode f = Some logo ->
  exists h,
    run (Replace.LogoAssetsGenerator.generate_all_assets logo_filename) dir ro
    = (Return tt, mkWorld h (written ro (declared_assets logo) dir) ro
                    (reported ro (declared_assets logo))).
Proof.
  intros Hn Hf Hd.
  destruct (gather_tasks_attempts 0%nat logo [logo] dir ro [] eq_refl) as (h & E & _).
  exists h. unfold run, boot, Replace.LogoAssetsGenerator.generate_all_assets.
  assert (forall h0 out, os.path_exists logo_filename (mkWorld h0 dir ro out)
                    = (Return true, mkWorld h0 dir ro out)) as Hex.
  { intros. unfold os.path_exists. simpl. by rewrite Hf, bool_decide_eq_true_2. }
  step (Hex [] []). change (negb true) with false. cbv iota.
  assert (Replace.ImageIOManager.load_image logo_filename (mkWorld [] dir ro [])
          = (Return 0%nat, mkWorld [logo] dir ro [])) as El.
  { unfold Replace.ImageIOManager.load_image. step (Hex [] []).
    destruct (String.eqb_spec logo_filename "") as [?|_]; [done|]. simpl.
    unfold PIL.open. simpl. by rewrite Hf, Hd. }
  match goal with
  | |- (try_except ?body ?handler ≫= ?k) ?w = _ =>
      assert (try_except body handler w = (Return (Some 0%nat), mkWorld [logo] dir ro [])) as Et
  end.
  { unfold try_except. by step El. }
  step Et. exact E.
Qed.

End Specs.

(** ** The declared rows *)

Lemma declared_names `{Numerics} logo :
  map asset_name (declared_assets logo)
  = ["favicon-16x16.png"; "favicon-32x32.png"; "apple-touch-icon.png";
     "favicon.ico"; "preview.png"; "preview.jpg"; "preview.webp"]%string.
Proof. reflexivity. Qed.

Lemma declared_names_NoDup `{Numerics} logo :
  NoDup (map asset_name (declared_assets logo)).
Proof. rewrite declared_names. apply (bool_decide_unpack _). by vm_compute. Qed.


(** Mode B of the replace variant on a directory whose logo decodes. *)
Lemma mode_b_outcome `{Numerics} dir ro f logo :
  dir !! Replace.LOGO_FILENAME = Some f -> PIL.decode f = Some logo ->
  exists w',
    run (Replace.LogoAssetsGenerator.generate_all_assets Replace.LOGO_FILENAME) dir ro
    = (Return tt, w')
    /\ files w' = written ro (declared_assets logo) dir
    /\ stdout w' = reported ro (declared_assets logo).
Proof.
  intros Hf Hd.
  destruct (generate_all_assets_run Replace.LOGO_FILENAME dir ro f logo) as (h & E);
    [done..|].
  eexists. split; [exact E|]. done.
Qed.



(** C1 (the code departs from the claim): on any directory whose logo
    decodes and whose [favicon.ico] may be written, the run leaves an ICO
    file with a single frame, the 16x16 one.  The encoder is handed the
    first of the four resized icons, and it skips every requested size
    larger than the image it is handed. *)
Theorem favicon_ico_has_one_frame `{Numerics} dir ro f logo :
  dir !! Replace.LOGO_FILENAME = Some f -> PIL.decode f = Some logo ->
  Replace.FAVICON_ICO ∉ ro ->
  exists w',
    run (Replace.LogoAssetsGenerator.generate_all_assets Replace.LOGO_FILENAME) dir ro
    = (Return tt, w')
    /\ files w' !! Replace.FAVICON_ICO
       = Some (Encoded ICO [resized (rgba_of logo) (16, 16)] None)
    /\ im_size (resized (rgba_of logo) (16, 16)) = (16, 16).
Proof.
  intros Hf Hd Hro.
  destruct (mode_b_outcome dir ro f logo Hf Hd) as (w' & E & Hfiles & _).
  exists w'. split_and!; [done | | apply resized_size].
  rewrite Hfiles.
  rewrite (written_lookup ro _ dir (favicon_asset logo) (declared_names_NoDup logo)).
  - change (asset_name (favicon_asset logo)) with Replace.FAVICON_ICO.
    rewrite decide_False by done. unfold favicon_asset, asset_file. simpl.
    by rewrite ico_frames_first by apply resized_size.
  - unfold declared_assets. set_solver.
Qed.

(** C6: when the logo is missing, Mode B prints the not-found line, writes
    nothing, allocates nothing and returns normally, in both variants. *)
Theorem missing_logo_is_reported `{Numerics} dir ro :
  dir !! Replace.LOGO_FILENAME = None ->
  run (Replace.LogoAssetsGenerator.generate_all_assets Replace.LOGO_FILENAME) dir ro
  = (Return tt, mkWorld [] dir ro ["❌ No se encontró 'logo.png' en el directorio."])
  /\ run Conservative.generate_icons_from_logo dir ro
     = (Return tt, mkWorld [] dir ro ["❌ No se encontró 'logo.png' en el directorio."]).
Proof.
  intros Hf.
  assert (os.path_exists "logo.png" (boot dir ro) = (Return false, boot dir ro)) as Hex.
  { unfold os.path_exists, boot. simpl. rewrite bool_decide_eq_false_2; [done|].
    change "logo.png"%string with Replace.LOGO_FILENAME. rewrite Hf.
    by intros [? ?]. }
  split.
  - unfold run, Replace.LogoAssetsGenerator.generate_all_assets.
    change Replace.LOGO_FILENAME with "logo.png"%string. by step Hex.
  - unfold run, Conservative.generate_icons_from_logo. by step Hex.
Qed.

Lemma missing_logo_is_reported_witness :
  (∅ : gmap string file) !! Replace.LOGO_FILENAME = None
  /\ run (Replace.LogoAssetsGenerator.generate_all_assets Replace.LOGO_FILENAME) ∅ ∅
     = (Return tt, mkWorld [] ∅ ∅ ["❌ No se encontró 'logo.png' en el directorio."])
  /\ run Conservative.generate_icons_from_logo ∅ ∅
     = (Return tt, mkWorld [] ∅ ∅ ["❌ No se encontró 'logo.png' en el directorio."]).
Proof.
  split; [reflexivity|].
  apply (missing_logo_is_reported ∅ ∅). reflexivity.
Defined.

(** C8, as amended.  A resize request with a target of 0 in either
    dimension raises an error and leaves the world as it was, for every
    image whose size is not already the requested one, which every image
    with positive sides is: ValueError when both sides fit a C int,
    OverflowError otherwise.  When the image already has the requested
    size, resize returns a copy without looking at the target.  For a
    positive target that fits a C int and can be allocated, as every
    target up to 256x256 can, resize returns a new object (its reference
    was free before), of the requested size and of the mode of its input,
    and every object the store held, the input among them, is unchanged.
    For a positive target with a side of 2^31 or more it raises
    OverflowError and leaves the world as it was. *)
Theorem resize_checks_target `{Numerics} h fs ro out r im tw th :
  h !! r = Some im ->
  ((tw = 0 \/ th = 0) -> im_size im <> (tw, th) ->
     exists e,
       Replace.ImageResizer.resize r (tw, th) (mkWorld h fs ro out)
       = (Raise e, mkWorld h fs ro out)
       /\ (class_of e = ValueError \/ class_of e = OverflowError)
       /\ (- 2 ^ 31 <= tw < 2 ^ 31 -> - 2 ^ 31 <= th < 2 ^ 31 ->
           e = Exception ValueError "height and width must be > 0"))
  /\ (0 < im_width im -> 0 < im_height im -> (tw = 0 \/ th = 0) ->
      im_size im <> (tw, th))
  /\ (im_size im = (tw, th) ->
      Replace.ImageResizer.resize r (tw, th) (mkWorld h fs ro out)
      = (Return (length h), mkWorld (h ++ [im]) fs ro out))
  /\ (1 <= tw <= 256 -> 1 <= th <= 256 -> grants (tw, th) = true)
  /\ (0 < tw < 2 ^ 31 -> 0 < th < 2 ^ 31 -> grants (tw, th) = true ->
      exists r',
        Replace.ImageResizer.resize r (tw, th) (mkWorld h fs ro out)
        = (Return r', mkWorld (h ++ [resized im (tw, th)]) fs ro out)
        /\ h !! r' = None
        /\ (h ++ [resized im (tw, th)]) !! r' = Some (resized im (tw, th))
        /\ (h ++ [resized im (tw, th)]) !! r = Some im
        /\ im_size (resized im (tw, th)) = (tw, th)
        /\ im_mode (resized im (tw, th)) = im_mode im)
  /\ (im_size im <> (tw, th) -> 0 < tw -> 0 < th -> 2 ^ 31 <= tw \/ 2 ^ 31 <= th ->
      exists msg,
        Replace.ImageResizer.resize r (tw, th) (mkWorld h fs ro out)
        = (Raise (Exception OverflowError msg), mkWorld h fs ro out)).
Proof.
  intros E. split_and!.
  - intros H0 Hne. unfold Replace.ImageResizer.resize, PIL.resize.
    step (deref_eq _ fs ro out _ _ E).
    rewrite decide_False by done. cbn [fst snd].
    destruct (PIL.c_int tw) eqn:Ctw; cbn [negb].
    + destruct (PIL.c_int th) eqn:Cth; cbn [negb].
      * assert ((tw <? 1) || (th <? 1) = true) as ->.
        { apply orb_true_iff. destruct H0 as [-> | ->]; [by left | by right]. }
        eexists. split; [reflexivity|]. split; [by left | done].
      * eexists. split; [reflexivity|]. split; [by right|].
        intros _ Hth. by rewrite c_int_in in Cth.
    + eexists. split; [reflexivity|]. split; [by right|].
      intros Htw _. by rewrite c_int_in in Ctw.
  - intros Hw Hh H0 Heq. unfold im_width, im_height in *. rewrite Heq in Hw, Hh.
    simpl in *. lia.
  - intros Heq. unfold Replace.ImageResizer.resize, PIL.resize.
    step (deref_eq _ fs ro out _ _ E). by rewrite decide_True.
  - apply grants_icon.
  - intros Hw Hh Hg. exists (length h).
    split_and!.
    + by apply resize_granted_spec.
    + by apply lookup_ge_None_2.
    + apply lookup_snoc.
    + by apply lookup_app_l_Some.
    + apply resized_size.
    + apply resized_mode.
  - intros Hne Hw Hh Hbig. unfold Replace.ImageResizer.resize, PIL.resize.
    step (deref_eq _ fs ro out _ _ E).
    rewrite decide_False by done. cbn [fst snd].
    destruct (PIL.c_int tw) eqn:Ctw; cbn [negb]; [|by eexists].
    destruct Hbig as [Hbig|Hbig].
    + rewrite c_int_out in Ctw by (right; lia). done.
    + rewrite (c_int_out th) by (right; lia). by eexists.
Qed.

Lemma insert_snoc (h : list Image) (a b : Image) : <[length h := b]> (h ++ [a]) = h ++ [b].
Proof.
  rewrite insert_app_r_alt by lia. by rewrite Nat.sub_diag.
Qed.

Lemma convert_RGB_spec h fs ro out r im :
  h !! r = Some im ->
  PIL.convert_RGB r (mkWorld h fs ro out)
  = (Return (length h), mkWorld (h ++ [rgb_of im]) fs ro out).
Proof.
  intros E. unfold PIL.convert_RGB, rgb_of.
  step (deref_eq _ fs ro out _ _ E). by case_decide.
Qed.

Lemma mask_band_alpha im :
  im_mode im = RGBA \/ im_mode im = LA ->
  PIL.mask_band (im_data im) = Some (map alpha_of (rgba_pixels (im_data im))).
Proof.
  unfold im_mode.
  destruct (im_data im) as [key px|key px|key px|px|pal trns px|key px|px]; simpl;
    intros [?|?]; try done.
  f_equal. induction px as [|[l a] px IH]; simpl; [done|]. by rewrite IH.
Qed.

Lemma flatten_spec h fs ro out r im :
  h !! r = Some im ->
  exists r' h',
    Conservative.flatten_image_to_white r (mkWorld h fs ro out)
    = (Return r', mkWorld h' fs ro out)
    /\ h `prefix_of` h' /\ h' !! r' = Some (flattened im).
Proof.
  intros E. unfold Conservative.flatten_image_to_white, flattened.
  step (deref_eq _ fs ro out _ _ E).
  case_bool_decide as Hm.
  - pose proof (mask_band_alpha im Hm) as Hband.
    unfold PIL.new_RGBA.
    change (alloc ?bg (mkWorld h fs ro out))
      with (Return (length h), mkWorld (h ++ [bg]) fs ro out).
    set (bg := mkImage (im_size im) (BandsRGBA (repeat (255, 255, 255, 255)
                 (Z.to_nat (fst (im_size im) * snd (im_size im)))))).
    assert (alloc bg (mkWorld h fs ro out)
            = (Return (length h), mkWorld (h ++ [bg]) fs ro out)) as Ea by done.
    step Ea.
    set (new := mkImage (im_size im)
                  (BandsRGBA (PIL.paste_masked (repeat white (pixel_count im))
                                (rgba_pixels (im_data im))
                                (default [] (PIL.mask_band (im_data im)))))).
    assert (PIL.paste (length h) r r (mkWorld (h ++ [bg]) fs ro out)
            = (Return tt, mkWorld (h ++ [new]) fs ro out)) as Ep.
    { unfold PIL.paste.
      step (deref_eq _ fs ro out _ _ (lookup_snoc h bg)).
      step (deref_eq _ fs ro out _ _ (lookup_app_l_Some _ [bg] _ _ E)).
      step (deref_eq _ fs ro out _ _ (lookup_app_l_Some _ [bg] _ _ E)).
      subst new. rewrite Hband. simpl. unfold assign. simpl.
      by rewrite insert_snoc. }
    step Ep.
    rewrite (convert_RGB_spec _ fs ro out _ _ (lookup_snoc h new)).
    exists (length (h ++ [new])), ((h ++ [new]) ++ [rgb_of new]).
    split_and!; [done | | ].
    + rewrite <- app_assoc. by apply prefix_app_r.
    + rewrite lookup_snoc. done.
  - rewrite (convert_RGB_spec _ fs ro out _ _ E).
    exists (length h), (h ++ [rgb_of im]).
    split_and!; [done | by apply prefix_app_r | apply lookup_snoc].
Qed.

Lemma flattened_mode im : im_mode (flattened im) = RGB.
Proof. unfold flattened. case_bool_decide; [done|]. apply rgb_of_mode. Qed.

Lemma rgb_of_fixed im : im_mode im = RGB -> rgb_of im = im.
Proof. intros Hm. unfold rgb_of. by rewrite decide_True. Qed.


Lemma flattened_fixed im : im_mode im = RGB -> flattened im = im.
Proof.
  intros Hm. unfold flattened. rewrite bool_decide_eq_false_2.
  - by apply rgb_of_fixed.
  - rewrite Hm. by intros [?|?].
Qed.

(** C10: each mode normalization is idempotent.  A second [ensure_rgba] or
    [ensure_rgb] returns the very object it is given and changes nothing;
    a second [flatten_image_to_white] returns an object holding the same
    mode and pixels as the first. *)
Theorem mode_normalization_idempotent h fs ro out r im :
  h !! r = Some im ->
  (exists r1 h1,
     Replace.ImageModeConverter.ensure_rgba r (mkWorld h fs ro out)
     = (Return r1, mkWorld h1 fs ro out)
     /\ h1 !! r1 = Some (rgba_of im)
     /\ Replace.ImageModeConverter.ensure_rgba r1 (mkWorld h1 fs ro out)
        = (Return r1, mkWorld h1 fs ro out))
  /\ (exists r1 h1,
        Replace.ImageModeConverter.ensure_rgb r (mkWorld h fs ro out)
        = (Return r1, mkWorld h1 fs ro out)
        /\ h1 !! r1 = Some (rgb_of im)
        /\ Replace.ImageModeConverter.ensure_rgb r1 (mkWorld h1 fs ro out)
           = (Return r1, mkWorld h1 fs ro out))
  /\ (exists r1 h1 r2 h2,
        Conservative.flatten_image_to_white r (mkWorld h fs ro out)
        = (Return r1, mkWorld h1 fs ro out)
        /\ h1 !! r1 = Some (flattened im)
        /\ Conservative.flatten_image_to_white r1 (mkWorld h1 fs ro out)
           = (Return r2, mkWorld h2 fs ro out)
        /\ h2 !! r2 = Some (flattened im)).
Proof.
  intros E. split_and!.
  - destruct (ensure_rgba_spec h fs ro out r im E) as (r1 & h1 & E1 & _ & L1).
    exists r1, h1. split_and!; [done..|].
    unfold Replace.ImageModeConverter.ensure_rgba.
    step (deref_eq _ fs ro out _ _ L1).
    by rewrite bool_decide_eq_true_2 by apply rgba_of_mode.
  - destruct (ensure_rgb_spec h fs ro out r im E) as (r1 & h1 & E1 & _ & L1).
    exists r1, h1. split_and!; [done..|].
    unfold Replace.ImageModeConverter.ensure_rgb.
    step (deref_eq _ fs ro out _ _ L1).
    by rewrite bool_decide_eq_true_2 by apply rgb_of_mode.
  - destruct (flatten_spec h fs ro out r im E) as (r1 & h1 & E1 & _ & L1).
    destruct (flatten_spec h1 fs ro out r1 _ L1) as (r2 & h2 & E2 & _ & L2).
    exists r1, h1, r2, h2. split_and!; [done..|].
    by rewrite (flattened_fixed _ (flattened_mode im)) in L2.
Qed.

Lemma mode_normalization_idempotent_witness :
  [tiny_logo] !! 0%nat = Some tiny_logo
  /\ ((exists r1 h1,
         Replace.ImageModeConverter.ensure_rgba 0%nat (mkWorld [tiny_logo] ∅ ∅ [])
         = (Return r1, mkWorld h1 ∅ ∅ [])
         /\ h1 !! r1 = Some (rgba_of tiny_logo)
         /\ Replace.ImageModeConverter.ensure_rgba r1 (mkWorld h1 ∅ ∅ [])
            = (Return r1, mkWorld h1 ∅ ∅ []))
      /\ (exists r1 h1,
            Replace.ImageModeConverter.ensure_rgb 0%nat (mkWorld [tiny_logo] ∅ ∅ [])
            = (Return r1, mkWorld h1 ∅ ∅ [])
            /\ h1 !! r1 = Some (rgb_of tiny_logo)
            /\ Replace.ImageModeConverter.ensure_rgb r1 (mkWorld h1 ∅ ∅ [])
               = (Return r1, mkWorld h1 ∅ ∅ []))
      /\ (exists r1 h1 r2 h2,
            Conservative.flatten_image_to_white 0%nat (mkWorld [tiny_logo] ∅ ∅ [])
            = (Return r1, mkWorld h1 ∅ ∅ [])
            /\ h1 !! r1 = Some (flattened tiny_logo)
            /\ Conservative.flatten_image_to_white r1 (mkWorld h1 ∅ ∅ [])
               = (Return r2, mkWorld h2 ∅ ∅ [])
            /\ h2 !! r2 = Some (flattened tiny_logo))).
Proof.
  split; [reflexivity|].
  apply (mode_normalization_idempotent [tiny_logo] ∅ ∅ [] 0%nat tiny_logo). reflexivity.
Defined.

Lemma rgb_pixels_RGB key px : rgb_pixels (BandsRGB key px) = px.
Proof.
  unfold rgb_pixels. simpl. induction px as [|[[r g] b] px IH]; simpl; [done|].
  by rewrite IH.
Qed.

Lemma rgb_of_data im :
  im_data (rgb_of im) = BandsRGB (rgb_key (im_data im)) (rgb_pixels (im_data im)).
Proof.
  unfold rgb_of. case_decide as Hm; [|done].
  unfold im_mode in Hm. destruct (im_data im); try done.
  by rewrite rgb_pixels_RGB.
Qed.

Lemma rgb_of_size im : im_size (rgb_of im) = im_size im.
Proof. unfold rgb_of. by case_decide. Qed.

Lemma flattened_size im : im_size (flattened im) = im_size im.
Proof. unfold flattened. case_bool_decide; [done|]. apply rgb_of_size. Qed.

(** The flattened raster the PNG encoder refuses comes from a bilevel or
    16-bit source with a colour key (or from a source it refuses). *)
Lemma flattened_writes_mode im :
  im_mode im <> Bilevel -> im_mode im <> I16 -> PIL.png_writes im = true ->
  PIL.png_writes (flattened im) = true.
Proof.
  intros H1 H16 Hw. unfold flattened. case_bool_decide; [done|].
  unfold rgb_of. case_decide; [done|].
  unfold PIL.as_rgb, PIL.png_writes, im_mode in *. simpl.
  destruct (im_data im) as [[k|] px|[k|] px|[k|] px|px|pal [[t|alphas]|] px|[[k|c]|] px|px];
    simpl in *; done.
Qed.

Lemma flattened_writes_opaque im :
  PIL.has_transparency_data im = false -> PIL.png_writes (flattened im) = true.
Proof.
  intros Ht. unfold flattened. case_bool_decide; [done|].
  unfold rgb_of. unfold PIL.as_rgb, PIL.png_writes, PIL.has_transparency_data, im_mode in *.
  case_decide;
    destruct (im_data im) as [[k|] px|[k|] px|[k|] px|px|pal [[t|alphas]|] px|[[k|c]|] px|px];
    simpl in *; done.
Qed.

Lemma paste_masked_white n (src : list rgba) :
  length src = n ->
  PIL.paste_masked (repeat white n) src (map alpha_of src)
  = map (fun p => paste_pixel white p (alpha_of p)) src.
Proof.
  revert n. induction src as [|p src IH]; intros n Hn; simpl in Hn; subst n; simpl.
  - done.
  - by rewrite IH.
Qed.

Lemma flattened_composite im :
  im_mode im = RGBA \/ im_mode im = LA -> well_formed im ->
  im_data (flattened im) = BandsRGB None (map composite_white (rgba_pixels (im_data im))).
Proof.
  intros Hm Hwf. unfold flattened. rewrite bool_decide_eq_true_2 by done. simpl.
  rewrite (mask_band_alpha im Hm). simpl.
  rewrite paste_masked_white by done.
  by rewrite map_map.
Qed.

Lemma composite_white_transparent r g b : composite_white (r, g, b, 0) = (255, 255, 255).
Proof.
  unfold composite_white, paste_pixel, BLEND, white, alpha_of, rgb_of_rgba.
  rewrite !Z.mul_0_r, !Z.add_0_r. reflexivity.
Qed.

(** C3, as amended: normalizing for an alpha-incapable target yields an
    RGB raster of the size of the source, with no alpha band, for every
    source mode.  [ensure_rgb], the JPEG path, drops the alpha band and
    keeps the colour bands as stored (and the colour key, if the source
    has one); [flatten_image_to_white] composites the pixels of an RGBA or
    LA source over opaque white, which turns a fully transparent pixel
    white, and leaves no colour key. *)
Theorem alpha_incapable_target_gets_rgb h fs ro out r im :
  h !! r = Some im ->
  (exists r' h',
     Replace.ImageModeConverter.ensure_rgb r (mkWorld h fs ro out)
     = (Return r', mkWorld h' fs ro out)
     /\ h' !! r' = Some (rgb_of im))
  /\ (exists r' h',
        Conservative.flatten_image_to_white r (mkWorld h fs ro out)
        = (Return r', mkWorld h' fs ro out)
        /\ h' !! r' = Some (flattened im))
  /\ im_mode (rgb_of im) = RGB /\ im_size (rgb_of im) = im_size im
  /\ im_data (rgb_of im) = BandsRGB (rgb_key (im_data im)) (rgb_pixels (im_data im))
  /\ im_mode (flattened im) = RGB /\ im_size (flattened im) = im_size im
  /\ (im_mode im = RGBA \/ im_mode im = LA -> well_formed im ->
      im_data (flattened im)
      = BandsRGB None (map composite_white (rgba_pixels (im_data im))))
  /\ (forall r g b, composite_white (r, g, b, 0) = (255, 255, 255)).
Proof.
  intros E. split_and!.
  - destruct (ensure_rgb_spec h fs ro out r im E) as (r' & h' & E1 & _ & L1). eauto.
  - destruct (flatten_spec h fs ro out r im E) as (r' & h' & E1 & _ & L1). eauto.
  - apply rgb_of_mode.
  - apply rgb_of_size.
  - apply rgb_of_data.
  - apply flattened_mode.
  - apply flattened_size.
  - apply flattened_composite.
  - apply composite_white_transparent.
Qed.

(** C3, the claim as written fails for [ensure_rgb]: a fully transparent
    black pixel comes out black, where compositing on white gives white. *)
Lemma ensure_rgb_does_not_composite :
  Replace.ImageModeConverter.ensure_rgb 0%nat (mkWorld [transparent_black] ∅ ∅ [])
  = (Return 1%nat,
     mkWorld [transparent_black; mkImage (1, 1) (BandsRGB None [(0, 0, 0)])] ∅ ∅ [])
  /\ PIL.has_transparency_data transparent_black = true
  /\ map composite_white (rgba_pixels (im_data transparent_black)) = [(255, 255, 255)]
  /\ BandsRGB None [(0, 0, 0)]
     <> BandsRGB None (map composite_white (rgba_pixels (im_data transparent_black))).
Proof. split_and!; [reflexivity | reflexivity | reflexivity | discriminate]. Qed.

Lemma favicon_ico_has_one_frame_witness :
  logo_dir !! Replace.LOGO_FILENAME = Some (Encoded PNG [tiny_logo] None)
  /\ PIL.decode (Encoded PNG [tiny_logo] None) = Some tiny_logo
  /\ (Replace.FAVICON_ICO ∉ (∅ : gset string))
  /\ exists w',
       run (Replace.LogoAssetsGenerator.generate_all_assets Replace.LOGO_FILENAME)
         logo_dir ∅
       = (Return tt, w')
       /\ files w' !! Replace.FAVICON_ICO
          = Some (Encoded ICO [resized (rgba_of tiny_logo) (16, 16)] None)
       /\ im_size (resized (rgba_of tiny_logo) (16, 16)) = (16, 16).
Proof.
  split; [reflexivity|]. split; [reflexivity|]. split; [apply not_elem_of_empty|].
  apply (favicon_ico_has_one_frame logo_dir ∅ (Encoded PNG [tiny_logo] None) tiny_logo);
    [reflexivity | reflexivity | apply not_elem_of_empty].
Defined.

Lemma resize_checks_target_witness :
  [tiny_logo] !! 0%nat = Some tiny_logo
  /\ (exists e,
        Replace.ImageResizer.resize 0%nat (0, 16) (mkWorld [tiny_logo] ∅ ∅ [])
        = (Raise e, mkWorld [tiny_logo] ∅ ∅ [])
        /\ (class_of e = ValueError \/ class_of e = OverflowError)
        /\ (- 2 ^ 31 <= 0 < 2 ^ 31 -> - 2 ^ 31 <= 16 < 2 ^ 31 ->
            e = Exception ValueError "height and width must be > 0"))
  /\ Replace.ImageResizer.resize 0%nat (1, 1) (mkWorld [tiny_logo] ∅ ∅ [])
     = (Return 1%nat, mkWorld ([tiny_logo] ++ [tiny_logo]) ∅ ∅ [])
  /\ (exists r',
        Replace.ImageResizer.resize 0%nat (16, 16) (mkWorld [tiny_logo] ∅ ∅ [])
        = (Return r', mkWorld ([tiny_logo] ++ [resized tiny_logo (16, 16)]) ∅ ∅ [])
        /\ [tiny_logo] !! r' = None
        /\ ([tiny_logo] ++ [resized tiny_logo (16, 16)]) !! r'
           = Some (resized tiny_logo (16, 16))
        /\ ([tiny_logo] ++ [resized tiny_logo (16, 16)]) !! 0%nat = Some tiny_logo
        /\ im_size (resized tiny_logo (16, 16)) = (16, 16)
        /\ im_mode (resized tiny_logo (16, 16)) = im_mode tiny_logo)
  /\ (exists msg,
        Replace.ImageResizer.resize 0%nat (2147483648, 16) (mkWorld [tiny_logo] ∅ ∅ [])
        = (Raise (Exception OverflowError msg), mkWorld [tiny_logo] ∅ ∅ [])).
Proof.
  split; [reflexivity|].
  destruct (resize_checks_target [tiny_logo] ∅ ∅ [] 0%nat tiny_logo 0 16 eq_refl)
    as (Hz & _).
  destruct (resize_checks_target [tiny_logo] ∅ ∅ [] 0%nat tiny_logo 1 1 eq_refl)
    as (_ & _ & Hc & _).
  destruct (resize_checks_target [tiny_logo] ∅ ∅ [] 0%nat tiny_logo 16 16 eq_refl)
    as (_ & _ & _ & Hg & Hp & _).
  destruct (resize_checks_target [tiny_logo] ∅ ∅ [] 0%nat tiny_logo 2147483648 16 eq_refl)
    as (_ & _ & _ & _ & _ & Hb).
  split_and!.
  - apply Hz; [by left | discriminate].
  - apply Hc. reflexivity.
  - apply Hp; [lia | lia | apply Hg; lia].
  - apply Hb; [discriminate | lia | lia | left; lia].
Defined.

(** C8, the claim as written fails: a positive target is not enough.  The
    one-pixel logo resized to 2147483648 x 16 raises OverflowError, and no
    image is returned. *)
Lemma resize_of_huge_target_raises :
  0 < 2147483648 /\ 0 < 16
  /\ Replace.ImageResizer.resize 0%nat (2147483648, 16) (mkWorld [tiny_logo] ∅ ∅ [])
     = (Raise (Exception OverflowError "signed integer is greater than maximum"),
        mkWorld [tiny_logo] ∅ ∅ []).
Proof. split_and!; [lia | lia | reflexivity]. Qed.

Lemma alpha_incapable_target_gets_rgb_witness :
  [transparent_black] !! 0%nat = Some transparent_black
  /\ (exists r' h',
        Replace.ImageModeConverter.ensure_rgb 0%nat (mkWorld [transparent_black] ∅ ∅ [])
        = (Return r', mkWorld h' ∅ ∅ [])
        /\ h' !! r' = Some (rgb_of transparent_black))
  /\ (exists r' h',
        Conservative.flatten_image_to_white 0%nat (mkWorld [transparent_black] ∅ ∅ [])
        = (Return r', mkWorld h' ∅ ∅ [])
        /\ h' !! r' = Some (flattened transparent_black))
  /\ im_mode (rgb_of transparent_black) = RGB
  /\ im_size (rgb_of transparent_black) = im_size transparent_black
  /\ im_data (rgb_of transparent_black)
     = BandsRGB (rgb_key (im_data transparent_black))
         (rgb_pixels (im_data transparent_black))
  /\ im_mode (flattened transparent_black) = RGB
  /\ im_size (flattened transparent_black) = im_size transparent_black
  /\ (im_mode transparent_black = RGBA \/ im_mode transparent_black = LA ->
      well_formed transparent_black ->
      im_data (flattened transparent_black)
      = BandsRGB None (map composite_white (rgba_pixels (im_data transparent_black))))
  /\ (forall r g b, composite_white (r, g, b, 0) = (255, 255, 255)).
Proof.
  split; [reflexivity|].
  apply (alpha_incapable_target_gets_rgb [transparent_black] ∅ ∅ [] 0%nat transparent_black).
  reflexivity.
Defined.

(** ** The bulk conversion of the replace variant *)

Lemma lower_app s t : lower (s +:+ t) = lower s +:+ lower t.
Proof. induction s as [|c s IH]; simpl; [done|]. by rewrite IH. Qed.

Lemma string_length_app s t : String.length (s +:+ t) = (String.length s + String.length t)%nat.
Proof. induction s as [|c s IH]; simpl; [done|]. by rewrite IH. Qed.

(** The last character of a name that ends with a suffix is the suffix's. *)
Lemma endswith_last s suffix c :
  endswith s suffix = true ->
  String.get (String.length suffix - 1) suffix = Some c ->
  String.get (String.length s - 1) s = Some c.
Proof.
  unfold endswith. intros He Hc.
  destruct (Nat.leb_spec (String.length suffix) (String.length s)) as [Hle|]; [|done].
  apply String.eqb_eq in He.
  assert (String.length suffix <> 0)%nat as Hk.
  { intros H0. rewrite H0 in Hc. destruct suffix; [done|]. simpl in H0. lia. }
  rewrite <- He in Hc at 2.
  rewrite substring_correct1 in Hc by lia.
  rewrite <- Hc. f_equal. lia.
Qed.

Lemma ico_path_not_webp base : is_webp (base +:+ ".ico") = false.
Proof.
  unfold is_webp. destruct (endswith _ _) eqn:He; [|done].
  apply (endswith_last _ _ "p"%char) in He; [|done].
  rewrite lower_app, string_length_app in He.
  change (lower ".ico") with ".ico"%string in He. simpl String.length in He.
  replace (String.length (lower base) + 4 - 1)%nat
    with (3 + String.length (lower base))%nat in He by lia.
  by rewrite <- (append_correct2 (lower base) ".ico" 3) in He.
Qed.

Lemma is_webp_nonempty name : is_webp name = true -> name <> "".
Proof. by intros Hw ->. Qed.

Lemma ico_path_nonempty name : ico_path name <> "".
Proof.
  unfold ico_path. intros Heq.
  apply (f_equal String.length) in Heq. rewrite string_length_app in Heq.
  simpl in Heq. lia.
Qed.

Lemma ico_path_ne_webp name1 name2 : is_webp name2 = true -> ico_path name1 <> name2.
Proof. intros Hw Heq. unfold ico_path in Heq. by rewrite <- Heq, ico_path_not_webp in Hw. Qed.

(** What an outcome does to the directory, entry by entry. *)
Lemma apply_outcome_lookup (fs : gmap string file) o k :
  apply_outcome fs o !! k
  = if decide (outcome_path o = Some k) then outcome_entry o (fs !! k) else fs !! k.
Proof.
  destruct o as [path f line|path line|line]; simpl.
  - destruct (decide (path = k)) as [->|Hk].
    + by rewrite decide_True, lookup_insert_eq.
    + rewrite decide_False by (by intros [= ?]). by rewrite lookup_insert_ne.
  - destruct (decide (path = k)) as [->|Hk].
    + rewrite decide_True by done.
      destruct (fs !! k) eqn:Hf; [by rewrite lookup_insert_eq | done].
    + rewrite decide_False by (by intros [= ?]).
      destruct (fs !! path); [by rewrite lookup_insert_ne | done].
  - done.
Qed.

Lemma apply_outcome_comm (fs : gmap string file) o1 o2 :
  outcome_path o1 = None \/ outcome_path o2 = None \/ outcome_path o1 <> outcome_path o2 ->
  apply_outcome (apply_outcome fs o1) o2 = apply_outcome (apply_outcome fs o2) o1.
Proof.
  intros Hp. apply map_eq. intros k. rewrite !apply_outcome_lookup.
  destruct (decide (outcome_path o1 = Some k)) as [H1|H1];
    destruct (decide (outcome_path o2 = Some k)) as [H2|H2]; try done.
  exfalso. destruct Hp as [Hp|[Hp|Hp]]; congruence.
Qed.

Section Bulk.
Context `{Numerics}.
Variable ico_size : Z.
Implicit Types (h : list Image) (fs : gmap string file) (ro : gset string) (out : list string).

Lemma checked_resize_spec h fs ro out r im size :
  h !! r = Some im ->
  match checked_resize im size with
  | Return icon =>
      exists r' h',
        Replace.ImageResizer.resize r size (mkWorld h fs ro out)
        = (Return r', mkWorld h' fs ro out)
        /\ h `prefix_of` h' /\ h' !! r' = Some icon
  | Raise e =>
      Replace.ImageResizer.resize r size (mkWorld h fs ro out)
      = (Raise e, mkWorld h fs ro out)
  end.
Proof.
  intros E. unfold checked_resize, Replace.ImageResizer.resize, PIL.resize.
  step (deref_eq _ fs ro out _ _ E).
  case_decide.
  - exists (length h), (h ++ [im]).
    split_and!; [done | by apply prefix_app_r | apply lookup_snoc].
  - destruct (PIL.c_int (fst size)); [|done].
    destruct (PIL.c_int (snd size)); [|done]. cbn [negb].
    destruct ((fst size <? 1) || (snd size <? 1)); [done|].
    destruct (grants size); [|done]. cbn [negb].
    exists (length h), (h ++ [resample im size]).
    split_and!; [done | by apply prefix_app_r | apply lookup_snoc].
Qed.

Lemma convert_single_spec h fs ro out name :
  name <> "" ->
  exists h',
    Replace.WebpToIcoConverter._convert_single_webp ico_size name (mkWorld h fs ro out)
    = (Return tt,
       mkWorld h' (apply_outcome fs (conversion ico_size ro (fs !! name) name)) ro
         (out ++ [outcome_line (conversion ico_size ro (fs !! name) name)]))
    /\ h `prefix_of` h'.
Proof.
  intros Hn.
  unfold Replace.WebpToIcoConverter._convert_single_webp, conversion, try_except.
  unfold Replace.ImageIOManager.load_image at 1.
  assert (os.path_exists name (mkWorld h fs ro out)
          = (Return (bool_decide (is_Some (fs !! name))), mkWorld h fs ro out)) as Hex by done.
  destruct (fs !! name) as [f|] eqn:Hf.
  - rewrite bool_decide_eq_true_2 in Hex by eauto.
    assert (String.eqb name "" = false) as Hne by by apply String.eqb_neq.
    destruct (PIL.decode f) as [im|] eqn:Hd.
    + assert ((found ← os.path_exists name;
               if String.eqb name "" || negb found
               then raise FileNotFoundError ("No se encontró el archivo: " +:+ name)
               else PIL.open name) (mkWorld h fs ro out)
              = (Return (length h), mkWorld (h ++ [im]) fs ro out)) as El.
      { step Hex. rewrite Hne. simpl. unfold PIL.open. simpl. by rewrite Hf, Hd. }
      step El.
      destruct (ensure_rgba_spec (h ++ [im]) fs ro out (length h) im (lookup_snoc h im))
        as (r1 & h1 & E1 & P1 & L1).
      step E1.
      pose proof (checked_resize_spec h1 fs ro out r1 (rgba_of im) (ico_size, ico_size) L1)
        as Hr.
      destruct (checked_resize (rgba_of im) (ico_size, ico_size)) as [icon|e].
      * destruct Hr as (r2 & h2 & E2 & P2 & L2). step E2.
        exists h2. split; [|etrans; [by apply prefix_app_r|by etrans]].
        fold (ico_path name).
        destruct (decide (ico_path name ∈ ro)) as [Hi|Hi].
        { by rewrite (bind_raise _ _ _ _ _
               (eq_trans (save_image_eq _ _ _ _ _ _ _ _ _ L2 (ico_path_nonempty name))
                  (write_denied _ _ _ _ _ _ _ _ Hi))). }
        destruct (PIL.encode ICO icon (PIL.SaveOptions None (Some [(ico_size, ico_size)])))
          as [f'|e] eqn:He.
        { by rewrite (bind_return _ _ _ _ _
               (eq_trans (save_image_eq _ _ _ _ _ _ _ _ _ L2 (ico_path_nonempty name))
                  (write_ok _ _ _ _ _ _ _ _ _ He Hi))). }
        by rewrite (bind_raise _ _ _ _ _
             (eq_trans (save_image_eq _ _ _ _ _ _ _ _ _ L2 (ico_path_nonempty name))
                (write_refused _ _ _ _ _ _ _ _ _ He Hi))).
      * rewrite (bind_raise _ _ _ _ _ Hr).
        exists h1. split; [done|]. etrans; [by apply prefix_app_r|done].
    + assert ((found ← os.path_exists name;
               if String.eqb name "" || negb found
               then raise FileNotFoundError ("No se encontró el archivo: " +:+ name)
               else PIL.open name) (mkWorld h fs ro out)
              = (Raise (Exception UnidentifiedImageError
                          ("cannot identify image file '" +:+ name +:+ "'")),
                 mkWorld h fs ro out)) as El.
      { step Hex. rewrite Hne. simpl. unfold PIL.open. simpl. by rewrite Hf, Hd. }
      rewrite (bind_raise _ _ _ _ _ El). by exists h.
  - rewrite bool_decide_eq_false_2 in Hex by (by intros [? ?]).
    assert ((found ← os.path_exists name;
             if String.eqb name "" || negb found
             then raise FileNotFoundError ("No se encontró el archivo: " +:+ name)
             else PIL.open name) (mkWorld h fs ro out)
            = (Raise (Exception FileNotFoundError ("No se encontró el archivo: " +:+ name)),
               mkWorld h fs ro out)) as El.
    { step Hex. by rewrite orb_true_r. }
    rewrite (bind_raise _ _ _ _ _ El). by exists h.
Qed.


Lemma conversion_path ro src name :
  outcome_path (conversion ico_size ro src name) = None
  \/ outcome_path (conversion ico_size ro src name) = Some (ico_path name).
Proof.
  unfold conversion. destruct src as [f|]; [|by left].
  destruct (PIL.decode f); [|by left].
  destruct (checked_resize _ _); [|by left].
  case_decide; [by left|].
  destruct (PIL.encode _ _ _); by right.
Qed.

Lemma apply_conversion_lookup fs ro src name k :
  k <> ico_path name ->
  apply_outcome fs (conversion ico_size ro src name) !! k = fs !! k.
Proof.
  intros Hk. rewrite apply_outcome_lookup.
  destruct (conversion_path ro src name) as [->| ->]; [done|].
  rewrite decide_False; [done|]. intros [= Heq]. by symmetry in Heq.
Qed.

Lemma apply_conversion_comm fs ro src1 src2 name1 name2 :
  ico_path name1 <> ico_path name2 ->
  apply_outcome (apply_outcome fs (conversion ico_size ro src1 name1))
    (conversion ico_size ro src2 name2)
  = apply_outcome (apply_outcome fs (conversion ico_size ro src2 name2))
      (conversion ico_size ro src1 name1).
Proof.
  intros Hne. apply apply_outcome_comm.
  destruct (conversion_path ro src1 name1) as [->| ->]; [by left|].
  destruct (conversion_path ro src2 name2) as [->| ->]; [by right; left|].
  right; right. by intros [= ?].
Qed.

Lemma convert_each_spec dir ro names :
  Forall (fun name => is_webp name = true) names ->
  forall h fs out,
    (forall name, name ∈ names -> fs !! name = dir !! name) ->
    exists h',
      for_each names (Replace.WebpToIcoConverter._convert_single_webp ico_size)
        (mkWorld h fs ro out)
      = (Return tt,
         mkWorld h' (foldl apply_outcome fs (conversions ico_size ro dir names)) ro
           (out ++ map outcome_line (conversions ico_size ro dir names))).
Proof.
  induction 1 as [|name names Hw Hws IH]; intros h fs out Hsrc; simpl.
  - exists h. unfold ret. by rewrite app_nil_r.
  - destruct (convert_single_spec h fs ro out name (is_webp_nonempty _ Hw)) as (h1 & E1 & _).
    rewrite (Hsrc name) in E1 by by left.
    destruct (IH h1 (apply_outcome fs (conversion ico_size ro (dir !! name) name))
                (out ++ [outcome_line (conversion ico_size ro (dir !! name) name)]))
      as (h2 & E2).
    { intros k Hk. rewrite apply_conversion_lookup.
      - apply Hsrc. by right.
      - intros Heq. symmetry in Heq. revert Heq. apply ico_path_ne_webp.
        by apply (proj1 (Forall_forall _ _) Hws). }
    exists h2. step E1. rewrite E2. by rewrite <- app_assoc.
Qed.

Lemma converted_perm ro dir names names' :
  names ≡ₚ names' -> NoDup (map ico_path names) ->
  forall fs,
    foldl apply_outcome fs (conversions ico_size ro dir names)
    = foldl apply_outcome fs (conversions ico_size ro dir names').
Proof.
  induction 1 as [|a l1 l2 Hp IH|a b l|l1 l2 l3 H12 IH12 H23 IH23];
    intros Hnd fs; simpl.
  - done.
  - simpl in Hnd. apply NoDup_cons in Hnd as [_ Hnd]. by apply IH.
  - simpl in Hnd. apply NoDup_cons in Hnd as [Hb _].
    rewrite (apply_conversion_comm fs ro _ _ b a); [done|].
    intros Heq. apply Hb. rewrite Heq. by left.
  - rewrite IH12 by done. apply IH23.
    apply NoDup_ListNoDup. eapply Permutation_NoDup; [|by apply NoDup_ListNoDup].
    by apply Permutation_map.
Qed.

End Bulk.

Lemma gather_map {A} (f : A -> M unit) (l : list A) : gather (map f l) = for_each l f.
Proof.
  unfold gather. induction l as [|x l IH]; simpl; [done|]. by rewrite IH.
Qed.

Lemma filter_Permutation {A} (f : A -> bool) (l l' : list A) :
  l ≡ₚ l' -> List.filter f l ≡ₚ List.filter f l'.
Proof.
  induction 1 as [|a l1 l2 Hp IH|a b l|l1 l2 l3 H12 IH12 H23 IH23]; simpl.
  - done.
  - destruct (f a); [by constructor | done].
  - destruct (f a), (f b); try done. apply perm_swap.
  - by etrans.
Qed.

Lemma filter_all {A} (f : A -> bool) (l : list A) :
  Forall (fun x => f x = true) (List.filter f l).
Proof. apply Forall_forall. intros x Hx. apply list_elem_of_In, filter_In in Hx. tauto. Qed.

Lemma listdir_eq h fs ro out :
  os.listdir (mkWorld h fs ro out) = (Return (elements (dom fs)), mkWorld h fs ro out).
Proof. reflexivity. Qed.

Lemma listed_entry (dir : gmap string file) name :
  name ∈ elements (dom dir) <-> is_Some (dir !! name).
Proof. by rewrite elem_of_elements, elem_of_dom. Qed.

Lemma elem_of_filter_webp name names :
  name ∈ List.filter is_webp names <-> name ∈ names /\ is_webp name = true.
Proof. by rewrite !list_elem_of_In, filter_In. Qed.

(** The bulk conversion of the replace variant over a listing. *)
Lemma convert_listed_spec `{Numerics} ico_size names dir ro :
  exists h,
    Replace.WebpToIcoConverter.convert_listed ico_size names (boot dir ro)
    = (Return tt,
       mkWorld h (converted ico_size ro dir (List.filter is_webp names)) ro
         (bulk_report ico_size ro dir (List.filter is_webp names))).
Proof.
  unfold Replace.WebpToIcoConverter.convert_listed, converted, bulk_report.
  destruct (List.filter is_webp names) as [|name webp_files] eqn:Hfilter.
  - by eexists.
  - rewrite gather_map.
    destruct (convert_each_spec ico_size dir ro (name :: webp_files)) with
      (h := @nil Image) (fs := dir) (out := @nil string) as (h' & E); [|done|].
    { rewrite <- Hfilter. apply filter_all. }
    by exists h'.
Qed.

Lemma bulk_report_perm `{Numerics} ico_size ro dir l l' :
  l ≡ₚ l' -> bulk_report ico_size ro dir l ≡ₚ bulk_report ico_size ro dir l'.
Proof.
  intros Hp. unfold bulk_report, conversions.
  destruct l as [|x l].
  - apply Permutation_nil in Hp. by subst.
  - destruct l' as [|y l'].
    + symmetry in Hp. by apply Permutation_nil in Hp.
    + by apply Permutation_map, Permutation_map.
Qed.

Lemma concat_Permutation {A} (ls ls' : list (list A)) :
  ls ≡ₚ ls' -> concat ls ≡ₚ concat ls'.
Proof.
  induction 1 as [|a l1 l2 Hp IH|a b l|l1 l2 l3 H12 IH12 H23 IH23]; simpl.
  - done.
  - by apply Permutation_app_head.
  - rewrite !app_assoc. apply Permutation_app_tail, Permutation_app_comm.
  - by etrans.
Qed.

(** C9, as amended: the written files do not depend on the order in which
    the per-asset tasks run.  For Mode B, any schedule of the three
    sub-tasks leaves the same directory as the order of the source and
    prints the same lines in some order.  For the bulk conversion, two
    listings of the same names leave the same directory and print the same
    lines in some order, provided the listed .webp files have pairwise
    distinct destinations. *)
Theorem written_files_do_not_depend_on_schedule `{Numerics}
    r logo h fs ro out schedule ico_size dir names names' :
  h !! r = Some logo ->
  schedule ≡ₚ Replace.LogoAssetsGenerator.tasks r ->
  names ≡ₚ names' ->
  NoDup (map ico_path (List.filter is_webp names)) ->
  (exists h1 h2 fs' out1 out2,
     gather schedule (mkWorld h fs ro out) = (Return tt, mkWorld h1 fs' ro out1)
     /\ gather (Replace.LogoAssetsGenerator.tasks r) (mkWorld h fs ro out)
        = (Return tt, mkWorld h2 fs' ro out2)
     /\ out1 ≡ₚ out2)
  /\ (exists h1 h2 fs' out1 out2,
        Replace.WebpToIcoConverter.convert_listed ico_size names (boot dir ro)
        = (Return tt, mkWorld h1 fs' ro out1)
        /\ Replace.WebpToIcoConverter.convert_listed ico_size names' (boot dir ro)
           = (Return tt, mkWorld h2 fs' ro out2)
        /\ out1 ≡ₚ out2).
Proof.
  intros E Hs Hp Hnd. split.
  - pose proof (tasks_attempts r logo) as Hps.
    set (ps := [(Replace.LogoAssetsGenerator._generate_png_icons r, png_icon_assets logo);
                (Replace.LogoAssetsGenerator._generate_favicon_ico r, [favicon_asset logo]);
                (Replace.LogoAssetsGenerator._generate_preview_images r, preview_assets logo)])
      in Hps.
    change (Replace.LogoAssetsGenerator.tasks r) with (map fst ps) in Hs |- *.
    apply Permutation_map_inv in Hs as (ps' & -> & Hpp).
    assert (Forall (fun p => attempts r logo (fst p) (snd p)) ps') as Hps'.
    { apply Forall_forall. intros p Hin. apply (proj1 (Forall_forall _ _) Hps).
      by rewrite Hpp. }
    destruct (gather_attempts r logo ps' Hps' h fs ro out E) as (h1 & E1 & _).
    destruct (gather_attempts r logo ps Hps h fs ro out E) as (h2 & E2 & _).
    assert (concat (map snd ps) ≡ₚ concat (map snd ps')) as Hc.
    { by apply concat_Permutation, Permutation_map. }
    exists h1, h2, (written ro (concat (map snd ps)) fs),
      (out ++ reported ro (concat (map snd ps'))), (out ++ reported ro (concat (map snd ps))).
    split_and!; [| done |].
    + rewrite E1. by rewrite <- (written_perm ro _ _ Hc (declared_names_NoDup logo) fs).
    + apply Permutation_app_head. unfold reported. by apply Permutation_map.
  - destruct (convert_listed_spec ico_size names dir ro) as (h1 & E1).
    destruct (convert_listed_spec ico_size names' dir ro) as (h2 & E2).
    pose proof (filter_Permutation is_webp _ _ Hp) as Hf.
    eexists h1, h2, _, _, _. split_and!; [exact E1 | | by apply bulk_report_perm].
    rewrite E2. unfold converted.
    by rewrite <- (converted_perm ico_size ro dir _ _ Hf Hnd dir).
Qed.

(** C9, the claim as written fails in the bulk conversion: a.webp and
    a.WEBP share a.ico, and the two orders of the listing leave different
    icons there. *)
Lemma listing_order_changes_written_file :
  ["a.webp"; "a.WEBP"]%string ≡ₚ ["a.WEBP"; "a.webp"]%string
  /\ first_pixel
       (files (snd (Replace.WebpToIcoConverter.convert_listed Replace.WEBP_TO_ICO_SIZE
                      ["a.webp"; "a.WEBP"]%string (boot clash_dir ∅))) !! "a.ico"%string)
     = Some (0, 0, 255, 255)
  /\ first_pixel
       (files (snd (Replace.WebpToIcoConverter.convert_listed Replace.WEBP_TO_ICO_SIZE
                      ["a.WEBP"; "a.webp"]%string (boot clash_dir ∅))) !! "a.ico"%string)
     = Some (255, 0, 0, 255)
  /\ files (snd (Replace.WebpToIcoConverter.convert_listed Replace.WEBP_TO_ICO_SIZE
                   ["a.webp"; "a.WEBP"]%string (boot clash_dir ∅))) !! "a.ico"%string
     <> files (snd (Replace.WebpToIcoConverter.convert_listed Replace.WEBP_TO_ICO_SIZE
                      ["a.WEBP"; "a.webp"]%string (boot clash_dir ∅))) !! "a.ico"%string.
Proof.
  split; [apply perm_swap|].
  assert (first_pixel
       (files (snd (Replace.WebpToIcoConverter.convert_listed Replace.WEBP_TO_ICO_SIZE
                      ["a.webp"; "a.WEBP"]%string (boot clash_dir ∅))) !! "a.ico"%string)
     = Some (0, 0, 255, 255)) as H1 by (vm_compute; reflexivity).
  assert (first_pixel
       (files (snd (Replace.WebpToIcoConverter.convert_listed Replace.WEBP_TO_ICO_SIZE
                      ["a.WEBP"; "a.webp"]%string (boot clash_dir ∅))) !! "a.ico"%string)
     = Some (255, 0, 0, 255)) as H2 by (vm_compute; reflexivity).
  split_and!; [done | done |].
  intros Heq. rewrite Heq, H2 in H1. discriminate.
Qed.

Lemma written_files_do_not_depend_on_schedule_witness :
  [tiny_logo] !! 0%nat = Some tiny_logo
  /\ [Replace.LogoAssetsGenerator._generate_favicon_ico 0%nat;
      Replace.LogoAssetsGenerator._generate_png_icons 0%nat;
      Replace.LogoAssetsGenerator._generate_preview_images 0%nat]
     ≡ₚ Replace.LogoAssetsGenerator.tasks 0%nat
  /\ ["a.webp"; "b.webp"]%string ≡ₚ ["b.webp"; "a.webp"]%string
  /\ NoDup (map ico_path (List.filter is_webp ["a.webp"; "b.webp"]%string))
  /\ (exists h1 h2 fs' out1 out2,
        gather [Replace.LogoAssetsGenerator._generate_favicon_ico 0%nat;
                Replace.LogoAssetsGenerator._generate_png_icons 0%nat;
                Replace.LogoAssetsGenerator._generate_preview_images 0%nat]
          (mkWorld [tiny_logo] logo_dir ∅ [])
        = (Return tt, mkWorld h1 fs' ∅ out1)
        /\ gather (Replace.LogoAssetsGenerator.tasks 0%nat) (mkWorld [tiny_logo] logo_dir ∅ [])
           = (Return tt, mkWorld h2 fs' ∅ out2)
        /\ out1 ≡ₚ out2)
  /\ (exists h1 h2 fs' out1 out2,
        Replace.WebpToIcoConverter.convert_listed Replace.WEBP_TO_ICO_SIZE
          ["a.webp"; "b.webp"]%string (boot pair_dir ∅)
        = (Return tt, mkWorld h1 fs' ∅ out1)
        /\ Replace.WebpToIcoConverter.convert_listed Replace.WEBP_TO_ICO_SIZE
             ["b.webp"; "a.webp"]%string (boot pair_dir ∅)
           = (Return tt, mkWorld h2 fs' ∅ out2)
        /\ out1 ≡ₚ out2).
Proof.
  assert (NoDup (map ico_path (List.filter is_webp ["a.webp"; "b.webp"]%string))) as Hnd.
  { apply (bool_decide_unpack _). by vm_compute. }
  split; [reflexivity|]. split; [apply perm_swap|]. split; [apply perm_swap|].
  split; [exact Hnd|].
  apply (written_files_do_not_depend_on_schedule 0%nat tiny_logo [tiny_logo] logo_dir ∅ []
           _ Replace.WEBP_TO_ICO_SIZE pair_dir ["a.webp"; "b.webp"]%string
           ["b.webp"; "a.webp"]%string);
    [reflexivity | apply perm_swap | apply perm_swap | exact Hnd].
Defined.

(** ** The conservative variant *)

Section Skipping.
Context `{Numerics}.
Implicit Types (h : list Image) (fs : gmap string file) (ro : gset string) (out : list string).

Lemma save_eq h fs ro out r im path fmt opts :
  h !! r = Some im ->
  PIL.save r path fmt opts (mkWorld h fs ro out)
  = PIL.write im path fmt opts (mkWorld h fs ro out).
Proof. intros E. unfold PIL.save. by step (deref_eq _ fs ro out _ _ E). Qed.

Lemma path_exists_eq h fs ro out path :
  os.path_exists path (mkWorld h fs ro out)
  = (Return (bool_decide (is_Some (fs !! path))), mkWorld h fs ro out).
Proof. reflexivity. Qed.

Lemma convert_one_spec h fs ro out name :
  exists h',
    Conservative.convert_one name (mkWorld h fs ro out)
    = (Return tt,
       mkWorld h' (apply_outcome fs (skipping_conversion ro fs name)) ro
         (out ++ [outcome_line (skipping_conversion ro fs name)]))
    /\ h `prefix_of` h'.
Proof.
  unfold Conservative.convert_one, skipping_conversion.
  step (path_exists_eq h fs ro out (fst (splitext name) +:+ ".ico")).
  fold (ico_path name).
  destruct (fs !! ico_path name) as [old|] eqn:Hico.
  { rewrite bool_decide_eq_true_2 by eauto. by exists h. }
  rewrite bool_decide_eq_false_2 by (by intros [? ?]).
  unfold try_except, PIL.open at 1.
  destruct (fs !! name) as [f|] eqn:Hf.
  - destruct (PIL.decode f) as [im|] eqn:Hd.
    + assert (PIL.open name (mkWorld h fs ro out)
              = (Return (length h), mkWorld (h ++ [im]) fs ro out)) as Eo.
      { unfold PIL.open. simpl. by rewrite Hf, Hd. }
      fold (PIL.open name). step Eo.
      destruct (flatten_spec (h ++ [im]) fs ro out (length h) im (lookup_snoc h im))
        as (r1 & h1 & E1 & P1 & L1).
      step E1.
      destruct (resize_ok_spec h1 fs ro out r1 _ (64, 64) L1) as (r2 & h2 & E2 & P2 & L2);
        [done..|].
      unfold Replace.ImageResizer.resize in E2. step E2.
      exists h2. split; [|etrans; [by apply prefix_app_r|by etrans]].
      destruct (decide (ico_path name ∈ ro)) as [Hi|Hi].
      * by rewrite (bind_raise _ _ _ _ _
            (eq_trans (save_eq _ _ _ _ _ _ _ _ _ L2) (write_denied _ _ _ _ _ _ _ _ Hi))).
      * destruct (PIL.encode ICO (resized (flattened im) (64, 64))
                    (PIL.SaveOptions None (Some [(64, 64)]))) as [f'|e] eqn:He.
        -- by rewrite (bind_return _ _ _ _ _
                 (eq_trans (save_eq _ _ _ _ _ _ _ _ _ L2)
                    (write_ok _ _ _ _ _ _ ICO _ _ He Hi))).
        -- rewrite (bind_raise _ _ _ _ _
              (eq_trans (save_eq _ _ _ _ _ _ _ _ _ L2)
                 (write_refused _ _ _ _ _ _ ICO _ _ He Hi))).
           by rewrite Hico.
    + exists h. split; [|done]. fold (PIL.open name).
      assert (PIL.open name (mkWorld h fs ro out)
              = (Raise (Exception UnidentifiedImageError
                          ("cannot identify image file '" +:+ name +:+ "'")),
                 mkWorld h fs ro out)) as Eo.
      { unfold PIL.open. simpl. by rewrite Hf, Hd. }
      by rewrite (bind_raise _ _ _ _ _ Eo).
  - exists h. split; [|done]. fold (PIL.open name).
    assert (PIL.open name (mkWorld h fs ro out)
            = (Raise (Exception FileNotFoundError
                        ("[Errno 2] No such file or directory: '" +:+ name +:+ "'")),
               mkWorld h fs ro out)) as Eo.
    { unfold PIL.open. simpl. by rewrite Hf. }
    by rewrite (bind_raise _ _ _ _ _ Eo).
Qed.

(** A conversion of the conservative variant writes nothing, or creates
    the icon that was missing. *)
Lemma skipping_cases ro fs name :
  (exists line, skipping_conversion ro fs name = Unchanged line)
  \/ (fs !! ico_path name = None
      /\ exists f line, skipping_conversion ro fs name = Wrote (ico_path name) f line).
Proof.
  unfold skipping_conversion.
  destruct (fs !! ico_path name) eqn:Hico; [eauto|].
  destruct (fs !! name); [|eauto].
  destruct (PIL.decode _); [|eauto].
  case_decide; [eauto|].
  destruct (PIL.encode _ _ _); eauto 6.
Qed.

Lemma skipping_lookup_other ro fs name k :
  k <> ico_path name ->
  apply_outcome fs (skipping_conversion ro fs name) !! k = fs !! k.
Proof.
  intros Hk. destruct (skipping_cases ro fs name) as [(l & ->)|(_ & f & l & ->)]; simpl.
  - done.
  - by rewrite lookup_insert_ne.
Qed.

Lemma skipping_conversion_keeps ro fs name :
  fs ⊆ apply_outcome fs (skipping_conversion ro fs name).
Proof.
  destruct (skipping_cases ro fs name) as [(l & ->)|(Hico & f & l & ->)]; simpl.
  - done.
  - by apply insert_subseteq.
Qed.

Lemma convert_each_skipping ro names :
  forall h fs out,
    exists h',
      for_each names Conservative.convert_one (mkWorld h fs ro out)
      = (Return tt,
         mkWorld h' (fst (skip_converted ro (fs, out) names)) ro
           (snd (skip_converted ro (fs, out) names))).
Proof.
  induction names as [|name names IH]; intros h fs out; simpl.
  - by exists h.
  - destruct (convert_one_spec h fs ro out name) as (h1 & E1 & _).
    destruct (IH h1 (apply_outcome fs (skipping_conversion ro fs name))
                (out ++ [outcome_line (skipping_conversion ro fs name)])) as (h2 & E2).
    exists h2. step E1. exact E2.
Qed.

Lemma skip_converted_keeps ro names :
  forall st, fst st ⊆ fst (skip_converted ro st names).
Proof.
  induction names as [|name names IH]; intros st; simpl; [done|].
  etrans; [|apply IH]. simpl. apply skipping_conversion_keeps.
Qed.



Lemma skipping_skip ro fs name old :
  fs !! ico_path name = Some old ->
  skipping_conversion ro fs name
  = Unchanged ("(SKIP) '" +:+ fst (splitext name)
               +:+ ".ico' ya existe. Omitiendo conversión para '" +:+ name +:+ "'.").
Proof. intros Hico. unfold skipping_conversion. by rewrite Hico. Qed.

Lemma skipping_ok ro fs name f im :
  fs !! ico_path name = None -> fs !! name = Some f -> PIL.decode f = Some im ->
  ico_path name ∉ ro -> PIL.png_writes (flattened im) = true ->
  skipping_conversion ro fs name
  = Wrote (ico_path name) (Encoded ICO [resized (flattened im) (64, 64)] None)
      ("✅ Generado: " +:+ fst (splitext name) +:+ ".ico (fuente: " +:+ name +:+ ")").
Proof.
  intros Hico Hf Hd Hro Hk. unfold skipping_conversion.
  rewrite Hico, Hf, Hd, decide_False by done.
  rewrite encode_ICO_one by (apply ico_frames_single; [apply resized_size | lia]).
  by rewrite png_writes_resized, Hk.
Qed.

(** The PNG encoder refuses the flattened source: the conversion reports
    it and writes nothing. *)
Lemma skipping_refused ro fs name f im :
  fs !! ico_path name = None -> fs !! name = Some f -> PIL.decode f = Some im ->
  ico_path name ∉ ro -> PIL.png_writes (flattened im) = false ->
  skipping_conversion ro fs name
  = Unchanged ("❌ Error convirtiendo '" +:+ name +:+ "' a .ico: "
               +:+ "cannot unpack non-iterable int object").
Proof.
  intros Hico Hf Hd Hro Hk. unfold skipping_conversion.
  rewrite Hico, Hf, Hd, decide_False by done.
  rewrite encode_ICO_one by (apply ico_frames_single; [apply resized_size | lia]).
  by rewrite png_writes_resized, Hk.
Qed.

Lemma ico_path_a : ico_path "a.webp" = "a.ico"%string.
Proof. vm_compute. reflexivity. Qed.

Lemma ico_path_b : ico_path "b.webp" = "b.ico"%string.
Proof. vm_compute. reflexivity. Qed.

(** The two conversions of the scenario, in any directory that has the
    first icon and the second source. *)
Lemma scenario_skips_a ro fs old :
  fs !! "a.ico"%string = Some old ->
  skipping_conversion ro fs "a.webp"
  = Unchanged "(SKIP) 'a.ico' ya existe. Omitiendo conversión para 'a.webp'.".
Proof.
  intros Hfs. rewrite <- ico_path_a in Hfs.
  rewrite (skipping_skip ro fs "a.webp" old Hfs). f_equal.
Qed.

Lemma scenario_writes_b ro fs fb imb :
  fs !! "b.ico"%string = None -> fs !! "b.webp"%string = Some fb ->
  PIL.decode fb = Some imb -> "b.ico"%string ∉ ro ->
  PIL.png_writes (flattened imb) = true ->
  skipping_conversion ro fs "b.webp"
  = Wrote "b.ico" (Encoded ICO [resized (flattened imb) (64, 64)] None)
      "✅ Generado: b.ico (fuente: b.webp)".
Proof.
  intros Hico Hf Hd Hro Hk. rewrite <- ico_path_b in Hico, Hro.
  rewrite (skipping_ok ro fs "b.webp" fb imb Hico Hf Hd Hro Hk).
  rewrite ico_path_b. f_equal.
Qed.

Lemma scenario_skips_b ro fs old :
  fs !! "b.ico"%string = Some old ->
  skipping_conversion ro fs "b.webp"
  = Unchanged "(SKIP) 'b.ico' ya existe. Omitiendo conversión para 'b.webp'.".
Proof.
  intros Hfs. rewrite <- ico_path_b in Hfs.
  rewrite (skipping_skip ro fs "b.webp" old Hfs). f_equal.
Qed.

Lemma conservative_bulk_run dir ro :
  exists h,
    run Conservative.convert_all_webp_to_ico dir ro
    = (Return tt,
       mkWorld h
         (fst (skip_converted ro (dir, []) (List.filter is_webp (elements (dom dir))))) ro
         (match List.filter is_webp (elements (dom dir)) with
          | [] => ["No se encontraron archivos .webp en el directorio."%string]
          | names => snd (skip_converted ro (dir, []) names)
          end)).
Proof.
  unfold run, boot, Conservative.convert_all_webp_to_ico.
  step (listdir_eq [] dir ro []). unfold Conservative.convert_listed.
  destruct (List.filter is_webp (elements (dom dir))) as [|name names] eqn:Hfilter.
  - by eexists.
  - destruct (convert_each_skipping ro (name :: names) [] dir []) as (h' & E).
    by exists h'.
Qed.

(** The listing of a directory whose only .webp sources are the two of
    the scenario, in the order the system gives them. *)
Lemma two_sources_listing (dir : gmap string file) fa fb :
  dir !! "a.webp"%string = Some fa -> dir !! "b.webp"%string = Some fb ->
  (forall name, is_Some (dir !! name) -> is_webp name = true ->
     name = "a.webp"%string \/ name = "b.webp"%string) ->
  List.filter is_webp (elements (dom dir)) ≡ₚ ["a.webp"; "b.webp"]%string.
Proof.
  intros Ha Hb Honly. apply NoDup_Permutation.
  - apply NoDup_ListNoDup, List.NoDup_filter, NoDup_ListNoDup, NoDup_elements.
  - apply NoDup_cons. split; [|apply NoDup_singleton].
    intros Hin%list_elem_of_singleton. discriminate Hin.
  - intros x. rewrite elem_of_filter_webp, listed_entry. split.
    + intros [Hs Hw]. destruct (Honly x Hs Hw) as [->| ->]; [by left | by right; left].
    + intros Hin. apply elem_of_cons in Hin as [->|Hin]; [eauto|].
      apply list_elem_of_singleton in Hin as ->. eauto.
Qed.

(** The run of the scenario: the directory it leaves is what the
    conversion of b.webp makes of the directory it started in, and the
    console holds the skip notice of a.webp and the line of b.webp. *)
Lemma scenario_run dir ro fa fb old :
  dir !! "a.webp"%string = Some fa -> dir !! "b.webp"%string = Some fb ->
  dir !! "a.ico"%string = Some old ->
  (forall name, is_Some (dir !! name) -> is_webp name = true ->
     name = "a.webp"%string \/ name = "b.webp"%string) ->
  exists h out,
    run Conservative.convert_all_webp_to_ico dir ro
    = (Return tt,
       mkWorld h (apply_outcome dir (skipping_conversion ro dir "b.webp")) ro out)
    /\ out ≡ₚ ["(SKIP) 'a.ico' ya existe. Omitiendo conversión para 'a.webp'."%string;
               outcome_line (skipping_conversion ro dir "b.webp")].
Proof.
  intros Ha Hb Hold Honly.
  destruct (conservative_bulk_run dir ro) as (h & E).
  pose proof (two_sources_listing dir fa fb Ha Hb Honly) as Hl.
  symmetry in Hl. apply Permutation_length_2_inv in Hl as [Hl | Hl]; rewrite Hl in E.
  - unfold skip_converted, skip_step in E. cbn [foldl fst snd] in E.
    rewrite (scenario_skips_a ro dir old Hold) in E.
    cbn [apply_outcome outcome_line fst snd app] in E.
    exists h. eexists. split; [exact E | reflexivity].
  - unfold skip_converted, skip_step in E. cbn [foldl fst snd] in E.
    assert (apply_outcome dir (skipping_conversion ro dir "b.webp") !! "a.ico"%string
            = Some old) as Hold'.
    { rewrite skipping_lookup_other; [done|]. by rewrite ico_path_b. }
    rewrite (scenario_skips_a ro _ old Hold') in E.
    cbn [apply_outcome outcome_line fst snd app] in E.
    exists h. eexists. split; [exact E | apply perm_swap].
Qed.

End Skipping.

(** C7: in every directory that holds a.webp, b.webp and an a.ico, and no
    other .webp source, the bulk conversion of the conservative variant
    returns normally, changes no entry other than b.ico, leaves a.ico with
    the content it had, and prints two lines, one of them the skip notice
    for a.ico.  Where b.ico is missing and may be written and b.webp is an
    image the encoder takes, the run leaves the directory with b.ico added,
    holding the icon made from b.webp, and the other line reports it; where
    b.ico exists, the directory is left as it was. *)
Theorem skip_if_exists_scenario `{Numerics} dir ro fa fb old :
  dir !! "a.webp"%string = Some fa -> dir !! "b.webp"%string = Some fb ->
  dir !! "a.ico"%string = Some old ->
  (forall name, is_Some (dir !! name) -> is_webp name = true ->
     name = "a.webp"%string \/ name = "b.webp"%string) ->
  exists w',
    run Conservative.convert_all_webp_to_ico dir ro = (Return tt, w')
    /\ (forall k, k <> "b.ico"%string -> files w' !! k = dir !! k)
    /\ files w' !! "a.ico"%string = Some old
    /\ "(SKIP) 'a.ico' ya existe. Omitiendo conversión para 'a.webp'."%string ∈ stdout w'
    /\ length (stdout w') = 2%nat
    /\ (forall imb,
          dir !! "b.ico"%string = None -> PIL.decode fb = Some imb ->
          PIL.png_writes (flattened imb) = true -> "b.ico"%string ∉ ro ->
          files w'
          = <["b.ico"%string := Encoded ICO [resized (flattened imb) (64, 64)] None]> dir
          /\ stdout w'
             ≡ₚ ["(SKIP) 'a.ico' ya existe. Omitiendo conversión para 'a.webp'.";
                 "✅ Generado: b.ico (fuente: b.webp)"]%string)
    /\ (is_Some (dir !! "b.ico"%string) -> files w' = dir).
Proof.
  intros Ha Hb Hold Honly.
  destruct (scenario_run dir ro fa fb old Ha Hb Hold Honly) as (h & out & E & Hout).
  eexists. split; [exact E|]. cbn [files stdout].
  assert (forall k, k <> "b.ico"%string ->
            apply_outcome dir (skipping_conversion ro dir "b.webp") !! k = dir !! k) as Hk.
  { intros k Hne. apply skipping_lookup_other. by rewrite ico_path_b. }
  split_and!.
  - exact Hk.
  - by rewrite Hk.
  - rewrite Hout. by left.
  - by rewrite Hout.
  - intros imb Hico Hd Hw Hro.
    rewrite (scenario_writes_b ro dir fb imb Hico Hb Hd Hro Hw) in Hout |- *.
    split; [reflexivity | exact Hout].
  - intros [g Hg]. by rewrite (scenario_skips_b ro dir g Hg).
Qed.

Lemma skip_if_exists_scenario_witness :
  exists w',
    run Conservative.convert_all_webp_to_ico scenario_dir ∅ = (Return tt, w')
    /\ files w' !! "a.ico"%string = Some (Junk "old")
    /\ "(SKIP) 'a.ico' ya existe. Omitiendo conversión para 'a.webp'."%string ∈ stdout w'
    /\ files w'
       = <["b.ico"%string := Encoded ICO [resized (flattened blue_pixel) (64, 64)] None]>
           scenario_dir.
Proof.
  assert (scenario_dir !! "a.webp"%string = Some (Encoded WEBP [red_pixel] None)) as Ha
    by (by vm_compute).
  assert (scenario_dir !! "b.webp"%string = Some (Encoded WEBP [blue_pixel] None)) as Hb
    by (by vm_compute).
  assert (scenario_dir !! "a.ico"%string = Some (Junk "old")) as Hold by (by vm_compute).
  assert (scenario_dir !! "b.ico"%string = None) as Hico by (by vm_compute).
  assert (forall name, is_Some (scenario_dir !! name) -> is_webp name = true ->
            name = "a.webp"%string \/ name = "b.webp"%string) as Honly.
  { intros name [g Hg] Hw. unfold scenario_dir, skip_scenario in Hg.
    apply lookup_insert_Some in Hg as [[<- _]|[_ Hg]]; [discriminate Hw|].
    apply lookup_insert_Some in Hg as [[<- _]|[_ Hg]]; [by left|].
    apply lookup_insert_Some in Hg as [[<- _]|[_ Hg]]; [by right|].
    apply lookup_singleton_Some in Hg as [<- _]. discriminate Hw. }
  assert (PIL.decode (Encoded WEBP [blue_pixel] None) = Some blue_pixel) as Hd
    by reflexivity.
  destruct (skip_if_exists_scenario scenario_dir ∅ (Encoded WEBP [red_pixel] None)
              (Encoded WEBP [blue_pixel] None) (Junk "old") Ha Hb Hold Honly)
    as (w' & E & _ & Hkeep & Hskip & _ & Hnew & _).
  destruct (Hnew blue_pixel Hico Hd eq_refl (not_elem_of_empty _)) as [Hfiles _].
  exists w'. split_and!; [exact E | exact Hkeep | exact Hskip | exact Hfiles].
Defined.

(** ** What the conservative variant keeps *)

Lemma fill_lookup ro ok (fs : gmap string file) name f :
  fill ro ok fs name f !! name
  = match fs !! name with
    | Some old => Some old
    | None => if decide (name ∈ ro) then None else if ok then Some f else None
    end.
Proof.
  unfold fill. destruct (fs !! name) eqn:E; [done|].
  case_decide; [done|]. destruct ok; [|done]. by rewrite lookup_insert_eq.
Qed.

Lemma fill_lookup_ne ro ok (fs : gmap string file) name f k :
  k <> name -> fill ro ok fs name f !! k = fs !! k.
Proof.
  intros Hk. unfold fill. destruct (fs !! name); [done|].
  case_decide; [done|]. destruct ok; [|done]. by rewrite lookup_insert_ne.
Qed.

Lemma fill_keeps ro ok (fs : gmap string file) name f : fs ⊆ fill ro ok fs name f.
Proof.
  unfold fill. destruct (fs !! name) eqn:E; [done|].
  case_decide; [done|]. destruct ok; [|done]. by apply insert_subseteq.
Qed.

Lemma fill_all_keeps ro ok (rows : list (string * file)) :
  forall fs, fs ⊆ foldl (fun fs row => fill ro ok fs (fst row) (snd row)) fs rows.
Proof.
  induction rows as [|row rows IH]; intros fs; simpl; [done|].
  etrans; [|apply IH]. apply fill_keeps.
Qed.

Lemma fill_all_lookup_other ro ok (rows : list (string * file)) k :
  k ∉ map fst rows ->
  forall fs, foldl (fun fs row => fill ro ok fs (fst row) (snd row)) fs rows !! k = fs !! k.
Proof.
  induction rows as [|row rows IH]; intros Hk fs; simpl; [done|].
  simpl in Hk. apply not_elem_of_cons in Hk as [Hne Hk].
  rewrite IH by done. by apply fill_lookup_ne.
Qed.

Lemma fill_all_lookup ro ok (rows : list (string * file)) name f :
  NoDup (map fst rows) -> (name, f) ∈ rows ->
  forall fs,
    foldl (fun fs row => fill ro ok fs (fst row) (snd row)) fs rows !! name
    = match fs !! name with
      | Some old => Some old
      | None => if decide (name ∈ ro) then None else if ok then Some f else None
      end.
Proof.
  induction rows as [|row rows IH]; intros Hnd Hin fs; simpl.
  - by apply elem_of_nil in Hin.
  - simpl in Hnd. apply NoDup_cons in Hnd as [Hrow Hnd].
    apply elem_of_cons in Hin as [<-|Hin].
    + rewrite fill_all_lookup_other by done. apply fill_lookup.
    + rewrite IH by done.
      assert (name <> fst row) as Hne.
      { intros Heq. apply Hrow. rewrite <- Heq.
        apply list_elem_of_In. apply (in_map fst rows (name, f)). by apply list_elem_of_In. }
      by rewrite fill_lookup_ne.
Qed.

Lemma conservative_output_names `{Numerics} logo :
  map fst (conservative_outputs logo)
  = ["favicon-16x16.png"; "favicon-32x32.png"; "apple-touch-icon.png"; "favicon.ico"]%string.
Proof. reflexivity. Qed.

Lemma conservative_output_names_NoDup `{Numerics} logo :
  NoDup (map fst (conservative_outputs logo)).
Proof. rewrite conservative_output_names. apply (bool_decide_unpack _). by vm_compute. Qed.

Section Keeping.
Context `{Numerics}.
Implicit Types (h : list Image) (fs : gmap string file) (ro : gset string) (out : list string).

Lemma generate_png_fills h fs ro out r im filename w hh :
  h !! r = Some im -> 1 <= w <= 256 -> 1 <= hh <= 256 ->
  exists h' out',
    Conservative.generate_png r (filename, (w, hh)) (mkWorld h fs ro out)
    = (Return tt,
       mkWorld h'
         (fill ro (PIL.png_writes im) fs filename (Encoded PNG [resized im (w, hh)] None))
         ro out')
    /\ h `prefix_of` h'
    /\ out `prefix_of` out'.
Proof.
  intros E Hw Hh. unfold Conservative.generate_png, fill.
  step (path_exists_eq h fs ro out filename).
  destruct (fs !! filename) as [old|] eqn:Hold.
  { rewrite bool_decide_eq_true_2 by eauto. eexists h, _. split_and!; [done | done | by apply prefix_app_r]. }
  rewrite bool_decide_eq_false_2 by (by intros [? ?]).
  unfold try_except.
  destruct (resize_ok_spec h fs ro out r im (w, hh) E Hw Hh) as (r2 & h2 & E2 & P2 & L2).
  unfold Replace.ImageResizer.resize in E2. step E2.
  destruct (decide (filename ∈ ro)) as [Hi|Hi].
  - rewrite (bind_raise _ _ _ _ _
       (eq_trans (save_eq _ _ _ _ _ _ _ _ _ L2) (write_denied _ _ _ _ _ _ _ _ Hi))).
    eexists h2, _. split_and!; [done | done | by apply prefix_app_r].
  - destruct (PIL.png_writes im) eqn:Hk.
    + rewrite (bind_return _ _ _ _ _
         (eq_trans (save_eq _ _ _ _ _ _ _ _ _ L2)
            (write_ok _ _ _ _ _ _ PNG _ _
               (encode_PNG_ok _ _ (eq_trans (png_writes_resized im (w, hh)) Hk)) Hi))).
      eexists h2, _. split_and!; [done | done | by apply prefix_app_r].
    + rewrite (bind_raise _ _ _ _ _
         (eq_trans (save_eq _ _ _ _ _ _ _ _ _ L2)
            (write_refused _ _ _ _ _ _ PNG _ _
               (encode_PNG_refused _ _ (eq_trans (png_writes_resized im (w, hh)) Hk)) Hi))).
      rewrite Hold. eexists h2, _. split_and!; [done | done | by apply prefix_app_r].
Qed.

Lemma conservative_resize_each_spec h fs ro out r im sides :
  h !! r = Some im -> Forall (fun s => 1 <= s <= 256) sides ->
  exists rs h',
    Conservative.resize_each r sides (mkWorld h fs ro out)
      = (Return rs, mkWorld h' fs ro out)
    /\ h `prefix_of` h'
    /\ Forall2 (fun r' s => h' !! r' = Some (resized im (s, s))) rs sides.
Proof.
  intros E Hs. revert h E. induction Hs as [|s sides Hs _ IH]; intros h E; simpl.
  - exists [], h. done.
  - destruct (resize_ok_spec h fs ro out r im (s, s) E Hs Hs) as (r1 & h1 & E1 & P1 & L1).
    unfold Replace.ImageResizer.resize in E1.
    destruct (IH h1 (prefix_lookup_Some _ _ _ _ E P1)) as (rs & h2 & E2 & P2 & L2).
    exists (r1 :: rs), h2. step E1. step E2. split_and!; [done | by etrans |].
    constructor; [|done]. by eapply prefix_lookup_Some.
Qed.

Lemma generate_favicon_ico_fills h fs ro out r im :
  h !! r = Some im ->
  exists h' out',
    Conservative.generate_favicon_ico r (mkWorld h fs ro out)
    = (Return tt,
       mkWorld h'
         (fill ro (PIL.png_writes im) fs "favicon.ico"
            (Encoded ICO [resized im (16, 16)] None))
         ro out')
    /\ h `prefix_of` h'
    /\ out `prefix_of` out'.
Proof.
  intros E. unfold Conservative.generate_favicon_ico, fill.
  step (path_exists_eq h fs ro out "favicon.ico").
  destruct (fs !! "favicon.ico"%string) as [old|] eqn:Hold.
  { rewrite bool_decide_eq_true_2 by eauto. eexists h, _. split_and!; [done | done | by apply prefix_app_r]. }
  rewrite bool_decide_eq_false_2 by (by intros [? ?]).
  unfold try_except.
  destruct (conservative_resize_each_spec h fs ro out r im Conservative.icon_sizes E)
    as (rs & h2 & E2 & P2 & L2).
  { unfold Conservative.icon_sizes. repeat constructor; lia. }
  unfold Conservative.icon_sizes in L2.
  destruct rs as [|r16 rs]; [by inversion L2|].
  apply Forall2_cons in L2 as [L16 _].
  step E2. unfold Conservative.first at 1.
  change ((ret r16 ≫= ?k) ?w) with (k r16 w). cbv beta.
  destruct (decide ("favicon.ico"%string ∈ ro)) as [Hi|Hi].
  - rewrite (bind_raise _ _ _ _ _
       (eq_trans (save_eq _ _ _ _ _ _ _ _ _ L16) (write_denied _ _ _ _ _ _ _ _ Hi))).
    eexists h2, _. split_and!; [done | done | by apply prefix_app_r].
  - pose proof (encode_ICO_one (resized im (16, 16))
                  (map (fun size => (size, size)) Conservative.icon_sizes)
                  (ico_frames_first _ (resized_size im (16, 16)))) as Henc.
    rewrite png_writes_resized in Henc.
    destruct (PIL.png_writes im) eqn:Hk.
    + rewrite (bind_return _ _ _ _ _
         (eq_trans (save_eq _ _ _ _ _ _ _ _ _ L16)
            (write_ok _ _ _ _ _ _ ICO _ _ Henc Hi))).
      eexists h2, _. split_and!; [done | done | by apply prefix_app_r].
    + rewrite (bind_raise _ _ _ _ _
         (eq_trans (save_eq _ _ _ _ _ _ _ _ _ L16)
            (write_refused _ _ _ _ _ _ ICO _ _ Henc Hi))).
      rewrite Hold. eexists h2, _. split_and!; [done | done | by apply prefix_app_r].
Qed.

(** Mode B of the conservative variant on a directory whose logo decodes:
    the four guarded saves, in order, whatever the console holds. *)
Lemma conservative_mode_b_from dir ro out0 f logo :
  dir !! "logo.png"%string = Some f -> PIL.decode f = Some logo ->
  exists h out,
    Conservative.generate_icons_from_logo (mkWorld [] dir ro out0)
    = (Return tt,
       mkWorld h
         (foldl (fun fs row => fill ro (PIL.png_writes (flattened logo)) fs (fst row) (snd row))
            dir (conservative_outputs logo))
         ro out)
    /\ out0 `prefix_of` out.
Proof.
  intros Hf Hd.
  unfold Conservative.generate_icons_from_logo.
  step (path_exists_eq [] dir ro out0 "logo.png").
  rewrite bool_decide_eq_true_2 by eauto. change (negb true) with false. cbv iota.
  assert (PIL.open "logo.png" (mkWorld [] dir ro out0)
          = (Return 0%nat, mkWorld [logo] dir ro out0)) as Eo.
  { unfold PIL.open. simpl. by rewrite Hf, Hd. }
  destruct (flatten_spec [logo] dir ro out0 0%nat logo eq_refl) as (r1 & h1 & E1 & P1 & L1).
  match goal with
  | |- exists h out, (try_except ?body ?handler ≫= ?k) ?w = _ /\ _ =>
      assert (try_except body handler w = (Return (Some r1), mkWorld h1 dir ro out0)) as Et
  end.
  { unfold try_except. step Eo. by step E1. }
  step Et. unfold conservative_outputs, Conservative.generate_from, Conservative.targets.
  cbn [map app foldl fst snd].
  destruct (generate_png_fills h1 dir ro out0 r1 _ "favicon-16x16.png" 16 16 L1)
    as (h2 & out2 & E2 & P2 & O2); [lia | lia |].
  pose proof (prefix_lookup_Some _ _ _ _ L1 P2) as L2.
  revert E2. generalize (fill ro (PIL.png_writes (flattened logo)) dir "favicon-16x16.png"
                           (Encoded PNG [resized (flattened logo) (16, 16)] None)).
  intros fs2 E2.
  destruct (generate_png_fills h2 fs2 ro out2 r1 _ "favicon-32x32.png" 32 32 L2)
    as (h3 & out3 & E3 & P3 & O3); [lia | lia |].
  pose proof (prefix_lookup_Some _ _ _ _ L2 P3) as L3.
  revert E3. generalize (fill ro (PIL.png_writes (flattened logo)) fs2 "favicon-32x32.png"
                           (Encoded PNG [resized (flattened logo) (32, 32)] None)).
  intros fs3 E3.
  destruct (generate_png_fills h3 fs3 ro out3 r1 _ "apple-touch-icon.png" 180 180 L3)
    as (h4 & out4 & E4 & P4 & O4); [lia | lia |].
  pose proof (prefix_lookup_Some _ _ _ _ L3 P4) as L4.
  revert E4. generalize (fill ro (PIL.png_writes (flattened logo)) fs3 "apple-touch-icon.png"
                           (Encoded PNG [resized (flattened logo) (180, 180)] None)).
  intros fs4 E4.
  destruct (generate_favicon_ico_fills h4 fs4 ro out4 r1 _ L4) as (h5 & out5 & E5 & P5 & O5).
  assert (for_each [("favicon-16x16.png"%string, (16, 16));
                    ("favicon-32x32.png"%string, (32, 32));
                    ("apple-touch-icon.png"%string, (180, 180))]
            (Conservative.generate_png r1) (mkWorld h1 dir ro out0)
          = (Return tt, mkWorld h4 fs4 ro out4)) as Ef.
  { cbn [for_each]. step E2. step E3. by step E4. }
  exists h5, out5. split; [step Ef; exact E5|].
  by repeat (etrans; [eassumption|]).
Qed.

Lemma conservative_mode_b_run dir ro f logo :
  dir !! "logo.png"%string = Some f -> PIL.decode f = Some logo ->
  exists h out,
    run Conservative.generate_icons_from_logo dir ro
    = (Return tt,
       mkWorld h
         (foldl (fun fs row => fill ro (PIL.png_writes (flattened logo)) fs (fst row) (snd row))
            dir (conservative_outputs logo))
         ro out).
Proof.
  intros Hf Hd.
  destruct (conservative_mode_b_from dir ro [] f logo Hf Hd) as (h & out & E & _).
  by exists h, out.
Qed.


End Keeping.






Lemma rgba_of_size im : im_size (rgba_of im) = im_size im.
Proof. unfold rgba_of. by case_decide. Qed.







(** * Further properties of the scripts *)

Lemma filter_none {A} (f : A -> bool) (l : list A) :
  (forall x, x ∈ l -> f x = false) -> List.filter f l = [].
Proof.
  induction l as [|x l IH]; intros Hl; simpl; [done|].
  rewrite (Hl x) by by left. apply IH. intros y Hy. apply Hl. by right.
Qed.

(** The bulk conversion in a directory without .webp entries: both variants
    print the notice, write nothing and allocate nothing. *)
Theorem bulk_conversion_without_sources `{Numerics} ico_size dir ro :
  (forall name, is_Some (dir !! name) -> is_webp name = false) ->
  run (Replace.WebpToIcoConverter.convert_all_webp_to_ico ico_size) dir ro
  = (Return tt, mkWorld [] dir ro ["No se encontraron archivos .webp en el directorio."])
  /\ run Conservative.convert_all_webp_to_ico dir ro
     = (Return tt, mkWorld [] dir ro ["No se encontraron archivos .webp en el directorio."]).
Proof.
  intros Hnone.
  assert (List.filter is_webp (elements (dom dir)) = []) as Hf.
  { apply filter_none. intros name Hin. by apply Hnone, listed_entry. }
  split.
  - unfold run, boot, Replace.WebpToIcoConverter.convert_all_webp_to_ico.
    step (listdir_eq [] dir ro []).
    unfold Replace.WebpToIcoConverter.convert_listed. by rewrite Hf.
  - unfold run, boot, Conservative.convert_all_webp_to_ico.
    step (listdir_eq [] dir ro []).
    unfold Conservative.convert_listed. by rewrite Hf.
Qed.

Lemma bulk_conversion_without_sources_witness :
  (forall name, is_Some (logo_dir !! name) -> is_webp name = false)
  /\ run (Replace.WebpToIcoConverter.convert_all_webp_to_ico Replace.WEBP_TO_ICO_SIZE)
       logo_dir ∅
     = (Return tt, mkWorld [] logo_dir ∅ ["No se encontraron archivos .webp en el directorio."])
  /\ run Conservative.convert_all_webp_to_ico logo_dir ∅
     = (Return tt, mkWorld [] logo_dir ∅ ["No se encontraron archivos .webp en el directorio."]).
Proof.
  assert (forall name, is_Some (logo_dir !! name) -> is_webp name = false) as Hnone.
  { intros name [f Hf]. unfold logo_dir in Hf.
    apply lookup_singleton_Some in Hf as [<- _]. reflexivity. }
  split; [exact Hnone|].
  exact (bulk_conversion_without_sources Replace.WEBP_TO_ICO_SIZE logo_dir ∅ Hnone).
Defined.

(** A logo that exists but is not an image: both variants report the
    error of the decoder, write nothing and return normally. *)
Theorem undecodable_logo_is_reported `{Numerics} dir ro f :
  dir !! Replace.LOGO_FILENAME = Some f -> PIL.decode f = None ->
  run (Replace.LogoAssetsGenerator.generate_all_assets Replace.LOGO_FILENAME) dir ro
  = (Return tt,
     mkWorld [] dir ro
       ["❌ Error abriendo 'logo.png': cannot identify image file 'logo.png'"])
  /\ run Conservative.generate_icons_from_logo dir ro
     = (Return tt,
        mkWorld [] dir ro
          ["❌ Error abriendo 'logo.png': cannot identify image file 'logo.png'"]).
Proof.
  intros Hf Hd. change Replace.LOGO_FILENAME with "logo.png"%string in Hf.
  assert (os.path_exists "logo.png" (mkWorld [] dir ro [])
          = (Return true, mkWorld [] dir ro [])) as Hex.
  { rewrite path_exists_eq. by rewrite Hf, bool_decide_eq_true_2. }
  assert (PIL.open "logo.png" (mkWorld [] dir ro [])
          = (Raise (Exception UnidentifiedImageError
                      "cannot identify image file 'logo.png'"),
             mkWorld [] dir ro [])) as Eo.
  { unfold PIL.open. simpl. by rewrite Hf, Hd. }
  split.
  - unfold run, boot, Replace.LogoAssetsGenerator.generate_all_assets.
    change Replace.LOGO_FILENAME with "logo.png"%string.
    step Hex. change (negb true) with false. cbv iota.
    match goal with
    | |- (try_except ?body ?handler ≫= ?k) ?w = _ =>
        assert (try_except body handler w
                = (Return None,
                   mkWorld [] dir ro
                     ["❌ Error abriendo 'logo.png': cannot identify image file 'logo.png'"]))
          as Et
    end.
    { unfold try_except, Replace.ImageIOManager.load_image.
      assert ((found ← os.path_exists "logo.png";
               if String.eqb "logo.png" "" || negb found
               then raise FileNotFoundError ("No se encontró el archivo: " +:+ "logo.png")
               else PIL.open "logo.png") (mkWorld [] dir ro [])
              = (Raise (Exception UnidentifiedImageError
                          "cannot identify image file 'logo.png'"),
                 mkWorld [] dir ro [])) as El.
      { step Hex. exact Eo. }
      by rewrite (bind_raise _ _ _ _ _ El). }
    by step Et.
  - unfold run, boot, Conservative.generate_icons_from_logo.
    step Hex. change (negb true) with false. cbv iota.
    match goal with
    | |- (try_except ?body ?handler ≫= ?k) ?w = _ =>
        assert (try_except body handler w
                = (Return None,
                   mkWorld [] dir ro
                     ["❌ Error abriendo 'logo.png': cannot identify image file 'logo.png'"]))
          as Et
    end.
    { unfold try_except. by rewrite (bind_raise _ _ _ _ _ Eo). }
    by step Et.
Qed.

Lemma undecodable_logo_is_reported_witness :
  ({[ "logo.png"%string := Junk "not an image" ]} : gmap string file)
    !! Replace.LOGO_FILENAME = Some (Junk "not an image")
  /\ PIL.decode (Junk "not an image") = None
  /\ run (Replace.LogoAssetsGenerator.generate_all_assets Replace.LOGO_FILENAME)
       {[ "logo.png"%string := Junk "not an image" ]} ∅
     = (Return tt,
        mkWorld [] {[ "logo.png"%string := Junk "not an image" ]} ∅
          ["❌ Error abriendo 'logo.png': cannot identify image file 'logo.png'"])
  /\ run Conservative.generate_icons_from_logo
       {[ "logo.png"%string := Junk "not an image" ]} ∅
     = (Return tt,
        mkWorld [] {[ "logo.png"%string := Junk "not an image" ]} ∅
          ["❌ Error abriendo 'logo.png': cannot identify image file 'logo.png'"]).
Proof.
  split; [reflexivity|]. split; [reflexivity|].
  apply (undecodable_logo_is_reported {[ "logo.png"%string := Junk "not an image" ]} ∅
           (Junk "not an image")); reflexivity.
Defined.

(** ** The bulk conversion of the replace variant, entry by entry *)

Lemma checked_resize_granted `{Numerics} im size :
  0 < fst size < 2 ^ 31 -> 0 < snd size < 2 ^ 31 -> grants size = true ->
  checked_resize im size = Return (resized im size).
Proof.
  intros Hw Hh Hg. unfold checked_resize, resized. case_decide; [done|].
  rewrite !c_int_in by lia. simpl.
  assert ((fst size <? 1) || (snd size <? 1) = false) as ->.
  { apply orb_false_iff. split; apply Z.ltb_ge; lia. }
  by rewrite Hg.
Qed.

Lemma checked_resize_ok `{Numerics} im s :
  1 <= s <= 256 -> checked_resize im (s, s) = Return (resized im (s, s)).
Proof.
  intros Hs. apply checked_resize_granted; simpl; [lia | lia | by apply grants_icon].
Qed.

Lemma checked_resize_overflow `{Numerics} im s :
  0 < im_width im < 2 ^ 31 -> s < - 2 ^ 31 \/ 2 ^ 31 <= s ->
  checked_resize im (s, s) = Raise (Exception OverflowError (PIL.c_int_error s)).
Proof.
  intros Hw Hs. unfold checked_resize.
  case_decide as Heq.
  - unfold im_width in Hw. rewrite Heq in Hw. simpl in Hw. lia.
  - simpl. by rewrite c_int_out.
Qed.

Lemma decode_positive `{Numerics} f im :
  PIL.decode f = Some im -> 0 < im_width im /\ 0 < im_height im.
Proof.
  unfold PIL.decode. destruct (PIL.decoded f) as [im'|]; [|done].
  destruct ((0 <? im_width im') && (0 <? im_height im')) eqn:Hpos; [|done].
  intros [= <-]. apply andb_true_iff in Hpos as [Hw Hh].
  split; by apply Z.ltb_lt.
Qed.

Lemma checked_resize_empty_target `{Numerics} im s :
  0 < im_width im -> - 2 ^ 31 <= s < 1 ->
  checked_resize im (s, s) = Raise (Exception ValueError "height and width must be > 0").
Proof.
  intros Hw Hs. unfold checked_resize.
  case_decide as Heq.
  - unfold im_width in Hw. rewrite Heq in Hw. simpl in Hw. lia.
  - simpl. rewrite c_int_in by lia. simpl.
    by assert ((s <? 1) = true) as -> by (apply Z.ltb_lt; lia).
Qed.

Lemma ico_frames_too_large `{Numerics} im s : 256 < s -> PIL.ico_frames im [(s, s)] = [].
Proof.
  intros Hs. unfold PIL.ico_frames. simpl. unfold PIL.ico_skips. simpl.
  assert ((256 <? s) = true) as -> by (by apply Z.ltb_lt).
  by rewrite !orb_true_r.
Qed.

(** The entry at the destination of [name] after a list of conversions,
    when no other listed name shares the destination. *)
Lemma converted_lookup `{Numerics} ico_size ro dir name names :
  (forall other, other ∈ names -> ico_path other = ico_path name -> other = name) ->
  forall fs,
    foldl apply_outcome fs (conversions ico_size ro dir names) !! ico_path name
    = if decide (name ∈ names)
      then outcome_entry (conversion ico_size ro (dir !! name) name) (fs !! ico_path name)
      else fs !! ico_path name.
Proof.
  induction names as [|x names IH]; intros Hu fs.
  - by rewrite decide_False by apply not_elem_of_nil.
  - change (foldl apply_outcome fs (conversions ico_size ro dir (x :: names)))
      with (foldl apply_outcome (apply_outcome fs (conversion ico_size ro (dir !! x) x))
              (conversions ico_size ro dir names)).
    rewrite IH by (intros other Ho; apply Hu; by right).
    destruct (decide (x = name)) as [->|Hx].
    + rewrite (decide_True (P := name ∈ name :: names)) by by left.
      rewrite apply_outcome_lookup.
      pose proof (conversion_path ico_size ro (dir !! name) name) as Hp.
      destruct (conversion ico_size ro (dir !! name) name) as [path f l|path l|l];
        simpl in *; repeat case_decide; destruct Hp as [Hp|Hp]; simplify_eq; try done.
      by destruct (fs !! ico_path name).
    + assert (ico_path x <> ico_path name) as Hp.
      { intros Heq. apply Hx, Hu; [by left|done]. }
      rewrite apply_conversion_lookup by done.
      destruct (decide (name ∈ names)) as [Hin|Hin].
      * by rewrite decide_True by by right.
      * rewrite decide_False; [done|].
        intros [Heq|Hin']%elem_of_cons; [by symmetry in Heq|done].
Qed.

(** Entries that are no listed destination are not touched. *)
Lemma converted_lookup_other `{Numerics} ico_size ro dir names k :
  (forall name, name ∈ names -> ico_path name <> k) ->
  forall fs, foldl apply_outcome fs (conversions ico_size ro dir names) !! k = fs !! k.
Proof.
  induction names as [|x names IH]; intros Hk fs; [done|].
  change (foldl apply_outcome fs (conversions ico_size ro dir (x :: names)))
    with (foldl apply_outcome (apply_outcome fs (conversion ico_size ro (dir !! x) x))
            (conversions ico_size ro dir names)).
  rewrite IH by (intros name Hn; apply Hk; by right).
  apply apply_conversion_lookup. intros Heq. by apply (Hk x); [left|].
Qed.

Lemma replace_bulk_run `{Numerics} ico_size dir ro :
  exists h,
    run (Replace.WebpToIcoConverter.convert_all_webp_to_ico ico_size) dir ro
    = (Return tt,
       mkWorld h (converted ico_size ro dir (List.filter is_webp (elements (dom dir)))) ro
         (bulk_report ico_size ro dir (List.filter is_webp (elements (dom dir))))).
Proof.
  destruct (convert_listed_spec ico_size (elements (dom dir)) dir ro) as (h & E).
  exists h. unfold run, Replace.WebpToIcoConverter.convert_all_webp_to_ico.
  unfold boot in *. by step (listdir_eq [] dir ro []).
Qed.

Lemma bulk_report_line `{Numerics} ico_size ro dir names name :
  name ∈ names ->
  outcome_line (conversion ico_size ro (dir !! name) name)
  ∈ bulk_report ico_size ro dir names.
Proof.
  intros Hin. unfold bulk_report, conversions.
  destruct names as [|x names]; [by apply elem_of_nil in Hin|].
  apply list_elem_of_In, in_map.
  apply (in_map (fun n => conversion ico_size ro (dir !! n) n)).
  by apply list_elem_of_In.
Qed.

(** In the bulk conversion of the replace variant, a listed source that
    decodes, whose destination may be written and is shared with no other
    listed source, is converted whatever the other files do and whatever the
    destination held: for a side between 1 and 256 the destination holds
    one RGBA frame of that side, and the line that reports it is printed. *)
Theorem bulk_conversion_replaces_icon `{Numerics} ico_size dir ro name f im :
  1 <= ico_size <= 256 ->
  dir !! name = Some f -> is_webp name = true -> PIL.decode f = Some im ->
  ico_path name ∉ ro ->
  (forall other, is_Some (dir !! other) -> is_webp other = true ->
     ico_path other = ico_path name -> other = name) ->
  exists w',
    run (Replace.WebpToIcoConverter.convert_all_webp_to_ico ico_size) dir ro = (Return tt, w')
    /\ files w' !! ico_path name
       = Some (Encoded ICO [resized (rgba_of im) (ico_size, ico_size)] None)
    /\ im_size (resized (rgba_of im) (ico_size, ico_size)) = (ico_size, ico_size)
    /\ im_mode (resized (rgba_of im) (ico_size, ico_size)) = RGBA
    /\ ("✅ Generado (reemplazado si existía): " +:+ fst (splitext name) +:+ ".ico")
       ∈ stdout w'.
Proof.
  intros Hs Hf Hw Hd Hro Hu.
  destruct (replace_bulk_run ico_size dir ro) as (h & E).
  set (webp_files := List.filter is_webp (elements (dom dir))) in E.
  assert (name ∈ webp_files) as Hin.
  { apply elem_of_filter_webp. split; [|done]. apply listed_entry. eauto. }
  assert (conversion ico_size ro (dir !! name) name
          = Wrote (ico_path name)
              (Encoded ICO [resized (rgba_of im) (ico_size, ico_size)] None)
              ("✅ Generado (reemplazado si existía): " +:+ fst (splitext name) +:+ ".ico"))
    as Hc.
  { unfold conversion. rewrite Hf, Hd.
    rewrite checked_resize_ok by done.
    rewrite decide_False by done.
    rewrite encode_ICO_one by (apply ico_frames_single; [apply resized_size | lia]).
    rewrite png_writes_mode; [done|].
    by rewrite resized_mode, rgba_of_mode. }
  eexists. split; [exact E|]. simpl. split_and!.
  - unfold converted. rewrite (converted_lookup ico_size ro dir name webp_files).
    + by rewrite decide_True, Hc by done.
    + intros other [Ho Hwo]%elem_of_filter_webp Heq.
      apply Hu; [by apply listed_entry | done | done].
  - apply resized_size.
  - by rewrite resized_mode, rgba_of_mode.
  - pose proof (bulk_report_line ico_size ro dir webp_files name Hin) as Hl.
    by rewrite Hc in Hl.
Qed.

Lemma bulk_conversion_replaces_icon_witness :
  1 <= Replace.WEBP_TO_ICO_SIZE <= 256
  /\ pair_dir !! "b.webp"%string = Some (Encoded WEBP [blue_pixel] None)
  /\ is_webp "b.webp" = true
  /\ PIL.decode (Encoded WEBP [blue_pixel] None) = Some blue_pixel
  /\ (ico_path "b.webp" ∉ (∅ : gset string))
  /\ (forall other, is_Some (pair_dir !! other) -> is_webp other = true ->
        ico_path other = ico_path "b.webp" -> other = "b.webp"%string)
  /\ exists w',
       run (Replace.WebpToIcoConverter.convert_all_webp_to_ico Replace.WEBP_TO_ICO_SIZE)
         pair_dir ∅
       = (Return tt, w')
       /\ files w' !! ico_path "b.webp"
          = Some (Encoded ICO
                    [resized (rgba_of blue_pixel)
                       (Replace.WEBP_TO_ICO_SIZE, Replace.WEBP_TO_ICO_SIZE)] None)
       /\ im_size (resized (rgba_of blue_pixel)
                     (Replace.WEBP_TO_ICO_SIZE, Replace.WEBP_TO_ICO_SIZE))
          = (Replace.WEBP_TO_ICO_SIZE, Replace.WEBP_TO_ICO_SIZE)
       /\ im_mode (resized (rgba_of blue_pixel)
                     (Replace.WEBP_TO_ICO_SIZE, Replace.WEBP_TO_ICO_SIZE)) = RGBA
       /\ ("✅ Generado (reemplazado si existía): " +:+ fst (splitext "b.webp") +:+ ".ico")
          ∈ stdout w'.
Proof.
  assert (forall other, is_Some (pair_dir !! other) -> is_webp other = true ->
            ico_path other = ico_path "b.webp" -> other = "b.webp"%string) as Hu.
  { intros other [g Hg] _ Hp. unfold pair_dir in Hg.
    apply lookup_insert_Some in Hg as [[<- _]|[_ Hg]].
    - vm_compute in Hp. discriminate Hp.
    - by apply lookup_singleton_Some in Hg as [<- _]. }
  split; [unfold Replace.WEBP_TO_ICO_SIZE; lia|].
  split; [by vm_compute|]. split; [reflexivity|]. split; [reflexivity|].
  split; [apply not_elem_of_empty|]. split; [exact Hu|].
  apply (bulk_conversion_replaces_icon Replace.WEBP_TO_ICO_SIZE pair_dir ∅ "b.webp"
           (Encoded WEBP [blue_pixel] None) blue_pixel);
    [unfold Replace.WEBP_TO_ICO_SIZE; lia | by vm_compute | reflexivity | reflexivity
    | apply not_elem_of_empty | exact Hu].
Defined.

(** The bulk conversion of the replace variant never lets an exception
    escape, never changes a .webp entry, and changes no entry other than
    the destination of a listed .webp file. *)
Theorem bulk_conversion_touches_only_icons `{Numerics} ico_size dir ro :
  exists w',
    run (Replace.WebpToIcoConverter.convert_all_webp_to_ico ico_size) dir ro = (Return tt, w')
    /\ (forall k, is_webp k = true -> files w' !! k = dir !! k)
    /\ (forall k, files w' !! k <> dir !! k ->
          exists name, is_Some (dir !! name) /\ is_webp name = true /\ k = ico_path name).
Proof.
  destruct (replace_bulk_run ico_size dir ro) as (h & E).
  eexists. split; [exact E|]. simpl. unfold converted. split.
  - intros k Hk. apply converted_lookup_other.
    intros name _. by apply ico_path_ne_webp.
  - intros k Hk.
    destruct (decide (Exists (fun name => ico_path name = k)
                        (List.filter is_webp (elements (dom dir))))) as [Hex|Hno].
    + apply Exists_exists in Hex as (name & [Hin Hw]%elem_of_filter_webp & Hp).
      exists name. split_and!; [by apply listed_entry | done | done].
    + exfalso. apply Hk. apply converted_lookup_other.
      intros name Hin Hp. apply Hno. apply Exists_exists. eauto.
Qed.

(** A side below 1 that fits a C int: every listed source that decodes
    reports the error of the resize, and the directory is left as it
    was. *)
Theorem bulk_conversion_rejects_empty_side `{Numerics} ico_size dir ro :
  - 2 ^ 31 <= ico_size < 1 ->
  exists h out,
    run (Replace.WebpToIcoConverter.convert_all_webp_to_ico ico_size) dir ro
    = (Return tt, mkWorld h dir ro out)
    /\ forall name f im,
         dir !! name = Some f -> is_webp name = true -> PIL.decode f = Some im ->
         ("❌ Error convirtiendo '" +:+ name +:+ "' a .ico: height and width must be > 0")
         ∈ out.
Proof.
  intros Hs.
  destruct (replace_bulk_run ico_size dir ro) as (h & E).
  assert (forall name, exists line,
            conversion ico_size ro (dir !! name) name = Unchanged line) as Hun.
  { intros name. unfold conversion.
    destruct (dir !! name) as [f|]; [|eauto].
    destruct (PIL.decode f) as [im|] eqn:Hd; [|eauto].
    destruct (decode_positive f im Hd) as [Hw _].
    rewrite checked_resize_empty_target; [eauto| |done].
    unfold im_width. by rewrite rgba_of_size. }
  assert (forall names fs, foldl apply_outcome fs (conversions ico_size ro dir names) = fs)
    as Hsame.
  { induction names as [|x names IH]; intros fs; [done|].
    change (foldl apply_outcome fs (conversions ico_size ro dir (x :: names)))
      with (foldl apply_outcome (apply_outcome fs (conversion ico_size ro (dir !! x) x))
              (conversions ico_size ro dir names)).
    rewrite IH. by destruct (Hun x) as (line & ->). }
  unfold converted in E. rewrite Hsame in E.
  eexists h, _. split; [exact E|].
  intros name f im Hf Hw Hd.
  assert (name ∈ List.filter is_webp (elements (dom dir))) as Hin.
  { apply elem_of_filter_webp. split; [|done]. apply listed_entry. eauto. }
  pose proof (bulk_report_line ico_size ro dir _ name Hin) as Hl.
  unfold conversion in Hl. rewrite Hf, Hd in Hl.
  destruct (decode_positive f im Hd) as [Hpos _].
  rewrite checked_resize_empty_target in Hl; [done| |done].
  unfold im_width. by rewrite rgba_of_size.
Qed.

Lemma bulk_conversion_rejects_empty_side_witness :
  - 2 ^ 31 <= 0 < 1
  /\ exists h out,
       run (Replace.WebpToIcoConverter.convert_all_webp_to_ico 0) pair_dir ∅
       = (Return tt, mkWorld h pair_dir ∅ out)
       /\ forall name f im,
            pair_dir !! name = Some f -> is_webp name = true -> PIL.decode f = Some im ->
            ("❌ Error convirtiendo '" +:+ name +:+ "' a .ico: height and width must be > 0")
            ∈ out.
Proof.
  split; [lia|]. apply (bulk_conversion_rejects_empty_side 0 pair_dir ∅). lia.
Defined.

(** A side above 256 that fits a C int and can be allocated: the encoder
    skips the one requested size and refuses to write a file with no
    frame.  The conversion of a source that decodes, whose destination may
    be written, reports that error; a destination that was missing stays
    missing, and one that existed is left spoiled, since the file was
    opened for writing before the encoder ran.  From 2^31 on the resize
    itself raises, for a source narrower than that, and the destination is
    left as it was. *)
Theorem bulk_conversion_over_256_fails `{Numerics} ico_size dir ro name f im :
  256 < ico_size ->
  dir !! name = Some f -> is_webp name = true -> PIL.decode f = Some im ->
  ico_path name ∉ ro ->
  (forall other, is_Some (dir !! other) -> is_webp other = true ->
     ico_path other = ico_path name -> other = name) ->
  exists w',
    run (Replace.WebpToIcoConverter.convert_all_webp_to_ico ico_size) dir ro = (Return tt, w')
    /\ (ico_size < 2 ^ 31 -> grants (ico_size, ico_size) = true ->
        files w' !! ico_path name
        = match dir !! ico_path name with
          | Some _ => Some Partial
          | None => None
          end
        /\ ("❌ Error convirtiendo '" +:+ name +:+ "' a .ico: All sizes too large for image")
           ∈ stdout w')
    /\ (2 ^ 31 <= ico_size -> im_width im < 2 ^ 31 ->
        files w' !! ico_path name = dir !! ico_path name
        /\ ("❌ Error convirtiendo '" +:+ name +:+ "' a .ico: " +:+ PIL.c_int_error ico_size)
           ∈ stdout w').
Proof.
  intros Hs Hf Hw Hd Hro Hu.
  destruct (replace_bulk_run ico_size dir ro) as (h & E).
  set (webp_files := List.filter is_webp (elements (dom dir))) in E.
  assert (name ∈ webp_files) as Hin.
  { apply elem_of_filter_webp. split; [|done]. apply listed_entry. eauto. }
  assert (files (mkWorld h (converted ico_size ro dir webp_files) ro
                   (bulk_report ico_size ro dir webp_files)) !! ico_path name
          = outcome_entry (conversion ico_size ro (dir !! name) name) (dir !! ico_path name))
    as Hentry.
  { cbn [files]. unfold converted.
    rewrite (converted_lookup ico_size ro dir name webp_files).
    - by rewrite decide_True.
    - intros other [Ho Hwo]%elem_of_filter_webp Heq.
      apply Hu; [by apply listed_entry | done | done]. }
  pose proof (bulk_report_line ico_size ro dir webp_files name Hin) as Hl.
  eexists. split; [exact E|]. rewrite Hentry. cbn [stdout]. split.
  - intros Hlt Hg.
    assert (conversion ico_size ro (dir !! name) name
            = Spoiled (ico_path name)
                ("❌ Error convirtiendo '" +:+ name
                 +:+ "' a .ico: All sizes too large for image")) as Hc.
    { unfold conversion. rewrite Hf, Hd.
      rewrite checked_resize_granted by (simpl; done || lia).
      rewrite decide_False by done.
      by rewrite encode_ICO_none by by apply ico_frames_too_large. }
    rewrite Hc in Hl |- *. by split.
  - intros Hge Hwide.
    assert (conversion ico_size ro (dir !! name) name
            = Unchanged ("❌ Error convirtiendo '" +:+ name +:+ "' a .ico: "
                         +:+ PIL.c_int_error ico_size)) as Hc.
    { unfold conversion. rewrite Hf, Hd.
      destruct (decode_positive f im Hd) as [Hpos _].
      rewrite checked_resize_overflow; [done| |by right].
      unfold im_width in *. by rewrite rgba_of_size. }
    rewrite Hc in Hl |- *. by split.
Qed.

Lemma bulk_conversion_over_256_fails_witness :
  256 < 512
  /\ pair_dir !! "b.webp"%string = Some (Encoded WEBP [blue_pixel] None)
  /\ is_webp "b.webp" = true
  /\ PIL.decode (Encoded WEBP [blue_pixel] None) = Some blue_pixel
  /\ (ico_path "b.webp" ∉ (∅ : gset string))
  /\ (forall other, is_Some (pair_dir !! other) -> is_webp other = true ->
        ico_path other = ico_path "b.webp" -> other = "b.webp"%string)
  /\ 512 < 2 ^ 31
  /\ grants (512, 512) = true
  /\ pair_dir !! ico_path "b.webp" = None
  /\ exists w',
       run (Replace.WebpToIcoConverter.convert_all_webp_to_ico 512) pair_dir ∅
       = (Return tt, w')
       /\ files w' !! ico_path "b.webp" = None
       /\ "❌ Error convirtiendo 'b.webp' a .ico: All sizes too large for image"%string
          ∈ stdout w'.
Proof.
  assert (forall other, is_Some (pair_dir !! other) -> is_webp other = true ->
            ico_path other = ico_path "b.webp" -> other = "b.webp"%string) as Hu.
  { intros other [g Hg] _ Hp. unfold pair_dir in Hg.
    apply lookup_insert_Some in Hg as [[<- _]|[_ Hg]].
    - vm_compute in Hp. discriminate Hp.
    - by apply lookup_singleton_Some in Hg as [<- _]. }
  assert (pair_dir !! "b.webp"%string = Some (Encoded WEBP [blue_pixel] None)) as Hf
    by (by vm_compute).
  assert (pair_dir !! ico_path "b.webp" = None) as Hnone by (by vm_compute).
  assert (grants (512, 512) = true) as Hg by reflexivity.
  split; [lia|]. split; [exact Hf|]. split; [reflexivity|]. split; [reflexivity|].
  split; [apply not_elem_of_empty|]. split; [exact Hu|].
  split; [lia|]. split; [exact Hg|]. split; [exact Hnone|].
  assert (PIL.decode (Encoded WEBP [blue_pixel] None) = Some blue_pixel) as Hd
    by reflexivity.
  assert (256 < 512) as Hs by lia.
  destruct (bulk_conversion_over_256_fails 512 pair_dir ∅ "b.webp"
              (Encoded WEBP [blue_pixel] None) blue_pixel
              Hs Hf eq_refl Hd (not_elem_of_empty _) Hu)
    as (w' & E & Hsmall & _).
  destruct (Hsmall ltac:(lia) Hg) as [Hentry Hline].
  exists w'. split; [exact E|]. split; [|exact Hline].
  rewrite Hentry. by rewrite Hnone.
Defined.

(** ** Mode B of the replace variant as a whole *)

Lemma written_again ro table dir :
  NoDup (map asset_name table) ->
  written ro table (written ro table dir) = written ro table dir.
Proof.
  intros Hnd. apply map_eq. intros k.
  destruct (decide (k ∈ map asset_name table)) as [Hin|Hout].
  - apply list_elem_of_In, in_map_iff in Hin as (a & <- & Ha%list_elem_of_In).
    rewrite (written_lookup ro table (written ro table dir) a Hnd Ha).
    case_decide; [done|].
    rewrite (written_lookup ro table dir a Hnd Ha). by rewrite decide_False.
  - by rewrite !written_lookup_other.
Qed.

(** Mode B changes no entry other than its seven outputs: the logo, and
    anything else in the directory, is left as it was.  Run again on the
    directory it produced, it produces the same directory. *)
Theorem mode_b_touches_only_its_outputs `{Numerics} dir ro f logo :
  dir !! Replace.LOGO_FILENAME = Some f -> PIL.decode f = Some logo ->
  exists w1 w2,
    run (Replace.LogoAssetsGenerator.generate_all_assets Replace.LOGO_FILENAME) dir ro
    = (Return tt, w1)
    /\ (forall k, k ∉ map asset_name (declared_assets logo) -> files w1 !! k = dir !! k)
    /\ files w1 !! Replace.LOGO_FILENAME = Some f
    /\ run (Replace.LogoAssetsGenerator.generate_all_assets Replace.LOGO_FILENAME)
         (files w1) ro
       = (Return tt, w2)
    /\ files w2 = files w1.
Proof.
  intros Hf Hd.
  destruct (mode_b_outcome dir ro f logo Hf Hd) as (w1 & E1 & Hfiles1 & _).
  assert (forall k, k ∉ map asset_name (declared_assets logo) -> files w1 !! k = dir !! k)
    as Hframe.
  { intros k Hk. rewrite Hfiles1. by apply written_lookup_other. }
  assert (files w1 !! Replace.LOGO_FILENAME = Some f) as Hlogo.
  { rewrite Hframe; [done|]. rewrite declared_names.
    apply (bool_decide_unpack _). by vm_compute. }
  destruct (mode_b_outcome (files w1) ro f logo Hlogo Hd) as (w2 & E2 & Hfiles2 & _).
  exists w1, w2. split_and!; [done..|].
  rewrite Hfiles2, Hfiles1. apply written_again, declared_names_NoDup.
Qed.

Lemma mode_b_touches_only_its_outputs_witness :
  stale_icon_dir !! Replace.LOGO_FILENAME = Some (Encoded PNG [tiny_logo] None)
  /\ PIL.decode (Encoded PNG [tiny_logo] None) = Some tiny_logo
  /\ exists w1 w2,
       run (Replace.LogoAssetsGenerator.generate_all_assets Replace.LOGO_FILENAME)
         stale_icon_dir ∅
       = (Return tt, w1)
       /\ (forall k, k ∉ map asset_name (declared_assets tiny_logo) ->
             files w1 !! k = stale_icon_dir !! k)
       /\ files w1 !! Replace.LOGO_FILENAME = Some (Encoded PNG [tiny_logo] None)
       /\ run (Replace.LogoAssetsGenerator.generate_all_assets Replace.LOGO_FILENAME)
            (files w1) ∅
          = (Return tt, w2)
       /\ files w2 = files w1.
Proof.
  split; [by vm_compute|]. split; [reflexivity|].
  apply (mode_b_touches_only_its_outputs stale_icon_dir ∅
           (Encoded PNG [tiny_logo] None) tiny_logo);
    [by vm_compute | reflexivity].
Defined.

(** The source image is loaded once and is read-only: when Mode B ends,
    the first object of the store is the decoded logo, and every image
    operation of the run added objects after it. *)
Theorem mode_b_never_mutates_the_logo `{Numerics} dir ro f logo :
  dir !! Replace.LOGO_FILENAME = Some f -> PIL.decode f = Some logo ->
  exists w',
    run (Replace.LogoAssetsGenerator.generate_all_assets Replace.LOGO_FILENAME) dir ro
    = (Return tt, w')
    /\ heap w' !! 0%nat = Some logo
    /\ [logo] `prefix_of` heap w'.
Proof.
  intros Hf Hd.
  destruct (gather_tasks_attempts 0%nat logo [logo] dir ro [] eq_refl) as (h & E & Hp).
  exists (mkWorld h (written ro (declared_assets logo) dir) ro
            ([] ++ reported ro (declared_assets logo))).
  split_and!; [|exact (prefix_lookup_Some [logo] h 0%nat logo eq_refl Hp)|exact Hp].
  unfold run, boot, Replace.LogoAssetsGenerator.generate_all_assets.
  change Replace.LOGO_FILENAME with "logo.png"%string in *.
  assert (os.path_exists "logo.png" (mkWorld [] dir ro [])
          = (Return true, mkWorld [] dir ro [])) as Hex.
  { rewrite path_exists_eq. by rewrite Hf, bool_decide_eq_true_2. }
  step Hex. change (negb true) with false. cbv iota.
  match goal with
  | |- (try_except ?body ?handler ≫= ?k) ?w = _ =>
      assert (try_except body handler w = (Return (Some 0%nat), mkWorld [logo] dir ro []))
        as Et
  end.
  { unfold try_except, Replace.ImageIOManager.load_image.
    assert ((found ← os.path_exists "logo.png";
             if String.eqb "logo.png" "" || negb found
             then raise FileNotFoundError ("No se encontró el archivo: " +:+ "logo.png")
             else PIL.open "logo.png") (mkWorld [] dir ro [])
            = (Return 0%nat, mkWorld [logo] dir ro [])) as El.
    { step Hex. simpl. unfold PIL.open. simpl. by rewrite Hf, Hd. }
    by step El. }
  step Et. exact E.
Qed.

Lemma mode_b_never_mutates_the_logo_witness :
  logo_dir !! Replace.LOGO_FILENAME = Some (Encoded PNG [tiny_logo] None)
  /\ PIL.decode (Encoded PNG [tiny_logo] None) = Some tiny_logo
  /\ exists w',
       run (Replace.LogoAssetsGenerator.generate_all_assets Replace.LOGO_FILENAME)
         logo_dir ∅
       = (Return tt, w')
       /\ heap w' !! 0%nat = Some tiny_logo
       /\ [tiny_logo] `prefix_of` heap w'.
Proof.
  split; [reflexivity|]. split; [reflexivity|].
  apply (mode_b_never_mutates_the_logo logo_dir ∅ (Encoded PNG [tiny_logo] None) tiny_logo);
    reflexivity.
Defined.

(** [flatten_image_to_white] pastes onto a background of its own: every
    object the store held before the call, the argument among them, is
    unchanged after it, and the result is a new object. *)
Theorem flatten_leaves_its_argument h fs ro out r im :
  h !! r = Some im ->
  exists r' h',
    Conservative.flatten_image_to_white r (mkWorld h fs ro out)
    = (Return r', mkWorld h' fs ro out)
    /\ h `prefix_of` h'
    /\ h' !! r = Some im
    /\ h !! r' = None
    /\ h' !! r' = Some (flattened im).
Proof.
  intros E. unfold Conservative.flatten_image_to_white, flattened.
  step (deref_eq _ fs ro out _ _ E).
  case_bool_decide as Hm.
  - pose proof (mask_band_alpha im Hm) as Hband.
    unfold PIL.new_RGBA.
    set (bg := mkImage (im_size im) (BandsRGBA (repeat (255, 255, 255, 255)
                 (Z.to_nat (fst (im_size im) * snd (im_size im)))))).
    assert (alloc bg (mkWorld h fs ro out)
            = (Return (length h), mkWorld (h ++ [bg]) fs ro out)) as Ea by done.
    step Ea.
    set (new := mkImage (im_size im)
                  (BandsRGBA (PIL.paste_masked (repeat white (pixel_count im))
                                (rgba_pixels (im_data im))
                                (default [] (PIL.mask_band (im_data im)))))).
    assert (PIL.paste (length h) r r (mkWorld (h ++ [bg]) fs ro out)
            = (Return tt, mkWorld (h ++ [new]) fs ro out)) as Ep.
    { unfold PIL.paste.
      step (deref_eq _ fs ro out _ _ (lookup_snoc h bg)).
      step (deref_eq _ fs ro out _ _ (lookup_app_l_Some _ [bg] _ _ E)).
      step (deref_eq _ fs ro out _ _ (lookup_app_l_Some _ [bg] _ _ E)).
      subst new. rewrite Hband. simpl. unfold assign. simpl.
      by rewrite insert_snoc. }
    step Ep.
    rewrite (convert_RGB_spec _ fs ro out _ _ (lookup_snoc h new)).
    exists (length (h ++ [new])), ((h ++ [new]) ++ [rgb_of new]).
    split_and!.
    + done.
    + rewrite <- app_assoc. by apply prefix_app_r.
    + rewrite <- app_assoc. by apply lookup_app_l_Some.
    + apply lookup_ge_None_2. rewrite length_app. simpl. lia.
    + by rewrite lookup_snoc.
  - rewrite (convert_RGB_spec _ fs ro out _ _ E).
    exists (length h), (h ++ [rgb_of im]).
    split_and!; [done | by apply prefix_app_r | by apply lookup_app_l_Some
                | by apply lookup_ge_None_2 | apply lookup_snoc].
Qed.

Lemma flatten_leaves_its_argument_witness :
  [tiny_logo] !! 0%nat = Some tiny_logo
  /\ exists r' h',
       Conservative.flatten_image_to_white 0%nat (mkWorld [tiny_logo] ∅ ∅ [])
       = (Return r', mkWorld h' ∅ ∅ [])
       /\ [tiny_logo] `prefix_of` h'
       /\ h' !! 0%nat = Some tiny_logo
       /\ [tiny_logo] !! r' = None
       /\ h' !! r' = Some (flattened tiny_logo).
Proof.
  split; [reflexivity|].
  apply (flatten_leaves_its_argument [tiny_logo] ∅ ∅ [] 0%nat tiny_logo). reflexivity.
Defined.

(** ** The entry points, from any console state *)

Section FromAnyConsole.
Context `{Numerics}.
Implicit Types (h : list Image) (fs dir : gmap string file) (ro : gset string)
  (out : list string).

Lemma replace_mode_b_returns dir ro out :
  exists w',
    Replace.LogoAssetsGenerator.generate_all_assets Replace.LOGO_FILENAME
      (mkWorld [] dir ro out)
    = (Return tt, w')
    /\ locked w' = ro
    /\ out `prefix_of` stdout w'.
Proof.
  unfold Replace.LogoAssetsGenerator.generate_all_assets.
  change Replace.LOGO_FILENAME with "logo.png"%string.
  step (path_exists_eq [] dir ro out "logo.png").
  destruct (dir !! "logo.png"%string) as [f|] eqn:Hf.
  2:{ rewrite bool_decide_eq_false_2 by (by intros [? ?]).
      change (negb false) with true. cbv iota.
      eexists. split; [reflexivity|]. split; [done|]. by apply prefix_app_r. }
  rewrite bool_decide_eq_true_2 by eauto. change (negb true) with false. cbv iota.
  assert (os.path_exists "logo.png" (mkWorld [] dir ro out)
          = (Return true, mkWorld [] dir ro out)) as Hex.
  { rewrite path_exists_eq. by rewrite Hf, bool_decide_eq_true_2. }
  destruct (PIL.decode f) as [logo|] eqn:Hd.
  - assert ((found ← os.path_exists "logo.png";
             if String.eqb "logo.png" "" || negb found
             then raise FileNotFoundError ("No se encontró el archivo: " +:+ "logo.png")
             else PIL.open "logo.png") (mkWorld [] dir ro out)
            = (Return 0%nat, mkWorld [logo] dir ro out)) as El.
    { step Hex. simpl. unfold PIL.open. simpl. by rewrite Hf, Hd. }
    match goal with
    | |- exists w', (try_except ?body ?handler ≫= ?k) ?w = _ /\ _ =>
        assert (try_except body handler w = (Return (Some 0%nat), mkWorld [logo] dir ro out))
          as Et
    end.
    { unfold try_except, Replace.ImageIOManager.load_image. by step El. }
    destruct (gather_tasks_attempts 0%nat logo [logo] dir ro out eq_refl) as (h & E & _).
    eexists. split; [step Et; exact E|]. split; [done|]. by apply prefix_app_r.
  - assert ((found ← os.path_exists "logo.png";
             if String.eqb "logo.png" "" || negb found
             then raise FileNotFoundError ("No se encontró el archivo: " +:+ "logo.png")
             else PIL.open "logo.png") (mkWorld [] dir ro out)
            = (Raise (Exception UnidentifiedImageError
                        "cannot identify image file 'logo.png'"),
               mkWorld [] dir ro out)) as El.
    { step Hex. simpl. unfold PIL.open. simpl. by rewrite Hf, Hd. }
    match goal with
    | |- exists w', (try_except ?body ?handler ≫= ?k) ?w = _ /\ _ =>
        assert (try_except body handler w
                = (Return None,
                   mkWorld [] dir ro
                     (out ++ ["❌ Error abriendo 'logo.png': cannot identify image file 'logo.png'"])))
          as Et
    end.
    { unfold try_except, Replace.ImageIOManager.load_image.
      by rewrite (bind_raise _ _ _ _ _ El). }
    eexists. split; [by step Et|]. split; [done|]. by apply prefix_app_r.
Qed.

Lemma replace_bulk_returns ico_size dir ro out :
  exists w',
    Replace.WebpToIcoConverter.convert_all_webp_to_ico ico_size (mkWorld [] dir ro out)
    = (Return tt, w')
    /\ locked w' = ro
    /\ out `prefix_of` stdout w'.
Proof.
  unfold Replace.WebpToIcoConverter.convert_all_webp_to_ico.
  step (listdir_eq [] dir ro out).
  unfold Replace.WebpToIcoConverter.convert_listed.
  destruct (List.filter is_webp (elements (dom dir))) as [|name names] eqn:Hfilter.
  - eexists. split; [reflexivity|]. split; [done|]. by apply prefix_app_r.
  - rewrite gather_map.
    destruct (convert_each_spec ico_size dir ro (name :: names)) with
      (h := @nil Image) (fs := dir) (out := out) as (h' & E); [|done|].
    { rewrite <- Hfilter. apply filter_all. }
    eexists. split; [exact E|]. split; [done|]. by apply prefix_app_r.
Qed.

Lemma skip_converted_console ro names :
  forall st, snd st `prefix_of` snd (skip_converted ro st names).
Proof.
  induction names as [|name names IH]; intros st; simpl; [done|].
  etrans; [|apply IH]. simpl. by apply prefix_app_r.
Qed.

Lemma conservative_bulk_returns dir ro out :
  exists w',
    Conservative.convert_all_webp_to_ico (mkWorld [] dir ro out) = (Return tt, w')
    /\ dir ⊆ files w'
    /\ locked w' = ro
    /\ out `prefix_of` stdout w'.
Proof.
  unfold Conservative.convert_all_webp_to_ico.
  step (listdir_eq [] dir ro out). unfold Conservative.convert_listed.
  destruct (List.filter is_webp (elements (dom dir))) as [|name names] eqn:Hfilter.
  - eexists. split; [reflexivity|]. split_and!; [done | done | by apply prefix_app_r].
  - destruct (convert_each_skipping ro (name :: names) [] dir out) as (h' & E).
    eexists. split; [exact E|]. split_and!; [|done|].
    + apply (skip_converted_keeps ro (name :: names) (dir, out)).
    + apply (skip_converted_console ro (name :: names) (dir, out)).
Qed.

Lemma conservative_mode_b_returns dir ro out :
  exists w',
    Conservative.generate_icons_from_logo (mkWorld [] dir ro out) = (Return tt, w')
    /\ dir ⊆ files w'
    /\ locked w' = ro
    /\ out `prefix_of` stdout w'.
Proof.
  destruct (dir !! "logo.png"%string) as [f|] eqn:Hf.
  2:{ unfold Conservative.generate_icons_from_logo.
      step (path_exists_eq [] dir ro out "logo.png"). rewrite Hf.
      rewrite bool_decide_eq_false_2 by (by intros [? ?]).
      change (negb false) with true. cbv iota.
      eexists. split; [reflexivity|]. split_and!; [done | done | by apply prefix_app_r]. }
  destruct (PIL.decode f) as [logo|] eqn:Hd.
  - destruct (conservative_mode_b_from dir ro out f logo Hf Hd) as (h' & out' & E & Hp).
    eexists. split; [exact E|]. split_and!; [apply fill_all_keeps | done | exact Hp].
  - unfold Conservative.generate_icons_from_logo.
    step (path_exists_eq [] dir ro out "logo.png"). rewrite Hf.
    rewrite bool_decide_eq_true_2 by eauto. change (negb true) with false. cbv iota.
    assert (PIL.open "logo.png" (mkWorld [] dir ro out)
            = (Raise (Exception UnidentifiedImageError
                        "cannot identify image file 'logo.png'"),
               mkWorld [] dir ro out)) as Eo.
    { unfold PIL.open. simpl. by rewrite Hf, Hd. }
    match goal with
    | |- exists w', (try_except ?body ?handler ≫= ?k) ?w = _ /\ _ =>
        assert (try_except body handler w
                = (Return None,
                   mkWorld [] dir ro
                     (out ++ ["❌ Error abriendo 'logo.png': cannot identify image file 'logo.png'"])))
          as Et
    end.
    { unfold try_except. by rewrite (bind_raise _ _ _ _ _ Eo). }
    eexists. split; [by step Et|]. split_and!; [done | done | by apply prefix_app_r].
Qed.

End FromAnyConsole.

Lemma menu_printed (line1 line2 line3 line4 : string) (k : M unit) dir ro :
  (print line1;; print line2;; print line3;; print line4;; k) (boot dir ro)
  = k (mkWorld [] dir ro [line1; line2; line3; line4]).
Proof. reflexivity. Qed.

(** [main] never lets an exception escape: whatever is typed, whatever the
    directory holds and whichever entries are write-protected, both
    variants return normally, and the console starts with the three lines
    of the menu and the prompt.  For a selection other than 1 or 2 the
    console holds exactly the menu, the prompt and the notice, and the
    directory is left as it was; the conservative variant changes no
    existing entry under any selection. *)
Theorem main_always_returns `{Numerics} opcion dir ro :
  (exists w',
     run (Replace.main opcion) dir ro = (Return tt, w')
     /\ ["¿Qué acción desea realizar?";
         "1) Convertir TODOS los archivos .webp a .ico (mismo nombre base).";
         "2) Generar favicon, apple-touch-icon y previews a partir de 'logo.png'.";
         "Ingrese 1 o 2 y presione [Enter]: "]%string `prefix_of` stdout w'
     /\ (opcion <> "1"%string -> opcion <> "2"%string ->
         files w' = dir
         /\ stdout w'
            = ["¿Qué acción desea realizar?";
               "1) Convertir TODOS los archivos .webp a .ico (mismo nombre base).";
               "2) Generar favicon, apple-touch-icon y previews a partir de 'logo.png'.";
               "Ingrese 1 o 2 y presione [Enter]: ";
               "Opción no válida. Saliendo..."]%string
         /\ last (stdout w') = Some "Opción no válida. Saliendo..."%string))
  /\ (exists w',
        run (Conservative.main opcion) dir ro = (Return tt, w')
        /\ dir ⊆ files w'
        /\ ["¿Qué acción desea realizar?";
            "1) Convertir TODOS los archivos .webp a .ico (mismo nombre base).";
            "2) Generar favicon y apple-touch-icon a partir de 'logo.png'.";
            "Ingrese 1 o 2 y presione [Enter]: "]%string `prefix_of` stdout w'
        /\ (opcion <> "1"%string -> opcion <> "2"%string ->
            files w' = dir
            /\ stdout w'
               = ["¿Qué acción desea realizar?";
                  "1) Convertir TODOS los archivos .webp a .ico (mismo nombre base).";
                  "2) Generar favicon y apple-touch-icon a partir de 'logo.png'.";
                  "Ingrese 1 o 2 y presione [Enter]: ";
                  "Opción no válida. Saliendo..."]%string
            /\ last (stdout w') = Some "Opción no válida. Saliendo..."%string)).
Proof.
  split.
  - unfold run, Replace.main. rewrite menu_printed.
    destruct (String.eqb_spec opcion "1") as [->|H1].
    { destruct (replace_bulk_returns Replace.WEBP_TO_ICO_SIZE dir ro
                  ["¿Qué acción desea realizar?";
                   "1) Convertir TODOS los archivos .webp a .ico (mismo nombre base).";
                   "2) Generar favicon, apple-touch-icon y previews a partir de 'logo.png'.";
                   "Ingrese 1 o 2 y presione [Enter]: "]%string) as (w' & E & _ & Hp).
      exists w'. split_and!; [exact E | exact Hp |]. by intros Hne. }
    destruct (String.eqb_spec opcion "2") as [->|H2].
    { destruct (replace_mode_b_returns dir ro
                  ["¿Qué acción desea realizar?";
                   "1) Convertir TODOS los archivos .webp a .ico (mismo nombre base).";
                   "2) Generar favicon, apple-touch-icon y previews a partir de 'logo.png'.";
                   "Ingrese 1 o 2 y presione [Enter]: "]%string) as (w' & E & _ & Hp).
      exists w'. split_and!; [exact E | exact Hp |]. by intros _ Hne. }
    eexists. split; [reflexivity|]. split; [|done].
    cbn [stdout]. by apply prefix_app_r.
  - unfold run, Conservative.main. rewrite menu_printed.
    destruct (String.eqb_spec opcion "1") as [->|H1].
    { destruct (conservative_bulk_returns dir ro
                  ["¿Qué acción desea realizar?";
                   "1) Convertir TODOS los archivos .webp a .ico (mismo nombre base).";
                   "2) Generar favicon y apple-touch-icon a partir de 'logo.png'.";
                   "Ingrese 1 o 2 y presione [Enter]: "]%string) as (w' & E & Hk & _ & Hp).
      exists w'. split_and!; [exact E | exact Hk | exact Hp |]. by intros Hne. }
    destruct (String.eqb_spec opcion "2") as [->|H2].
    { destruct (conservative_mode_b_returns dir ro
                  ["¿Qué acción desea realizar?";
                   "1) Convertir TODOS los archivos .webp a .ico (mismo nombre base).";
                   "2) Generar favicon y apple-touch-icon a partir de 'logo.png'.";
                   "Ingrese 1 o 2 y presione [Enter]: "]%string) as (w' & E & Hk & _ & Hp).
      exists w'. split_and!; [exact E | exact Hk | exact Hp |]. by intros _ Hne. }
    eexists. split; [reflexivity|]. split; [done|]. split; [|done].
    cbn [stdout]. by apply prefix_app_r.
Qed.

Lemma main_always_returns_witness :
  "3"%string <> "1"%string
  /\ "3"%string <> "2"%string
  /\ (exists w',
        run (Replace.main "3") logo_dir ∅ = (Return tt, w')
        /\ files w' = logo_dir
        /\ stdout w'
           = ["¿Qué acción desea realizar?";
              "1) Convertir TODOS los archivos .webp a .ico (mismo nombre base).";
              "2) Generar favicon, apple-touch-icon y previews a partir de 'logo.png'.";
              "Ingrese 1 o 2 y presione [Enter]: ";
              "Opción no válida. Saliendo..."]%string)
  /\ (exists w',
        run (Conservative.main "3") logo_dir ∅ = (Return tt, w')
        /\ files w' = logo_dir
        /\ stdout w'
           = ["¿Qué acción desea realizar?";
              "1) Convertir TODOS los archivos .webp a .ico (mismo nombre base).";
              "2) Generar favicon y apple-touch-icon a partir de 'logo.png'.";
              "Ingrese 1 o 2 y presione [Enter]: ";
              "Opción no válida. Saliendo..."]%string).
Proof.
  assert ("3"%string <> "1"%string) as H1 by done.
  assert ("3"%string <> "2"%string) as H2 by done.
  split; [exact H1|]. split; [exact H2|].
  destruct (main_always_returns "3" logo_dir ∅)
    as ((w1 & E1 & _ & Hr) & (w2 & E2 & _ & _ & Hc)).
  destruct (Hr H1 H2) as (Hf1 & Ho1 & _).
  destruct (Hc H1 H2) as (Hf2 & Ho2 & _).
  split; [exists w1 | exists w2]; done.
Defined.

(** ** Running the conservative bulk conversion again *)

Section SecondRun.
Context `{Numerics}.
Implicit Types (fs dir : gmap string file) (ro : gset string) (out : list string).

Lemma settled_after ro fs name :
  exists line,
    skipping_conversion ro (apply_outcome fs (skipping_conversion ro fs name)) name
    = Unchanged line.
Proof.
  destruct (skipping_cases ro fs name) as [(l & Hc)|(_ & f & l & Hc)]; rewrite Hc; simpl.
  - eauto.
  - unfold skipping_conversion. rewrite lookup_insert_eq. eauto.
Qed.

Lemma settled_stays ro fs name other :
  is_webp name = true ->
  (exists line, skipping_conversion ro fs name = Unchanged line) ->
  exists line,
    skipping_conversion ro (apply_outcome fs (skipping_conversion ro fs other)) name
    = Unchanged line.
Proof.
  intros Hw (line & Hs).
  set (fs' := apply_outcome fs (skipping_conversion ro fs other)).
  assert (fs' !! name = fs !! name) as Hsrc.
  { apply skipping_lookup_other. intros Heq. symmetry in Heq. revert Heq.
    by apply ico_path_ne_webp. }
  assert (fs ⊆ fs') as Hsub by apply skipping_conversion_keeps.
  clearbody fs'. unfold skipping_conversion in *.
  destruct (fs' !! ico_path name) eqn:Hico'; [eauto|].
  assert (fs !! ico_path name = None) as Hico.
  { destruct (fs !! ico_path name) eqn:Hico; [|done].
    apply (lookup_weaken _ _ _ _ Hico) in Hsub. congruence. }
  rewrite Hico in Hs. rewrite Hsrc.
  destruct (fs !! name); [|eauto].
  destruct (PIL.decode _); [|eauto].
  case_decide; [eauto|].
  destruct (PIL.encode _ _ _); [done|eauto].
Qed.

Lemma all_settled_after ro names :
  Forall (fun name => is_webp name = true) names ->
  forall st name, name ∈ names ->
    exists line, skipping_conversion ro (fst (skip_converted ro st names)) name
                 = Unchanged line.
Proof.
  intros Hw. induction names as [|x names IH] using rev_ind; intros st name Hin.
  - by apply elem_of_nil in Hin.
  - apply Forall_app in Hw as [Hw Hx]. apply Forall_singleton in Hx.
    unfold skip_converted. rewrite foldl_app. simpl.
    apply elem_of_app in Hin as [Hin|Hin%list_elem_of_singleton].
    + apply settled_stays.
      * by apply (proj1 (Forall_forall _ _) Hw).
      * by apply IH.
    + subst name. apply settled_after.
Qed.

Lemma skip_converted_sources ro names k :
  is_webp k = true ->
  forall st, fst (skip_converted ro st names) !! k = fst st !! k.
Proof.
  intros Hk. induction names as [|x names IH]; intros st; simpl; [done|].
  rewrite IH. simpl. apply skipping_lookup_other.
  intros Heq. symmetry in Heq. revert Heq. by apply ico_path_ne_webp.
Qed.

Lemma settled_run_writes_nothing ro names :
  forall st,
    (forall name, name ∈ names ->
       exists line, skipping_conversion ro (fst st) name = Unchanged line) ->
    fst (skip_converted ro st names) = fst st.
Proof.
  induction names as [|x names IH]; intros st Hs; simpl; [done|].
  destruct (Hs x) as (line & Hx); [by left|].
  rewrite IH; simpl; rewrite Hx; simpl; [done|].
  intros name Hn. apply Hs. by right.
Qed.

End SecondRun.

(** The conservative bulk conversion settles the directory: run again on
    the directory it left, with the same write permissions, it writes
    nothing. *)
Theorem conservative_bulk_second_run_writes_nothing `{Numerics} dir ro :
  exists w1 w2,
    run Conservative.convert_all_webp_to_ico dir ro = (Return tt, w1)
    /\ run Conservative.convert_all_webp_to_ico (files w1) ro = (Return tt, w2)
    /\ files w2 = files w1.
Proof.
  destruct (conservative_bulk_run dir ro) as (h1 & E1).
  set (names1 := List.filter is_webp (elements (dom dir))) in E1.
  set (fs1 := fst (skip_converted ro (dir, []) names1)) in E1.
  destruct (conservative_bulk_run fs1 ro) as (h2 & E2).
  eexists _, _. split; [exact E1|]. split; [exact E2|]. simpl.
  apply (settled_run_writes_nothing ro _ (fs1, [])). simpl.
  intros name [Hin Hw]%elem_of_filter_webp.
  apply all_settled_after; [apply filter_all|].
  apply elem_of_filter_webp. split; [|done].
  apply listed_entry. apply listed_entry in Hin.
  unfold fs1 in Hin. by rewrite skip_converted_sources in Hin.
Qed.

(** ** The conservative variant's Mode B, entry by entry *)

(** Mode B of the conservative variant fills the gaps and nothing else: on
    a directory whose logo decodes, each of its four outputs that exists
    when the run starts is kept, each missing one that may be written is
    created from the flattened logo (the ICO with its single 16x16 frame),
    each missing one that may not be written stays missing, and no other
    entry changes.  The one logo nothing is created from is a bilevel or
    16-bit one with a colour key: flattened, it has a key the PNG encoder
    cannot write, and every save raises. *)
Theorem conservative_mode_b_fills_gaps `{Numerics} dir ro f logo :
  dir !! "logo.png"%string = Some f -> PIL.decode f = Some logo ->
  exists w',
    run Conservative.generate_icons_from_logo dir ro = (Return tt, w')
    /\ (forall name out, (name, out) ∈ conservative_outputs logo ->
          files w' !! name
          = match dir !! name with
            | Some old => Some old
            | None =>
                if decide (name ∈ ro) then None
                else if PIL.png_writes (flattened logo) then Some out else None
            end)
    /\ (forall k, k ∉ map fst (conservative_outputs logo) -> files w' !! k = dir !! k)
    /\ (im_mode logo <> Bilevel -> im_mode logo <> I16 -> PIL.png_writes logo = true ->
        PIL.png_writes (flattened logo) = true)
    /\ (PIL.has_transparency_data logo = false -> PIL.png_writes (flattened logo) = true).
Proof.
  intros Hf Hd.
  destruct (conservative_mode_b_run dir ro f logo Hf Hd) as (h & out & E).
  eexists. split; [exact E|]. cbn [files]. split_and!.
  - intros name o Hin.
    exact (fill_all_lookup ro _ _ name o (conservative_output_names_NoDup logo) Hin dir).
  - intros k Hk. exact (fill_all_lookup_other ro _ _ k Hk dir).
  - apply flattened_writes_mode.
  - apply flattened_writes_opaque.
Qed.

Lemma conservative_mode_b_fills_gaps_witness :
  logo_dir !! "logo.png"%string = Some (Encoded PNG [tiny_logo] None)
  /\ PIL.decode (Encoded PNG [tiny_logo] None) = Some tiny_logo
  /\ exists w',
       run Conservative.generate_icons_from_logo logo_dir ∅ = (Return tt, w')
       /\ files w' !! "favicon.ico"%string
          = Some (Encoded ICO [resized (flattened tiny_logo) (16, 16)] None).
Proof.
  split; [reflexivity|]. split; [reflexivity|].
  destruct (conservative_mode_b_fills_gaps
              logo_dir ∅ (Encoded PNG [tiny_logo] None) tiny_logo)
    as (w' & E & Hout & _); [reflexivity | reflexivity |].
  exists w'. split; [exact E|].
  rewrite (Hout "favicon.ico"%string
             (Encoded ICO [resized (flattened tiny_logo) (16, 16)] None)).
  - by vm_compute.
  - unfold conservative_outputs. apply elem_of_app. right. by left.
Defined.

(** ** The name of the icon written for a source *)

Lemma rfind_from_app c s t :
  forall i last,
    rfind_from c (s +:+ t) i last
    = rfind_from c t (i + Z.of_nat (String.length s)) (rfind_from c s i last).
Proof.
  induction s as [|d s IH]; intros i last.
  - simpl. by rewrite Z.add_0_r.
  - simpl. rewrite IH. f_equal. lia.
Qed.

Lemma rfind_from_absent c s :
  occurs c s = false -> forall i last, rfind_from c s i last = last.
Proof.
  induction s as [|d s IH]; intros Ho i last; simpl; [done|].
  simpl in Ho. apply orb_false_elim in Ho as [Hd Hs].
  rewrite Hd. by apply IH.
Qed.

Lemma append_assoc_cons pre c rest : pre +:+ String c rest = (pre +:+ String c "") +:+ rest.
Proof.
  induction pre as [|d pre IH]; [done|]. exact (f_equal (String d) IH).
Qed.

Lemma get_app_here pre c rest :
  String.get (String.length pre) (pre +:+ String c rest) = Some c.
Proof. induction pre as [|d pre IH]; [done|]. exact IH. Qed.

Lemma has_non_dot_app s t :
  forall pre,
    has_non_dot (pre +:+ s +:+ t) (String.length pre) (String.length s)
    = negb (all_dots s).
Proof.
  induction s as [|c s IH]; intros pre; [done|].
  change (String c s +:+ t) with (String c (s +:+ t)).
  cbn [String.length has_non_dot all_dots].
  rewrite get_app_here.
  destruct (Ascii.eqb c ".") eqn:Hc; [|done]. cbn [andb].
  rewrite append_assoc_cons.
  replace (S (String.length pre)) with (String.length (pre +:+ String c "")).
  - apply IH.
  - rewrite string_length_app. simpl. lia.
Qed.

Lemma substring_app_prefix s t : substring 0 (String.length s) (s +:+ t) = s.
Proof. induction s as [|c s IH]; simpl; [by destruct t|]. by rewrite IH. Qed.

(** Both scripts name the icon of a source by replacing the extension: for
    [base.ext], with no path separator in the name and no further dot in
    [ext], the destination is [base.ico].  A name whose [base] is empty or
    made of dots only has no extension for [os.path.splitext], and its
    destination is the whole name followed by [.ico]. *)
Theorem icon_name_replaces_extension base ext :
  occurs "/" base = false -> occurs "/" ext = false -> occurs "." ext = false ->
  ico_path (base +:+ "." +:+ ext)
  = if all_dots base then (base +:+ "." +:+ ext) +:+ ".ico" else base +:+ ".ico".
Proof.
  intros Hsb Hse Hde. unfold ico_path, splitext, rfind.
  rewrite !rfind_from_app. cbn [rfind_from].
  rewrite (rfind_from_absent "/" base Hsb), (rfind_from_absent "/" ext Hse).
  rewrite (rfind_from_absent "." ext Hde).
  change (Ascii.eqb "." "/") with false. change (Ascii.eqb "." ".") with true. cbv iota.
  assert ((-1 <? 0 + Z.of_nat (String.length base)) = true) as -> by (apply Z.ltb_lt; lia).
  change (Z.to_nat (-1 + 1)) with 0%nat.
  replace (Z.to_nat (0 + Z.of_nat (String.length base) - (-1 + 1)))
    with (String.length base) by lia.
  assert (has_non_dot (base +:+ "." +:+ ext) 0 (String.length base)
          = negb (all_dots base)) as ->
    by exact (has_non_dot_app base ("." +:+ ext) "").
  replace (Z.to_nat (0 + Z.of_nat (String.length base))) with (String.length base) by lia.
  destruct (all_dots base); cbn [negb andb fst]; [done|].
  by rewrite substring_app_prefix.
Qed.

Lemma icon_name_replaces_extension_witness :
  ico_path "logo.webp" = "logo.ico"%string /\ ico_path ".webp" = ".webp.ico"%string.
Proof.
  split.
  - exact (icon_name_replaces_extension "logo" "webp" eq_refl eq_refl eq_refl).
  - exact (icon_name_replaces_extension "" "webp" eq_refl eq_refl eq_refl).
Defined.

(** ** A conversion that fails *)

(** In the bulk conversion of the replace variant a failure stays with its
    file: a listed source that does not decode, or one that decodes but
    whose destination may not be written (for a side between 1 and 256,
    which the resize before the save accepts), is reported on its own line
    with the reason, its destination (shared with no other listed source)
    is left as it was, and the run goes on and returns normally. *)
Theorem bulk_conversion_isolates_failures `{Numerics} ico_size dir ro name f :
  dir !! name = Some f -> is_webp name = true ->
  (forall other, is_Some (dir !! other) -> is_webp other = true ->
     ico_path other = ico_path name -> other = name) ->
  PIL.decode f = None \/ (1 <= ico_size <= 256 /\ ico_path name ∈ ro) ->
  exists w',
    run (Replace.WebpToIcoConverter.convert_all_webp_to_ico ico_size) dir ro = (Return tt, w')
    /\ files w' !! ico_path name = dir !! ico_path name
    /\ ("❌ Error convirtiendo '" +:+ name +:+ "' a .ico: "
        +:+ match PIL.decode f with
            | None => "cannot identify image file '" +:+ name +:+ "'"
            | Some _ => denied (ico_path name)
            end)
       ∈ stdout w'.
Proof.
  intros Hf Hw Hu Hfail.
  destruct (replace_bulk_run ico_size dir ro) as (h & E).
  set (webp_files := List.filter is_webp (elements (dom dir))) in E.
  assert (name ∈ webp_files) as Hin.
  { apply elem_of_filter_webp. split; [|done]. apply listed_entry. eauto. }
  assert (conversion ico_size ro (dir !! name) name
          = Unchanged ("❌ Error convirtiendo '" +:+ name +:+ "' a .ico: "
                       +:+ match PIL.decode f with
                           | None => "cannot identify image file '" +:+ name +:+ "'"
                           | Some _ => denied (ico_path name)
                           end)) as Hc.
  { unfold conversion. rewrite Hf.
    destruct (PIL.decode f) as [im|] eqn:Hd; [|done].
    destruct Hfail as [|[Hs Hro]]; [done|].
    rewrite checked_resize_ok by done.
    by rewrite decide_True by done. }
  eexists. split; [exact E|]. cbn [files stdout]. split.
  - unfold converted. rewrite (converted_lookup ico_size ro dir name webp_files).
    + by rewrite decide_True, Hc by done.
    + intros other [Ho Hwo]%elem_of_filter_webp Heq.
      apply Hu; [by apply listed_entry | done | done].
  - pose proof (bulk_report_line ico_size ro dir webp_files name Hin) as Hl.
    by rewrite Hc in Hl.
Qed.

Lemma bulk_conversion_isolates_failures_witness :
  exists w',
    run (Replace.WebpToIcoConverter.convert_all_webp_to_ico Replace.WEBP_TO_ICO_SIZE)
      {[ "x.webp"%string := Junk "not an image" ]} ∅
    = (Return tt, w')
    /\ files w' !! ico_path "x.webp" = None
    /\ "❌ Error convirtiendo 'x.webp' a .ico: cannot identify image file 'x.webp'"%string
       ∈ stdout w'.
Proof.
  destruct (bulk_conversion_isolates_failures Replace.WEBP_TO_ICO_SIZE
              {[ "x.webp"%string := Junk "not an image" ]} ∅ "x.webp" (Junk "not an image"))
    as (w' & E & Hfiles & Hline).
  - by vm_compute.
  - reflexivity.
  - intros other [g Hg] _ _. by apply lookup_singleton_Some in Hg as [<- _].
  - by left.
  - exists w'. split; [exact E|]. split; [|exact Hline].
    rewrite Hfiles. by vm_compute.
Defined.

(** ** A new source in the conservative bulk conversion *)

Lemma skip_converted_writes `{Numerics} ro name f im names :
  is_webp name = true -> PIL.decode f = Some im -> ico_path name ∉ ro ->
  PIL.png_writes (flattened im) = true ->
  (forall other, other ∈ names -> ico_path other = ico_path name -> other = name) ->
  name ∈ names ->
  forall st,
    fst st !! ico_path name = None -> fst st !! name = Some f ->
    fst (skip_converted ro st names) !! ico_path name
    = Some (Encoded ICO [resized (flattened im) (64, 64)] None).
Proof.
  intros Hw Hd Hro Hk. induction names as [|x names IH]; intros Hu Hin st Hico Hf.
  - by apply elem_of_nil in Hin.
  - change (skip_converted ro st (x :: names))
      with (skip_converted ro (skip_step ro st x) names).
    destruct (decide (x = name)) as [->|Hx].
    + refine (lookup_weaken (fst (skip_step ro st name)) _ _ _ _
                (skip_converted_keeps ro names _)).
      unfold skip_step. cbn [fst].
      rewrite (skipping_ok ro (fst st) name f im Hico Hf Hd Hro Hk). simpl.
      by rewrite lookup_insert_eq.
    + assert (ico_path x <> ico_path name) as Hp.
      { intros Heq. apply Hx, Hu; [by left|done]. }
      apply IH.
      * intros other Ho. apply Hu. by right.
      * by apply elem_of_cons in Hin as [Heq|Hin]; [symmetry in Heq|].
      * unfold skip_step. cbn [fst]. by rewrite skipping_lookup_other.
      * unfold skip_step. cbn [fst]. rewrite skipping_lookup_other; [done|].
        intros Heq. symmetry in Heq. revert Heq. by apply ico_path_ne_webp.
Qed.

Lemma skip_converted_refused `{Numerics} ro name f im names :
  is_webp name = true -> PIL.decode f = Some im -> ico_path name ∉ ro ->
  PIL.png_writes (flattened im) = false ->
  (forall other, other ∈ names -> ico_path other = ico_path name -> other = name) ->
  forall st,
    fst st !! ico_path name = None -> fst st !! name = Some f ->
    fst (skip_converted ro st names) !! ico_path name = None.
Proof.
  intros Hw Hd Hro Hk. induction names as [|x names IH]; intros Hu st Hico Hf.
  - done.
  - change (skip_converted ro st (x :: names))
      with (skip_converted ro (skip_step ro st x) names).
    apply IH.
    + intros other Ho. apply Hu. by right.
    + unfold skip_step. cbn [fst].
      destruct (decide (x = name)) as [->|Hx].
      * by rewrite (skipping_refused ro (fst st) name f im Hico Hf Hd Hro Hk).
      * rewrite skipping_lookup_other; [done|].
        intros Heq. apply Hx, Hu; [by left|done].
    + unfold skip_step. cbn [fst].
      destruct (decide (x = name)) as [->|Hx].
      * by rewrite (skipping_refused ro (fst st) name f im Hico Hf Hd Hro Hk).
      * rewrite skipping_lookup_other; [done|].
        intros Heq. symmetry in Heq. revert Heq. by apply ico_path_ne_webp.
Qed.

(** The conservative bulk conversion of a source that has no icon yet: with
    a source that decodes and a destination that is missing, may be
    written and is shared with no other listed source, the run leaves an
    ICO file whose single frame is the source composited on white, in
    mode RGB and of size 64x64, whatever the other files do.  The one
    source no icon is made of is a bilevel or 16-bit one with a colour
    key: flattened, it has a key the encoder of the frame cannot write,
    the save raises and the destination stays missing. *)
Theorem conservative_bulk_converts_new_source `{Numerics} dir ro name f im :
  dir !! name = Some f -> is_webp name = true -> PIL.decode f = Some im ->
  dir !! ico_path name = None -> ico_path name ∉ ro ->
  (forall other, is_Some (dir !! other) -> is_webp other = true ->
     ico_path other = ico_path name -> other = name) ->
  exists w',
    run Conservative.convert_all_webp_to_ico dir ro = (Return tt, w')
    /\ files w' !! ico_path name
       = (if PIL.png_writes (flattened im)
          then Some (Encoded ICO [resized (flattened im) (64, 64)] None)
          else None)
    /\ im_mode (resized (flattened im) (64, 64)) = RGB
    /\ im_size (resized (flattened im) (64, 64)) = (64, 64)
    /\ (im_mode im <> Bilevel -> im_mode im <> I16 -> PIL.png_writes im = true ->
        PIL.png_writes (flattened im) = true)
    /\ (PIL.has_transparency_data im = false -> PIL.png_writes (flattened im) = true).
Proof.
  intros Hf Hw Hd Hico Hro Hu.
  destruct (conservative_bulk_run dir ro) as (h & E).
  assert (forall other, other ∈ List.filter is_webp (elements (dom dir)) ->
            ico_path other = ico_path name -> other = name) as Hu'.
  { intros other [Ho Hwo]%elem_of_filter_webp Heq.
    apply Hu; [by apply listed_entry | done | done]. }
  eexists. split; [exact E|]. cbn [files]. split_and!.
  - destruct (PIL.png_writes (flattened im)) eqn:Hk.
    + apply (skip_converted_writes ro name f im _ Hw Hd Hro Hk Hu'); [|done..].
      apply elem_of_filter_webp. split; [|done]. apply listed_entry. eauto.
    + by apply (skip_converted_refused ro name f im _ Hw Hd Hro Hk Hu').
  - by rewrite resized_mode, flattened_mode.
  - apply resized_size.
  - apply flattened_writes_mode.
  - apply flattened_writes_opaque.
Qed.

Lemma conservative_bulk_converts_new_source_witness :
  exists w',
    run Conservative.convert_all_webp_to_ico pair_dir ∅ = (Return tt, w')
    /\ files w' !! ico_path "b.webp"
       = Some (Encoded ICO [resized (flattened blue_pixel) (64, 64)] None).
Proof.
  assert (pair_dir !! "b.webp"%string = Some (Encoded WEBP [blue_pixel] None)) as Hf
    by (by vm_compute).
  assert (pair_dir !! ico_path "b.webp" = None) as Hico by (by vm_compute).
  assert (forall other, is_Some (pair_dir !! other) -> is_webp other = true ->
            ico_path other = ico_path "b.webp" -> other = "b.webp"%string) as Hu.
  { intros other [g Hg] _ Hp. unfold pair_dir in Hg.
    apply lookup_insert_Some in Hg as [[<- _]|[_ Hg]].
    - vm_compute in Hp. discriminate Hp.
    - by apply lookup_singleton_Some in Hg as [<- _]. }
  assert (PIL.decode (Encoded WEBP [blue_pixel] None) = Some blue_pixel) as Hd
    by reflexivity.
  destruct (conservative_bulk_converts_new_source pair_dir ∅ "b.webp"
              (Encoded WEBP [blue_pixel] None) blue_pixel
              Hf eq_refl Hd Hico (not_elem_of_empty _) Hu)
    as (w' & E & Hfile & _).
  exists w'. split; [exact E | exact Hfile].
Defined.
